(** * gps-astro: a shallow embedding of the celestial event engine

    The development embeds the pure core of [gps-astro.py]: the GPRMC
    telemetry parser, the smoothing window, the moon-phase classification,
    the solar-term scan with its yearly cache, the sun rise/set sentinels and
    the one-shot event scheduler.

    Conventions.
    - A finite Python [float] is the rational it denotes ([Q]).  The
      moon-phase arithmetic rounds every operation to binary64
      ([binary64], [float_mod]); elsewhere the arithmetic is exact.  Where
      a float may also be infinite or NaN and the code reacts to it (the
      parser's [int()] call), the three-way type [pyfloat] is used.
    - Calls into Skyfield, libm and the system clock are oracles: arguments
      of the embedded functions, or fields of the record [Ephemeris].
    - Exceptions are values of the error monad [outcome]; a Python
      [try/except] is a [match] on it.
    - Mutable attributes and globals are threaded explicitly as records. *)

From Stdlib Require Import ZArith QArith Qpower Qround Qabs Lqa Lia List Ascii
  String.
From stdpp Require Import base decidable strings list gmap.

Local Open Scope Z_scope.

(* ================================================================== *)
(** * Part I: the model                                                 *)
(* ================================================================== *)

(** ** Exceptions *)

Inductive exn : Type :=
| IndexError
| ValueError
| OverflowError
| OtherError.

Inductive outcome (A : Type) : Type :=
| Ok (a : A)
| Raise (e : exn).

Arguments Ok {A} a.
Arguments Raise {A} e.

#[global] Instance outcome_ret : MRet outcome := fun A a => Ok a.

#[global] Instance outcome_bind : MBind outcome := fun A B k c =>
  match c with
  | Ok a => k a
  | Raise e => Raise e
  end.

(** [try: body except Exception: handler]; every modelled exception derives
    from [Exception]. *)
Definition try_except {A : Type} (body : outcome A) (handler : exn -> outcome A)
  : outcome A :=
  match body with
  | Ok a => Ok a
  | Raise e => handler e
  end.

(** [parts[i]] on a Python list. *)
Definition py_index {A : Type} (l : list A) (i : nat) : outcome A :=
  match l !! i with
  | Some a => Ok a
  | None => Raise IndexError
  end.

(** ** Numbers *)

Definition Qlt_bool (x y : Q) : bool := negb (Qle_bool y x).

(** [x % m] on floats, for a positive modulus: the result has the sign of
    the modulus. *)
Definition py_fmod (x m : Q) : Q := (x - m * inject_Z (Qfloor (x / m)))%Q.

(** [int(x)]: truncation towards zero. *)
Definition py_trunc (x : Q) : Z :=
  if Qle_bool 0 x then Qfloor x else Qceiling x.

(** [round(x)]: to the nearest integer, ties to the even one. *)
Definition py_round (x : Q) : Z :=
  let f := Qfloor x in
  match Qcompare (x - inject_Z f) (1 # 2) with
  | Lt => f
  | Gt => f + 1
  | Eq => if Z.even f then f else f + 1
  end.

(** Python floats are IEEE 754 binary64 numbers.  Where rounding is
    modelled, a finite float is the rational it denotes, and [binary64]
    rounds a rational to the nearest float, ties to the even significand:
    53 significant bits, and a spacing that never falls below 2^-1074.
    It is applied to angles, ratios and their products, which stay far
    from the overflow threshold; overflow is not modelled. *)

(** The exponent [e] with 2^e <= x < 2^(e+1), for a positive [x]. *)
Definition binade (x : Q) : Z :=
  let k := Z.log2 (Qnum x) - Z.log2 (Zpos (Qden x)) in
  if Qle_bool (2 ^ k) x then k else k - 1.

Definition binary64 (x : Q) : Q :=
  if Qeq_bool x 0 then 0%Q
  else
    let e := Z.max (binade (Qabs x) - 52) (-1074) in
    (inject_Z (py_round (x / 2 ^ e)) * 2 ^ e)%Q.

(** [x + y], [x - y], [x * y] and [x / y] on floats: the exact result,
    rounded. *)
Definition fadd (x y : Q) : Q := binary64 (x + y).
Definition fsub (x y : Q) : Q := binary64 (x - y).
Definition fmul (x y : Q) : Q := binary64 (x * y).
Definition fdiv (x y : Q) : Q := binary64 (x / y).

(** C's [fmod]: exact, with the sign of [x]. *)
Definition c_fmod (x m : Q) : Q := (x - m * inject_Z (py_trunc (x / m)))%Q.

(** [x % m] on floats: [fmod], and when the remainder is not zero and its
    sign differs from that of the modulus, the modulus is added to it; that
    addition rounds. *)
Definition float_mod (x m : Q) : Q :=
  let r := c_fmod x m in
  if Qeq_bool r 0 then 0%Q
  else if Bool.eqb (Qlt_bool m 0) (Qlt_bool r 0) then r
  else fadd r m.

(** A Python float as far as the parser can tell the cases apart. *)
Inductive pyfloat : Type :=
| Fin (q : Q)
| Inf (negative : bool)
| NaN.

(** [x / c] for a finite positive constant [c]. *)
Definition fdiv_const (x : pyfloat) (c : Q) : pyfloat :=
  match x with
  | Fin q => Fin (q / c)
  | Inf s => Inf s
  | NaN => NaN
  end.

(** [x % c] for a finite positive constant [c]; [inf % c] is [nan]. *)
Definition fmod_const (x : pyfloat) (c : Q) : pyfloat :=
  match x with
  | Fin q => Fin (py_fmod q c)
  | Inf _ => NaN
  | NaN => NaN
  end.

(** [n + x] for an [int] n. *)
Definition fadd_int (n : Z) (x : pyfloat) : pyfloat :=
  match x with
  | Fin q => Fin (inject_Z n + q)
  | Inf s => Inf s
  | NaN => NaN
  end.

Definition fneg (x : pyfloat) : pyfloat :=
  match x with
  | Fin q => Fin (- q)
  | Inf s => Inf (negb s)
  | NaN => NaN
  end.

(** [int(x)] raises on the non-finite values. *)
Definition py_int (x : pyfloat) : outcome Z :=
  match x with
  | Fin q => Ok (py_trunc q)
  | Inf _ => Raise OverflowError
  | NaN => Raise ValueError
  end.

(** ** Strings *)

(** [s.split(sep)] for a one-character separator: never empty. *)
Fixpoint split (sep : ascii) (s : string) : list string :=
  match s with
  | EmptyString => [EmptyString]
  | String c r =>
      if Ascii.eqb c sep then EmptyString :: split sep r
      else match split sep r with
           | [] => [String c EmptyString]
           | h :: t => String c h :: t
           end
  end.

Definition digit_char (d : Z) : ascii := ascii_of_nat (Z.to_nat (48 + d)).

Fixpoint digits_fuel (fuel : nat) (n : Z) (acc : string) : string :=
  match fuel with
  | O => acc
  | S fuel' =>
      let acc' := String (digit_char (n mod 10)) acc in
      if n / 10 =? 0 then acc' else digits_fuel fuel' (n / 10) acc'
  end.

(** Decimal digits of a non-negative integer. *)
Definition decimal (n : Z) : string :=
  digits_fuel (S (Z.to_nat (Z.log2 n))) n EmptyString.

Fixpoint zeros (k : nat) : string :=
  match k with
  | O => EmptyString
  | S k' => String "0"%char (zeros k')
  end.

(** [f"{n:0wd}"]: the sign, then zeros up to the width, then the digits. *)
Definition zfill (w : nat) (n : Z) : string :=
  let sign := if n <? 0 then "-"%string else EmptyString in
  let ds := decimal (Z.abs n) in
  (sign +:+ zeros (w - String.length sign - String.length ds) +:+ ds)%string.

(** [str(n)] / [f"{n}"] for an int. *)
Definition str_int (n : Z) : string := zfill 0 n.

(** ** Calendar: the arithmetic of Python's [datetime] *)

Definition DAYS_IN_MONTH : list Z :=
  [-1; 31; 28; 31; 30; 31; 30; 31; 31; 30; 31; 30; 31].

Definition DAYS_BEFORE_MONTH : list Z :=
  [-1; 0; 31; 59; 90; 120; 151; 181; 212; 243; 273; 304; 334].

Definition is_leap (y : Z) : bool :=
  (y mod 4 =? 0) && (negb (y mod 100 =? 0) || (y mod 400 =? 0)).

Definition days_before_year (y : Z) : Z :=
  let p := y - 1 in p * 365 + p / 4 - p / 100 + p / 400.

Definition days_in_month (y m : Z) : Z :=
  if (m =? 2) && is_leap y then 29 else nth (Z.to_nat m) DAYS_IN_MONTH 0.

Definition days_before_month (y m : Z) : Z :=
  nth (Z.to_nat m) DAYS_BEFORE_MONTH 0
  + (if (2 <? m) && is_leap y then 1 else 0).

(** [_ymd2ord]: 0001-01-01 is day 1. *)
Definition ymd2ord (y m d : Z) : Z :=
  days_before_year y + days_before_month y m + d.

Definition DI400Y : Z := 146097.
Definition DI100Y : Z := 36524.
Definition DI4Y : Z := 1461.
Definition MAXORDINAL : Z := 3652059.

(** [_ord2ymd]. *)
Definition ord2ymd (ordinal : Z) : Z * Z * Z :=
  let n := ordinal - 1 in
  let n400 := n / DI400Y in
  let n := n mod DI400Y in
  let n100 := n / DI100Y in
  let n := n mod DI100Y in
  let n4 := n / DI4Y in
  let n := n mod DI4Y in
  let n1 := n / 365 in
  let n := n mod 365 in
  let y := n400 * 400 + 1 + n100 * 100 + n4 * 4 + n1 in
  if (n1 =? 4) || (n100 =? 4) then (y - 1, 12, 31)
  else
    let leapyear := (n1 =? 3) && (negb (n4 =? 24) || (n100 =? 3)) in
    let m := Z.shiftr (n + 50) 5 in
    let preceding :=
      nth (Z.to_nat m) DAYS_BEFORE_MONTH 0
      + (if (2 <? m) && leapyear then 1 else 0) in
    if n <? preceding then
      let m' := m - 1 in
      let preceding' :=
        preceding
        - (nth (Z.to_nat m') DAYS_IN_MONTH 0
           + (if (m' =? 2) && leapyear then 1 else 0)) in
      (y, m', n - preceding' + 1)
    else (y, m, n - preceding + 1).

(** A [datetime] object, as its fields.  Values produced by Skyfield's
    [utc_datetime()] are UTC; every other datetime of the program is a naive
    local time. *)
Record datetime : Type := mk_datetime {
  year : Z;
  month : Z;
  day : Z;
  hour : Z;
  minute : Z;
  second : Z;
  microsecond : Z
}.

(** [datetime(y, m, d)]: [ValueError] outside the calendar. *)
Definition datetime_ymd (y m d : Z) : outcome datetime :=
  if (1 <=? y) && (y <=? 9999) && (1 <=? m) && (m <=? 12)
     && (1 <=? d) && (d <=? days_in_month y m)
  then Ok (mk_datetime y m d 0 0 0 0)
  else Raise ValueError.

Definition US_PER_SECOND : Z := 1000000.
Definition US_PER_DAY : Z := 86400 * US_PER_SECOND.

(** Microseconds since the start of day 0 of the proleptic calendar. *)
Definition to_micros (t : datetime) : Z :=
  ((ymd2ord (year t) (month t) (day t) * 86400
    + hour t * 3600 + minute t * 60 + second t) * US_PER_SECOND
   + microsecond t).

(** The datetime of a microsecond count; [OverflowError] when the date
    leaves [1 .. MAXORDINAL]. *)
Definition of_micros (us : Z) : outcome datetime :=
  let days := us / US_PER_DAY in
  let r := us mod US_PER_DAY in
  if (0 <? days) && (days <=? MAXORDINAL) then
    let '(y, m, d) := ord2ymd days in
    let secs := r / US_PER_SECOND in
    Ok (mk_datetime y m d (secs / 3600) (secs mod 3600 / 60) (secs mod 60)
          (r mod US_PER_SECOND))
  else Raise OverflowError.

(** [t + timedelta(microseconds=delta)]. *)
Definition add_micros (t : datetime) (delta : Z) : outcome datetime :=
  of_micros (to_micros t + delta).

Definition add_days (t : datetime) (n : Z) : outcome datetime :=
  add_micros t (n * US_PER_DAY).

(** [(a - b).total_seconds()], in microseconds. *)
Definition sub_micros (a b : datetime) : Z := to_micros a - to_micros b.

(** [t.date().toordinal()]. *)
Definition toordinal (t : datetime) : Z := ymd2ord (year t) (month t) (day t).

(** [a < b] and [a <= b] on datetimes: the field tuples, compared
    lexicographically. *)
Definition fields (t : datetime) : list Z :=
  [year t; month t; day t; hour t; minute t; second t; microsecond t].

Fixpoint lex_lt (a b : list Z) : bool :=
  match a, b with
  | [], [] => false
  | [], _ :: _ => true
  | _ :: _, [] => false
  | x :: a', y :: b' => (x <? y) || ((x =? y) && lex_lt a' b')
  end.

Definition datetime_lt (a b : datetime) : bool := lex_lt (fields a) (fields b).
Definition datetime_le (a b : datetime) : bool := negb (datetime_lt b a).

(** [strftime] pieces. *)
Definition strftime_HMS (t : datetime) : string :=
  (zfill 2 (hour t) +:+ ":" +:+ zfill 2 (minute t) +:+ ":"
   +:+ zfill 2 (second t))%string.

Definition strftime_HM (t : datetime) : string :=
  (zfill 2 (hour t) +:+ ":" +:+ zfill 2 (minute t))%string.

Definition strftime_Ymd (t : datetime) : string :=
  (zfill 4 (year t) +:+ "-" +:+ zfill 2 (month t) +:+ "-"
   +:+ zfill 2 (day t))%string.

(** ['%Y-%m-%d %H:%M:%S']: the microseconds are dropped. *)
Definition strftime_Ymd_HMS (t : datetime) : string :=
  (strftime_Ymd t +:+ " " +:+ strftime_HMS t)%string.

(** ['%m-%d %H:%M']. *)
Definition strftime_md_HM (t : datetime) : string :=
  (zfill 2 (month t) +:+ "-" +:+ zfill 2 (day t) +:+ " "
   +:+ strftime_HM t)%string.

(** [dt.replace(hour=h, minute=mi, second=s, microsecond=0)]. *)
Definition replace_time (t : datetime) (h mi s : Z) : datetime :=
  mk_datetime (year t) (month t) (day t) h mi s 0.

(* ================================================================== *)
(** ** TelemetryIngestor: [parse_gprmc]                                 *)
(* ================================================================== *)

(** The dict [{'latitude': .., 'longitude': .., 'speed': .., 'course': ..}]. *)
Record gps_fix : Type := mk_fix {
  latitude : pyfloat;
  longitude : pyfloat;
  speed : pyfloat;
  course : pyfloat
}.

Section Telemetry.

(** The builtin [float(s)]: [Raise ValueError] when the text is no number. *)
Variable float : string -> outcome pyfloat.

(** The body of the [try] block, on the already split line. *)
Definition parse_fields (parts : list string) : outcome (option gps_fix) :=
  tag ← py_index parts 0;
  if negb (String.eqb tag "$GPRMC") then Ok None
  else
    status ← py_index parts 2;
    if negb (String.eqb status "A") then Ok None
    else
      f3 ← py_index parts 3;
      lat_raw ← float f3;
      lat_dir ← py_index parts 4;
      f5 ← py_index parts 5;
      lon_raw ← float f5;
      lon_dir ← py_index parts 6;
      lat_deg ← py_int (fdiv_const lat_raw 100);
      let lat_min := fmod_const lat_raw 100 in
      let latitude := fadd_int lat_deg (fdiv_const lat_min 60) in
      let latitude := if String.eqb lat_dir "S" then fneg latitude else latitude in
      lon_deg ← py_int (fdiv_const lon_raw 100);
      let lon_min := fmod_const lon_raw 100 in
      let longitude := fadd_int lon_deg (fdiv_const lon_min 60) in
      let longitude := if String.eqb lon_dir "W" then fneg longitude else longitude in
      f7 ← py_index parts 7;
      speed ← float f7;
      f8 ← py_index parts 8;
      course ← float f8;
      Ok (Some (mk_fix latitude longitude speed course)).

(** [try: <body> except Exception: return None]. *)
Definition parse_gprmc (line : string) : outcome (option gps_fix) :=
  try_except (parse_fields (split ","%char line)) (fun _ => Ok None).

End Telemetry.

(** An instance of [float] for plain decimal literals [[+-]ddd[.ddd]]; any
    other text is reported as [ValueError]. *)
Definition digit_value (c : ascii) : option Z :=
  let n := Z.of_nat (nat_of_ascii c) in
  if (48 <=? n) && (n <=? 57) then Some (n - 48) else None.

(** Reads digits into the pair (value, number of digits). *)
Fixpoint read_digits (s : string) (acc : Z) (k : nat) : option (Z * nat) :=
  match s with
  | EmptyString => Some (acc, k)
  | String c r =>
      match digit_value c with
      | Some d => read_digits r (acc * 10 + d) (S k)
      | None => None
      end
  end.

Definition unsigned_decimal (s : string) : option Q :=
  match split "."%char s with
  | [ip] =>
      match read_digits ip 0 0 with
      | Some (v, S _) => Some (inject_Z v)
      | _ => None
      end
  | [ip; fp] =>
      match read_digits ip 0 0, read_digits fp 0 0 with
      | Some (v, ki), Some (w, kf) =>
          match (ki + kf)%nat with
          | O => None
          | S _ => Some (inject_Z v + inject_Z w / inject_Z (10 ^ Z.of_nat kf))%Q
          end
      | _, _ => None
      end
  | _ => None
  end.

Definition float_of_decimal (s : string) : outcome pyfloat :=
  let '(neg, body) :=
    match s with
    | String "-"%char r => (true, r)
    | String "+"%char r => (false, r)
    | _ => (false, s)
    end in
  match unsigned_decimal body with
  | Some q => Ok (Fin (if neg : bool then - q else q)%Q)
  | None => Raise ValueError
  end.

(* ================================================================== *)
(** ** SmoothingFilter: [add_sample] and [average]                      *)
(* ================================================================== *)

Definition SMOOTH_WINDOW : Q := 20.

(** A deque of [(timestamp, value)] pairs, oldest first. *)
Definition history : Type := list (Q * Q).

(** The [while history and now - history[0][0] > SMOOTH_WINDOW: popleft()]
    loop. *)
Fixpoint evict (now : Q) (h : history) : history :=
  match h with
  | [] => []
  | (t, v) :: rest =>
      if Qlt_bool SMOOTH_WINDOW (now - t) then evict now rest else h
  end.

(** [add_sample(history, value)], with the reading of [time.time()] as the
    argument [now]. *)
Definition add_sample (now : Q) (h : history) (value : Q) : history :=
  evict now (h ++ [(now, value)]).

(** [sum(v for _, v in history)]. *)
Definition sum_values (h : history) : Q :=
  fold_left Qplus (map snd h) 0%Q.

Definition average (h : history) : Q :=
  match h with
  | [] => 0%Q
  | _ :: _ => (sum_values h / inject_Z (Z.of_nat (length h)))%Q
  end.

(** Feeding a channel a sequence of clock readings and values. *)
Definition add_samples (h : history) (samples : list (Q * Q)) : history :=
  fold_left (fun acc s => add_sample (fst s) acc (snd s)) samples h.

(* ================================================================== *)
(** ** MoonPhaseCalculator: [calculate_moon_phase_de421]                *)
(* ================================================================== *)

(** The seven-tuple returned by [calculate_moon_phase_de421]. *)
Record moon_phase : Type := mk_moon_phase {
  phase_name : string;
  phase_emoji : string;
  moon_age : Q;
  phase_percentage : Q;
  brightness_side : string;
  illumination : Q;
  trend : string
}.

(** What Skyfield reports for one instant: the apparent geocentric position
    vectors (au) and ecliptic longitudes (degrees) of sun and moon. *)
Record moon_sky : Type := mk_moon_sky {
  sun_pos : Q * Q * Q;
  moon_pos : Q * Q * Q;
  sun_elon : Q;
  moon_elon : Q
}.

(** The functions of [math] the calculator calls. *)
Record libm : Type := mk_libm {
  m_sqrt : Q -> Q;
  m_acos : Q -> Q;
  m_cos : Q -> Q;
  m_degrees : Q -> Q;
  m_radians : Q -> Q
}.

Definition Qmax (x y : Q) : Q := if Qlt_bool x y then y else x.
Definition Qmin (x y : Q) : Q := if Qlt_bool y x then y else x.

(** [phase_ratio = ((moon_lon - sun_lon) % 360) / 360.0], in float
    arithmetic. *)
Definition phase_ratio_of (sun_lon moon_lon : Q) : Q :=
  fdiv (float_mod (fsub moon_lon sun_lon) 360) 360.

(** The trend arrow. *)
Definition trend_of (phase_ratio : Q) : string :=
  if Qlt_bool phase_ratio 0.5 then "↑"
  else if Qlt_bool 0.5 phase_ratio then "↓"
  else "—".

(** The [if/elif] chain: name, emoji and bright side. *)
Definition phase_of (phase_ratio : Q) : string * string * string :=
  if Qlt_bool phase_ratio 0.0625 then ("新月", "🌑", "不可见")
  else if Qlt_bool phase_ratio 0.1875 then ("娥眉月", "🌒", "右边亮")
  else if Qlt_bool phase_ratio 0.3125 then ("上弦月", "🌓", "右边亮")
  else if Qlt_bool phase_ratio 0.4375 then ("盈凸月", "🌔", "右边亮")
  else if Qlt_bool phase_ratio 0.5625 then ("满月", "🌕", "全亮")
  else if Qlt_bool phase_ratio 0.6875 then ("亏凸月", "🌖", "左边亮")
  else if Qlt_bool phase_ratio 0.8125 then ("下弦月", "🌗", "左边亮")
  else if Qlt_bool phase_ratio 0.9375 then ("残月", "🌘", "左边亮")
  else ("新月", "🌑", "不可见").

(** [a[0]*b[0] + a[1]*b[1] + a[2]*b[2]], each operation rounded. *)
Definition dot3 (a b : Q * Q * Q) : Q :=
  let '(a0, a1, a2) := a in
  let '(b0, b1, b2) := b in
  fadd (fadd (fmul a0 b0) (fmul a1 b1)) (fmul a2 b2).

(** The body of the [try] block, once Skyfield has answered; the
    arithmetic is that of floats. *)
Definition moon_phase_of_sky (lm : libm) (sky : moon_sky) : moon_phase :=
  let dot := dot3 (sun_pos sky) (moon_pos sky) in
  let sun_norm := m_sqrt lm (dot3 (sun_pos sky) (sun_pos sky)) in
  let moon_norm := m_sqrt lm (dot3 (moon_pos sky) (moon_pos sky)) in
  let cos_phase :=
    fdiv dot (fadd (fmul sun_norm moon_norm) (binary64 (1 # 10 ^ 15))) in
  let cos_phase := Qmax (-1) (Qmin 1 cos_phase) in
  let phase_angle := m_degrees lm (m_acos lm cos_phase) in
  let synodic_month := binary64 29.530588 in
  let sun_lon := sun_elon sky in
  let moon_lon := moon_elon sky in
  let lon_diff := float_mod (fsub moon_lon sun_lon) 360 in
  let phase_ratio := fdiv lon_diff 360 in
  let moon_age := fmul phase_ratio synodic_month in
  let phase_percentage := fmul phase_ratio 100 in
  let illumination :=
    fmul 50 (fsub 1 (m_cos lm (m_radians lm phase_angle))) in
  let trend := trend_of phase_ratio in
  let '(phase_name, phase_emoji, brightness_side) := phase_of phase_ratio in
  mk_moon_phase phase_name phase_emoji moon_age phase_percentage
    brightness_side illumination trend.

(** [calculate_moon_phase_de421]: [ephemeris_loaded] is
    [ephemeris is not None]; [observe] is the Skyfield query for the given
    local time, raising when the conversion or the query fails. *)
Definition calculate_moon_phase_de421 (ephemeris_loaded : bool)
    (observe : datetime -> outcome moon_sky) (lm : libm)
    (dt_local : datetime) : moon_phase :=
  if negb ephemeris_loaded
  then mk_moon_phase "新月" "🌑" 0 0 "未加载" 0 "—"
  else
    match observe dt_local with
    | Ok sky => moon_phase_of_sky lm sky
    | Raise _ => mk_moon_phase "新月" "🌑" 0 0 "计算错误" 0 "—"
    end.

(* ================================================================== *)
(** ** The Skyfield interface                                           *)
(* ================================================================== *)

(** A Skyfield [Time] is represented by its TT Julian date.  Each field is
    one library call; [Raise] is the exception the call ends in. *)
Record Ephemeris : Type := mk_Ephemeris {
  (** [ephemeris is not None] *)
  ephemeris_loaded : bool;
  (** [ts is not None] *)
  ts_loaded : bool;
  (** [ts.utc(year, month, day, hour, minute, second)] *)
  ts_utc : Z -> Z -> Z -> Z -> Z -> Z -> outcome Q;
  (** [ts.from_datetime(dt_utc)] *)
  ts_from_datetime : datetime -> outcome Q;
  (** [t.utc_datetime()] *)
  utc_datetime : Q -> outcome datetime;
  (** [earth.at(t).observe(sun).apparent().ecliptic_latlon()[1].degrees] *)
  sun_ecliptic_lon : Q -> outcome Q;
  (** [(earth + wgs84.latlon(lat, lon)).at(t).observe(sun).apparent().altaz()],
      as (altitude, azimuth) in degrees *)
  sun_altaz : Q -> Q -> Q -> outcome (Q * Q);
  (** [find_discrete(t0, t1, risings_and_settings(ephemeris, sun, topos))],
      zipped: the instants with their event codes (1 is a rising) *)
  sun_risings_settings : Q -> Q -> Q -> Q -> outcome (list (Q * Z))
}.

(* ================================================================== *)
(** ** SolarTermCalculator                                              *)
(* ================================================================== *)

(** The dict [SOLAR_TERM_LONGITUDES], in insertion order. *)
Definition SOLAR_TERM_LONGITUDES : list (Z * string) :=
  [ (315, "立春"); (330, "雨水"); (345, "惊蛰");
    (0, "春分"); (15, "清明"); (30, "谷雨");
    (45, "立夏"); (60, "小满"); (75, "芒种");
    (90, "夏至"); (105, "小暑"); (120, "大暑");
    (135, "立秋"); (150, "处暑"); (165, "白露");
    (180, "秋分"); (195, "寒露"); (210, "霜降");
    (225, "立冬"); (240, "小雪"); (255, "大雪");
    (270, "冬至"); (285, "小寒"); (300, "大寒") ]%string.

(** A year's list: [(term name, instant)]. *)
Definition term_list : Type := list (string * datetime).

Section SolarTerms.

Variable eph : Ephemeris.

(** The bisection loop of [find_solar_term_time]: [n] iterations are left,
    [t_mid] is the midpoint of the previous iteration, if any. *)
Fixpoint bisect (target_lon : Z) (n : nat) (t_start t_end : Q)
    (t_mid : option Q) : outcome datetime :=
  match n with
  | O =>
      match t_mid with
      | Some t => utc_datetime eph t
      | None => Raise OtherError
      end
  | S n' =>
      let t_mid := ((t_start + t_end) / 2)%Q in
      lon ← sun_ecliptic_lon eph t_mid;
      let sun_lon := py_fmod lon 360 in
      let sun_lon :=
        if target_lon =? 0
        then (if Qlt_bool 180 sun_lon then sun_lon - 360 else sun_lon)%Q
        else sun_lon in
      let target_lon_check := if target_lon =? 0 then 0 else target_lon in
      let diff := (sun_lon - inject_Z target_lon_check)%Q in
      let diff :=
        if Qlt_bool 180 diff then (diff - 360)%Q
        else if Qlt_bool diff (-180) then (diff + 360)%Q
        else diff in
      if Qlt_bool (Qabs diff) 0.0001 then utc_datetime eph t_mid
      else if Qlt_bool diff 0
           then bisect target_lon n' t_mid t_end (Some t_mid)
           else bisect target_lon n' t_start t_mid (Some t_mid)
  end.

(** [find_solar_term_time(year, month, day, target_lon)]: [None] on any
    failure. *)
Definition find_solar_term_time (y m d : Z) (target_lon : Z)
  : option datetime :=
  if negb (ts_loaded eph) || negb (ephemeris_loaded eph) then None
  else
    match ts_utc eph y m d 0 0 0 with
    | Raise _ => None
    | Ok t_start =>
        match (start_dt ← datetime_ymd y m d; add_days start_dt 2) with
        | Raise _ => None
        | Ok end_dt =>
            match ts_utc eph (year end_dt) (month end_dt) (day end_dt) 0 0 0 with
            | Raise _ => None
            | Ok t_end =>
                match bisect target_lon 50 t_start t_end None with
                | Ok t => Some t
                | Raise _ => None
                end
            end
        end
    end.

(** The three-way test of the coarse scan: is [target_lon] flagged for the
    day pair ([prev_lon], [sun_lon])? *)
Definition crossed (prev_lon sun_lon : Q) (target_lon : Z) : bool :=
  if Qlt_bool 350 prev_lon && Qlt_bool sun_lon 10
  then (target_lon =? 0) || (345 <=? target_lon)
  else if Qlt_bool prev_lon sun_lon
  then Qle_bool prev_lon (inject_Z target_lon)
       && Qle_bool (inject_Z target_lon) sun_lon
  else Qle_bool prev_lon (inject_Z target_lon)
       || Qle_bool (inject_Z target_lon) sun_lon.

(** [any(name == term_name for name, _ in solar_terms_dates)]. *)
Definition already_added (term_name : string) (acc : term_list) : bool :=
  existsb (fun e => String.eqb (fst e) term_name) acc.

(** One round of the [for target_lon, term_name in ...] loop.  The scan date
    [current] is kept as its proleptic ordinal. *)
Definition check_target (yr : Z) (current : Z) (prev_lon sun_lon : Q)
    (acc : outcome term_list) (entry : Z * string) : outcome term_list :=
  acc ← acc;
  let '(target_lon, term_name) := entry in
  if crossed prev_lon sun_lon target_lon then
    if (1 <=? current - 1) then
      let '(sy, sm, sd) := ord2ymd (current - 1) in
      match find_solar_term_time sy sm sd target_lon with
      | Some precise_time =>
          if (year precise_time =? yr) && negb (already_added term_name acc)
          then Ok (acc ++ [(term_name, precise_time)])
          else Ok acc
      | None => Ok acc
      end
    else Raise OverflowError
  else Ok acc.

(** The body of the [while current < end_date] loop, as the state after
    one day. *)
Definition scan_day (yr : Z) (current : Z) (prev_lon : option Q)
    (acc : term_list) : outcome (option Q * term_list) :=
  let '(cy, cm, cd) := ord2ymd current in
  let sampled :=
    t ← ts_utc eph cy cm cd 12 0 0;
    lon ← sun_ecliptic_lon eph t;
    Ok (py_fmod lon 360) in
  match sampled with
  | Raise ValueError => Ok (prev_lon, acc)
  | Raise e => Raise e
  | Ok sun_lon =>
      acc' ← match prev_lon with
             | Some prev =>
                 fold_left (check_target yr current prev sun_lon)
                   SOLAR_TERM_LONGITUDES (Ok acc)
             | None => Ok acc
             end;
      Ok (Some sun_lon, acc')
  end.

(** The [while] loop: every round advances [current] by one day, so
    [end_date - current] rounds suffice. *)
Fixpoint scan (fuel : nat) (yr : Z) (current end_date : Z)
    (prev_lon : option Q) (acc : term_list) : outcome term_list :=
  match fuel with
  | O => Ok acc
  | S fuel' =>
      if current <? end_date then
        st ← scan_day yr current prev_lon acc;
        scan fuel' yr (current + 1) end_date (fst st) (snd st)
      else Ok acc
  end.

(** [solar_terms_dates.sort(key=lambda x: x[1])]: a stable sort on the
    instants. *)
Fixpoint insert_by_time (x : string * datetime) (l : term_list) : term_list :=
  match l with
  | [] => [x]
  | y :: r =>
      if datetime_lt (snd x) (snd y) then x :: l else y :: insert_by_time x r
  end.

Definition sort_by_time (l : term_list) : term_list :=
  fold_left (fun acc x => insert_by_time x acc) l [].

(** The body of the outer [try] block of [calculate_solar_terms]. *)
Definition calculate_solar_terms_body (yr : Z) : outcome term_list :=
  start_date ← datetime_ymd (yr - 1) 12 1;
  end_date ← datetime_ymd (yr + 1) 2 1;
  let first_day := toordinal start_date in
  let last_day := toordinal end_date in
  found ← scan (Z.to_nat (last_day - first_day)) yr first_day last_day None [];
  Ok (sort_by_time found).

(** [calculate_solar_terms(year)]. *)
Definition calculate_solar_terms (yr : Z) : term_list :=
  if negb (ts_loaded eph) || negb (ephemeris_loaded eph) then []
  else
    match calculate_solar_terms_body yr with
    | Ok l => l
    | Raise _ => []
    end.

End SolarTerms.

(** [solar_term_reminder(today, solar_terms)]; [utc_offset] is the local
    UTC offset in seconds, [-time.timezone] (or [-time.altzone]). *)
Fixpoint solar_term_reminder (utc_offset : Z) (today : datetime)
    (solar_terms : term_list) : outcome string :=
  match solar_terms with
  | [] => Ok EmptyString
  | (term_name, term_datetime) :: rest =>
      let delta_days := toordinal term_datetime - toordinal today in
      local_dt ← add_micros term_datetime (utc_offset * US_PER_SECOND);
      if delta_days =? 0 then
        Ok ("今日节气:" +:+ term_name +:+ " " +:+ strftime_HMS local_dt)%string
      else if delta_days =? 1 then
        Ok ("明日节气:" +:+ term_name +:+ " " +:+ strftime_HMS local_dt)%string
      else if (1 <? delta_days) && (delta_days <=? 30) then
        Ok ("距下个节气" +:+ str_int delta_days +:+ "天:" +:+ term_name
            +:+ " " +:+ strftime_md_HM local_dt)%string
      else solar_term_reminder utc_offset today rest
  end.

(** The globals [current_solar_terms] and [last_solar_term_calc_year]. *)
Record term_cache : Type := mk_term_cache {
  current_solar_terms : term_list;
  last_solar_term_calc_year : option Z
}.

Definition initial_term_cache : term_cache := mk_term_cache [] None.

(** What one call of [get_solar_term_info] does: the string it returns, the
    globals afterwards, and the progress line it prints when it has just
    recomputed the year's list. *)
Record term_info : Type := mk_term_info {
  reminder : string;
  cache_after : term_cache;
  printed : list string
}.

(** [get_solar_term_info()], with [datetime.today().date()] as [today]. *)
Definition get_solar_term_info (eph : Ephemeris) (utc_offset : Z)
    (today : datetime) (cache : term_cache) : term_info :=
  let '(cache', out) :=
    if decide (last_solar_term_calc_year cache = Some (year today))
    then (cache, [])
    else
      let terms := calculate_solar_terms eph (year today) in
      (mk_term_cache terms (Some (year today)),
       [("已计算 " +:+ str_int (year today) +:+ " 年节气，共 "
         +:+ str_int (Z.of_nat (length terms)) +:+ " 个")%string]) in
  let text :=
    match current_solar_terms cache' with
    | [] => EmptyString
    | _ :: _ =>
        match solar_term_reminder utc_offset today (current_solar_terms cache') with
        | Ok s => s
        | Raise _ => EmptyString
        end
    end in
  mk_term_info text cache' out.

(* ================================================================== *)
(** ** RiseSetTransitFinder: the sun's rise/set and its sentinels       *)
(* ================================================================== *)

(** [_format_az_deg(deg)]. *)
Definition _format_az_deg (deg : option Q) : string :=
  match deg with
  | None => "—"
  | Some d => (zfill 3 (py_round d mod 360) +:+ "°")%string
  end.

(** [_today_local(dt)]. *)
Definition _today_local (dt : datetime) : datetime * datetime :=
  (replace_time dt 0 0 0, replace_time dt 23 59 59).

(** [_to_local(dt_utc_like, ref_local)] for a naive [ref_local]; [utc_offset]
    is the system's UTC offset in seconds. *)
Definition _to_local (utc_offset : Z) (dt_utc_like : datetime)
  : outcome datetime :=
  add_micros dt_utc_like (utc_offset * US_PER_SECOND).

(** [(dt_local - timedelta(hours=offset_hours)).replace(tzinfo=utc)]. *)
Definition local_to_utc (utc_offset : Z) (dt_local : datetime)
  : outcome datetime :=
  add_micros dt_local (- (utc_offset * US_PER_SECOND)).

(** The six-tuple returned by [calculate_sun_events_skyfield]. *)
Record sun_events : Type := mk_sun_events {
  sunrise_str : string;
  sunset_str : string;
  next_rise_dt : option datetime;
  next_rise_az : option Q;
  next_set_dt : option datetime;
  next_set_az : option Q
}.

(** The locals filled by the loop over the detected events. *)
Record event_acc : Type := mk_event_acc {
  acc_sunrise_str : option string;
  acc_sunset_str : option string;
  acc_rise_dt : option datetime;
  acc_rise_az : option Q;
  acc_set_dt : option datetime;
  acc_set_az : option Q
}.

Definition SENTINEL_UNLOADED : string := "未加载".
Definition SENTINEL_ERROR : string := "计算错误".
Definition SENTINEL_POLAR_DAY : string := "极昼".
Definition SENTINEL_POLAR_NIGHT : string := "极夜".

Definition sentinel_result (s : string) : sun_events :=
  mk_sun_events s s None None None None.

Section SunEvents.

Variable eph : Ephemeris.
Variable utc_offset : Z.

(** [sun_alt_az_skyfield(lat, lon, dt_local)]. *)
Definition sun_alt_az_skyfield (lat lon : Q) (dt_local : datetime)
  : option Q * option Q :=
  if negb (ephemeris_loaded eph) then (None, None)
  else
    match (dt_utc ← local_to_utc utc_offset dt_local;
           t ← ts_from_datetime eph dt_utc;
           sun_altaz eph lat lon t) with
    | Ok (alt, az) => (Some alt, Some az)
    | Raise _ => (None, None)
    end.

(** One round of [for t, ev in zip(times, events)]. *)
Definition sun_event_step (lat lon : Q) (acc : outcome event_acc)
    (tev : Q * Z) : outcome event_acc :=
  acc ← acc;
  let '(t, ev) := tev in
  altaz ← sun_altaz eph lat lon t;
  let az_deg := snd altaz in
  dt ← utc_datetime eph t;
  ev_local ← _to_local utc_offset dt;
  let text :=
    (strftime_HMS ev_local +:+ " 方位" +:+ _format_az_deg (Some az_deg))%string in
  if ev =? 1 then
    match acc_sunrise_str acc with
    | None =>
        Ok (mk_event_acc (Some text) (acc_sunset_str acc)
              (Some ev_local) (Some az_deg) (acc_set_dt acc) (acc_set_az acc))
    | Some _ => Ok acc
    end
  else
    match acc_sunset_str acc with
    | None =>
        Ok (mk_event_acc (acc_sunrise_str acc) (Some text)
              (acc_rise_dt acc) (acc_rise_az acc) (Some ev_local) (Some az_deg))
    | Some _ => Ok acc
    end.

(** The [try] block up to the end of the loop: the day window, the search
    and the first rise and set. *)
Definition sun_events_scan (lat lon : Q) (date_local : datetime)
  : outcome event_acc :=
  let '(t0_local, t1_local) := _today_local date_local in
  t0_utc ← local_to_utc utc_offset t0_local;
  t1_utc ← local_to_utc utc_offset t1_local;
  t0 ← ts_from_datetime eph t0_utc;
  t1 ← ts_from_datetime eph t1_utc;
  found ← sun_risings_settings eph lat lon t0 t1;
  fold_left (sun_event_step lat lon) found
    (Ok (mk_event_acc None None None None None None)).

(** The branch taken when neither a rise nor a set was found. *)
Definition no_event_result (lat lon : Q) (date_local : datetime) : sun_events :=
  let noon := replace_time date_local 12 0 0 in
  let midn := replace_time date_local 0 0 0 in
  let alt_noon := fst (sun_alt_az_skyfield lat lon noon) in
  let alt_midn := fst (sun_alt_az_skyfield lat lon midn) in
  match alt_noon, alt_midn with
  | Some a_noon, Some a_midn =>
      if Qlt_bool 0 a_noon && Qlt_bool 0 a_midn
      then sentinel_result SENTINEL_POLAR_DAY
      else if Qlt_bool a_noon 0 && Qlt_bool a_midn 0
      then sentinel_result SENTINEL_POLAR_NIGHT
      else sentinel_result SENTINEL_ERROR
  | _, _ => sentinel_result SENTINEL_ERROR
  end.

(** [calculate_sun_events_skyfield(lat, lon, date_local)]. *)
Definition calculate_sun_events_skyfield (lat lon : Q) (date_local : datetime)
  : sun_events :=
  if negb (ephemeris_loaded eph) then sentinel_result SENTINEL_UNLOADED
  else
    match sun_events_scan lat lon date_local with
    | Raise _ => sentinel_result SENTINEL_ERROR
    | Ok acc =>
        match acc_sunrise_str acc, acc_sunset_str acc with
        | None, None => no_event_result lat lon date_local
        | rise, set =>
            mk_sun_events (default "无日出"%string rise)
              (default "无日落"%string set)
              (acc_rise_dt acc) (acc_rise_az acc)
              (acc_set_dt acc) (acc_set_az acc)
        end
    end.

End SunEvents.

(* ================================================================== *)
(** ** EventScheduler: [_maybe_fire_event]                              *)
(* ================================================================== *)

(** The attributes written by [update_minutely_astro] and read by the
    scheduler. *)
Record astro : Type := mk_astro {
  next_moonrise_dt : option datetime;
  next_moonrise_az : option Q;
  next_moonset_dt : option datetime;
  next_moonset_az : option Q;
  next_sunrise_dt : option datetime;
  next_sunrise_az : option Q;
  next_sunset_dt : option datetime;
  next_sunset_az : option Q
}.

(** One call of [_write_event_log], together with the key under which
    [fire_once] let it through. *)
Record notification : Type := mk_notification {
  note_key : string;
  note_event : string;
  note_az : option Q
}.

(** The scheduler's share of the application object. *)
Record scheduler : Type := mk_scheduler {
  sched_astro : astro;
  _fired_event_keys : gset string;
  event_log : list notification
}.

(** The state left by [__init__]. *)
Definition initial_scheduler : scheduler :=
  mk_scheduler (mk_astro None None None None None None None None) ∅ [].

(** The four tracked events, in the order [_maybe_fire_event] visits them. *)
Inductive event_kind : Type := Moonrise | Moonset | Sunrise | Sunset.

Definition key_prefix (k : event_kind) : string :=
  match k with
  | Moonrise => "moonrise-"
  | Moonset => "moonset-"
  | Sunrise => "sunrise-"
  | Sunset => "sunset-"
  end.

Definition event_name (k : event_kind) : string :=
  match k with
  | Moonrise => "月出"
  | Moonset => "月落"
  | Sunrise => "日出"
  | Sunset => "日落"
  end.

Definition scheduled_dt (k : event_kind) (a : astro) : option datetime :=
  match k with
  | Moonrise => next_moonrise_dt a
  | Moonset => next_moonset_dt a
  | Sunrise => next_sunrise_dt a
  | Sunset => next_sunset_dt a
  end.

Definition scheduled_az (k : event_kind) (a : astro) : option Q :=
  match k with
  | Moonrise => next_moonrise_az a
  | Moonset => next_moonset_az a
  | Sunrise => next_sunrise_az a
  | Sunset => next_sunset_az a
  end.

(** [f"<kind>-{dt.strftime('%Y-%m-%d %H:%M:%S')}"]. *)
Definition event_key (k : event_kind) (dt : datetime) : string :=
  (key_prefix k +:+ strftime_Ymd_HMS dt)%string.

(** [should_fire(ev_dt)]: [abs((now_local - ev_dt).total_seconds()) <= 1.5],
    counted in microseconds. *)
Definition should_fire (now_local : datetime) (ev_dt : option datetime) : bool :=
  match ev_dt with
  | None => false
  | Some dt => Z.abs (sub_micros now_local dt) <=? 1500000
  end.

(** What calling a refresh closure does: the schedule it leaves (its
    [update_minutely_astro] may rewrite the schedule and handles its own
    errors) and the exception that its [update_idletasks] ends in, if
    any. *)
Definition refresh_func : Type := astro -> astro * option exn.

(** [fire_once(key, event_name, az_deg, refresh_func)]: the state it leaves
    and the exception it ends in, if any.  The key is added first;
    [try: refresh_func() finally: pass] lets an exception of the refresh
    pass, and [_write_event_log] is not reached then. *)
Definition fire_once (key name : string) (az_deg : option Q)
    (refresh : refresh_func) (s : scheduler) : scheduler * option exn :=
  if decide (key ∈ _fired_event_keys s) then (s, None)
  else
    let fired := {[key]} ∪ _fired_event_keys s in
    let '(a, raised) := refresh (sched_astro s) in
    match raised with
    | Some e => (mk_scheduler a fired (event_log s), Some e)
    | None =>
        (mk_scheduler a fired
           (event_log s ++ [mk_notification key name az_deg]), None)
    end.

(** One of the four [if should_fire(...)] blocks. *)
Definition fire_block (k : event_kind) (refresh : refresh_func)
    (now_local : datetime) (s : scheduler) : scheduler * option exn :=
  match scheduled_dt k (sched_astro s) with
  | Some dt =>
      if should_fire now_local (Some dt)
      then fire_once (event_key k dt) (event_name k)
             (scheduled_az k (sched_astro s)) refresh s
      else (s, None)
  | None => (s, None)
  end.

(** One statement after another: an exception ends the poll. *)
Definition and_then (r : scheduler * option exn)
    (block : scheduler -> scheduler * option exn) : scheduler * option exn :=
  match snd r with
  | None => block (fst r)
  | Some _ => r
  end.

(** [_maybe_fire_event(now_local)]; [refresh k] is the refresh closure of
    block [k]. *)
Definition _maybe_fire_event (refresh : event_kind -> refresh_func)
    (now_local : datetime) (s : scheduler) : scheduler * option exn :=
  and_then
    (and_then
       (and_then (fire_block Moonrise (refresh Moonrise) now_local s)
          (fire_block Moonset (refresh Moonset) now_local))
       (fire_block Sunrise (refresh Sunrise) now_local))
    (fire_block Sunset (refresh Sunset) now_local).

(** One driver tick as the scheduler sees it: [update_display] lets
    [update_minutely_astro] rewrite the schedule, then polls inside
    [try: ... except Exception: pass], which drops an exception of the
    poll and keeps the state it left. *)
Record tick : Type := mk_tick {
  tick_now : datetime;
  tick_minutely : astro -> astro;
  tick_refresh : event_kind -> refresh_func
}.

Definition driver_tick (s : scheduler) (tk : tick) : scheduler :=
  fst (_maybe_fire_event (tick_refresh tk) (tick_now tk)
         (mk_scheduler (tick_minutely tk (sched_astro s))
            (_fired_event_keys s) (event_log s))).

Definition run_ticks (s : scheduler) (tks : list tick) : scheduler :=
  fold_left driver_tick tks s.

(* ================================================================== *)
(** ** Notions used to state the properties                             *)
(* ================================================================== *)

(** The decimal value of a raw [ddmm.mmmm] reading and its hemisphere:
    degrees are the integer part of raw/100, minutes are raw mod 100. *)
Definition decode_dm (raw : Q) (negate : bool) : Q :=
  let v := (inject_Z (py_trunc (raw / 100)) + py_fmod raw 100 / 60)%Q in
  if negate then (- v)%Q else v.

(** Timestamps never decrease along the deque. *)
Fixpoint chronological (h : history) : Prop :=
  match h with
  | [] => True
  | s :: rest => Forall (fun s' => (fst s <= fst s')%Q) rest /\ chronological rest
  end.

(** The test of the eviction loop, negated: the entry stays. *)
Definition within_window (now : Q) (s : Q * Q) : bool :=
  negb (Qlt_bool SMOOTH_WINDOW (now - fst s)).

(** The eight buckets of the specification. *)
Inductive bucket : Type :=
| NewMoon | WaxingCrescent | FirstQuarter | WaxingGibbous
| FullMoon | WaningGibbous | LastQuarter | WaningCrescent.

(** The name the code gives each bucket. *)
Definition bucket_name (b : bucket) : string :=
  match b with
  | NewMoon => "新月"
  | WaxingCrescent => "娥眉月"
  | FirstQuarter => "上弦月"
  | WaxingGibbous => "盈凸月"
  | FullMoon => "满月"
  | WaningGibbous => "亏凸月"
  | LastQuarter => "下弦月"
  | WaningCrescent => "残月"
  end.

(** The intervals [lo, hi) of the specification's table, in its order. *)
Definition spec_phase_table : list (Q * Q * bucket) :=
  [ (0, 0.0625, NewMoon);
    (0.0625, 0.1875, WaxingCrescent);
    (0.1875, 0.3125, FirstQuarter);
    (0.3125, 0.4375, WaxingGibbous);
    (0.4375, 0.5625, FullMoon);
    (0.5625, 0.6875, WaningGibbous);
    (0.6875, 0.8125, LastQuarter);
    (0.8125, 0.9375, WaningCrescent);
    (0.9375, 1, NewMoon) ]%Q.

(** The ratio [r] lies in the interval of table row [e]. *)
Definition in_interval (r : Q) (e : Q * Q * bucket) : Prop :=
  (fst (fst e) <= r)%Q /\ (r < snd (fst e))%Q.

(** A sky with the moon 90 degrees east of the sun: ratio 1/4, first
    quarter, waxing. *)
Definition quarter_sky : moon_sky :=
  mk_moon_sky (1, 0, 0)%Q (0, (1 # 400), 0)%Q 100 190.

(** Stand-ins for the [math] functions, for examples that do not look at
    the illumination. *)
Definition no_libm : libm :=
  mk_libm (fun x => x) (fun x => x) (fun x => x) (fun x => x) (fun x => x).

(** The targets the scan flags for one day pair, in dict order. *)
Definition flagged_targets (prev_lon sun_lon : Q) : list Z :=
  List.filter (crossed prev_lon sun_lon) (map fst SOLAR_TERM_LONGITUDES).

(** Sorted by instant: every entry is no later than all entries after it. *)
Fixpoint sorted_by_time (l : term_list) : Prop :=
  match l with
  | [] => True
  | x :: rest =>
      Forall (fun y => datetime_le (snd x) (snd y) = true) rest
      /\ sorted_by_time rest
  end.

(** What the scan maintains: names occur once, every instant lies in the
    requested year, and every name is one of the 24. *)
Definition well_formed_terms (yr : Z) (l : term_list) : Prop :=
  NoDup (map fst l)
  /\ Forall (fun e => year (snd e) = yr) l
  /\ Forall (fun e => In (fst e) (map snd SOLAR_TERM_LONGITUDES)) l.

(** A model ephemeris for examples: a [Time] is a day count, the sun moves
    one degree per day and stands at longitude 0 at the start of
    2024-03-20 (day 738965); nothing rises or sets, and the sun's altitude
    swings from -5 degrees at midnight UTC to +5 degrees at noon UTC. *)
Definition toy_time (y m d h mi s : Z) : outcome Q :=
  Ok (inject_Z (ymd2ord y m d) + inject_Z (h * 3600 + mi * 60 + s) / 86400)%Q.

(** The model ephemeris itself. *)
Definition toy_ephemeris : Ephemeris :=
  mk_Ephemeris true true toy_time
    (fun dt => Ok (inject_Z (to_micros dt) / inject_Z US_PER_DAY)%Q)
    (fun t => of_micros (Qfloor (t * inject_Z US_PER_DAY)))
    (fun t => Ok (t - 738965)%Q)
    (fun _ _ t => Ok ((t - inject_Z (Qfloor t)) * 20 - 5, 180)%Q)
    (fun _ _ _ _ => Ok []).

(** An ephemeris whose time scale rejects every date with a numeric
    failure. *)
Definition failing_ephemeris : Ephemeris :=
  mk_Ephemeris true true
    (fun _ _ _ _ _ _ => Raise OverflowError)
    (fun _ => Raise OverflowError)
    (fun _ => Raise OverflowError)
    (fun _ => Raise OverflowError)
    (fun _ _ _ => Raise OverflowError)
    (fun _ _ _ _ => Raise OverflowError).

(** Both altitudes were evaluated and are positive. *)
Definition both_positive (alt_noon alt_midn : option Q) : Prop :=
  exists a b, alt_noon = Some a /\ alt_midn = Some b /\ (0 < a)%Q /\ (0 < b)%Q.

(** Both altitudes were evaluated and are negative. *)
Definition both_negative (alt_noon alt_midn : option Q) : Prop :=
  exists a b, alt_noon = Some a /\ alt_midn = Some b /\ (a < 0)%Q /\ (b < 0)%Q.




(** A schedule with the sunrise at 06:00:00.4, and a driver tick at a
    whole second of that morning. *)
Definition sunrise_schedule (a : astro) : astro :=
  mk_astro (next_moonrise_dt a) (next_moonrise_az a)
    (next_moonset_dt a) (next_moonset_az a)
    (Some (mk_datetime 2024 3 20 6 0 0 400000)) (Some (895 # 10)%Q)
    (next_sunset_dt a) (next_sunset_az a).

(** Refresh closures that return normally and leave the schedule alone,
    and refresh closures that raise. *)
Definition quiet_refresh : event_kind -> refresh_func :=
  fun _ a => (a, None).

Definition raising_refresh : event_kind -> refresh_func :=
  fun _ a => (a, Some OtherError).

(** The tick at [h:mi:s] of that morning; the refresh closures leave the
    schedule alone. *)
Definition second_tick (h mi s : Z) : tick :=
  mk_tick (mk_datetime 2024 3 20 h mi s 0) sunrise_schedule quiet_refresh.





(** The sample the coarse scan takes on the day with ordinal [current]:
    the sun's longitude at noon UTC, reduced to [0, 360). *)
Definition noon_longitude (eph : Ephemeris) (current : Z) : outcome Q :=
  let '(cy, cm, cd) := ord2ymd current in
  t ← ts_utc eph cy cm cd 12 0 0;
  lon ← sun_ecliptic_lon eph t;
  Ok (py_fmod lon 360).

(** The computation of the year's list fails: the time scale or the
    ephemeris is missing, or the noon sample of one scanned day (from
    1 December of the year before up to, not including, 1 February of the
    year after) raises anything but a [ValueError]. *)
Definition search_fails (eph : Ephemeris) (yr : Z) : Prop :=
  ts_loaded eph = false
  \/ ephemeris_loaded eph = false
  \/ exists (bad : Z) (e : exn),
       ymd2ord (yr - 1) 12 1 <= bad < ymd2ord (yr + 1) 2 1
       /\ noon_longitude eph bad = Raise e
       /\ e <> ValueError.

(** The model ephemeris, except that no instant within a tenth of a day
    of the start of 2024-03-20 can be turned into a datetime. *)
Definition equinox_blind_ephemeris : Ephemeris :=
  mk_Ephemeris true true toy_time
    (ts_from_datetime toy_ephemeris)
    (fun t => if Qle_bool (738965 - 1 / 10) t && Qle_bool t (738965 + 1 / 10)
              then Raise OverflowError else utc_datetime toy_ephemeris t)
    (sun_ecliptic_lon toy_ephemeris) (sun_altaz toy_ephemeris)
    (sun_risings_settings toy_ephemeris).

(** The fields [strftime] prints lie in the ranges of a Python datetime. *)
Definition printable (t : datetime) : Prop :=
  0 <= year t < 10000 /\ 0 <= month t < 100 /\ 0 <= day t < 100
  /\ 0 <= hour t < 100 /\ 0 <= minute t < 100 /\ 0 <= second t < 100.

(** The number a string of digits spells, or -1. *)
Definition digits_value (s : string) : Z :=
  match read_digits s 0 0 with
  | Some (v, _) => v
  | None => -1
  end.

(** Kind [k] is due: scheduled within the tolerance of [now_local], its key
    not fired. *)
Definition due (now_local : datetime) (s : scheduler) (k : event_kind) : bool :=
  match scheduled_dt k (sched_astro s) with
  | Some dt =>
      should_fire now_local (Some dt)
      && bool_decide (event_key k dt ∉ _fired_event_keys s)
  | None => false
  end.

(** The notification a due kind gives rise to. *)
Definition due_notifications (now_local : datetime) (s : scheduler)
    (k : event_kind) : list notification :=
  match scheduled_dt k (sched_astro s) with
  | Some dt =>
      if due now_local s k
      then [mk_notification (event_key k dt) (event_name k)
              (scheduled_az k (sched_astro s))]
      else []
  | None => []
  end.

Definition ALL_KINDS : list event_kind := [Moonrise; Moonset; Sunrise; Sunset].

(** [t] lies between [a] and [b], in whichever order they come. *)
Definition between (a b t : Q) : Prop :=
  ((a <= t)%Q /\ (t <= b)%Q) \/ ((b <= t)%Q /\ (t <= a)%Q).

(** The term's UTC date is today or at most 30 days ahead. *)
Definition upcoming (today : datetime) (e : string * datetime) : bool :=
  let delta_days := toordinal (snd e) - toordinal today in
  (0 <=? delta_days) && (delta_days <=? 30).

(** The search of [calculate_sun_events_skyfield]: the local day window
    turned into Skyfield times, and the risings and settings found in it. *)
Definition sun_events_found (eph : Ephemeris) (utc_offset : Z) (lat lon : Q)
    (date_local : datetime) : outcome (list (Q * Z)) :=
  let '(t0_local, t1_local) := _today_local date_local in
  t0_utc ← local_to_utc utc_offset t0_local;
  t1_utc ← local_to_utc utc_offset t1_local;
  t0 ← ts_from_datetime eph t0_utc;
  t1 ← ts_from_datetime eph t1_utc;
  sun_risings_settings eph lat lon t0 t1.

(** What the loop computes for one detected event: the text shown, the
    local time and the azimuth. *)
Definition event_report (eph : Ephemeris) (utc_offset : Z) (lat lon : Q)
    (tev : Q * Z) : outcome (string * datetime * Q) :=
  altaz ← sun_altaz eph lat lon (fst tev);
  dt ← utc_datetime eph (fst tev);
  ev_local ← _to_local utc_offset dt;
  Ok ((strftime_HMS ev_local +:+ " 方位"
       +:+ _format_az_deg (Some (snd altaz)))%string, ev_local, snd altaz).

(** The first detected event that is a rising (code 1), or the first that
    is not. *)
Definition first_event (rising : bool) (found : list (Q * Z)) : option (Q * Z) :=
  List.find (fun tev => Bool.eqb (snd tev =? 1) rising) found.

Definition report_of (eph : Ephemeris) (utc_offset : Z) (lat lon : Q)
    (tev : Q * Z) : option (string * datetime * Q) :=
  match event_report eph utc_offset lat lon tev with
  | Ok r => Some r
  | Raise _ => None
  end.

(** The six-tuple built from the report of the rise and of the set. *)
Definition sun_events_of (rise set : option (string * datetime * Q)) : sun_events :=
  mk_sun_events
    (default "无日出"%string (fst ∘ fst <$> rise))
    (default "无日落"%string (fst ∘ fst <$> set))
    (snd ∘ fst <$> rise) (snd <$> rise)
    (snd ∘ fst <$> set) (snd <$> set).

(** The accumulator of the loop holding the reports of a rise and a set. *)
Definition acc_of (rise set : option (string * datetime * Q)) : event_acc :=
  mk_event_acc (fst ∘ fst <$> rise) (fst ∘ fst <$> set)
    (snd ∘ fst <$> rise) (snd <$> rise) (snd ∘ fst <$> set) (snd <$> set).

Definition or_else {A : Type} (x y : option A) : option A :=
  match x with Some _ => x | None => y end.

(** The model ephemeris with a sunrise a quarter of a day into the search
    window, a sunset at three quarters and a second rising at seven
    eighths. *)
Definition rising_ephemeris : Ephemeris :=
  mk_Ephemeris true true toy_time
    (ts_from_datetime toy_ephemeris) (utc_datetime toy_ephemeris)
    (sun_ecliptic_lon toy_ephemeris) (sun_altaz toy_ephemeris)
    (fun _ _ t0 _ =>
       Ok [((t0 + 1 / 4)%Q, 1); ((t0 + 3 / 4)%Q, 0); ((t0 + 7 / 8)%Q, 1)]).

(** The same, but the position of the sun cannot be evaluated in the last
    fifth of a UTC day. *)
Definition patchy_ephemeris : Ephemeris :=
  mk_Ephemeris true true toy_time
    (ts_from_datetime toy_ephemeris) (utc_datetime toy_ephemeris)
    (sun_ecliptic_lon toy_ephemeris)
    (fun lat lon t =>
       if Qle_bool (4 / 5) (t - inject_Z (Qfloor t))
       then Raise OtherError else sun_altaz toy_ephemeris lat lon t)
    (sun_risings_settings rising_ephemeris).

(* ================================================================== *)
(** ** Lunar calendar names: [num_to_chinese], [get_ganzhi_year],
       [today_lunar_info]                                               *)
(* ================================================================== *)

(** The dict [CN_NUM]; a missing key is a [KeyError], which [exn] files
    under [OtherError]. *)
Definition CN_NUM (k : Z) : outcome string :=
  match k with
  | 0 => Ok "〇"%string
  | 1 => Ok "一"%string
  | 2 => Ok "二"%string
  | 3 => Ok "三"%string
  | 4 => Ok "四"%string
  | 5 => Ok "五"%string
  | 6 => Ok "六"%string
  | 7 => Ok "七"%string
  | 8 => Ok "八"%string
  | 9 => Ok "九"%string
  | 10 => Ok "十"%string
  | _ => Raise OtherError
  end.

(** [num_to_chinese(n)]. *)
Definition num_to_chinese (n : Z) : outcome string :=
  if (1 <=? n) && (n <=? 10) then
    c ← CN_NUM n; Ok ("初" +:+ c)%string
  else if n <? 20 then
    c ← (if negb (n - 10 =? 0) then CN_NUM (n - 10) else Ok EmptyString);
    Ok ("十" +:+ c)%string
  else if n <? 30 then
    c ← (if negb (n - 20 =? 0) then CN_NUM (n - 20) else Ok EmptyString);
    Ok ("二十" +:+ c)%string
  else if n =? 30 then Ok "三十"%string
  else Ok (str_int n).

Definition TIANGAN : list string :=
  ["甲"; "乙"; "丙"; "丁"; "戊"; "己"; "庚"; "辛"; "壬"; "癸"]%string.

Definition DIZHI : list string :=
  ["子"; "丑"; "寅"; "卯"; "辰"; "巳"; "午"; "未"; "申"; "酉"; "戌"; "亥"]%string.

Definition SHENGXIAO : list string :=
  ["鼠"; "牛"; "虎"; "兔"; "龙"; "蛇"; "马"; "羊"; "猴"; "鸡"; "狗"; "猪"]%string.

Definition TRADITIONAL_MONTH : list string :=
  ["正"; "二"; "三"; "四"; "五"; "六"; "七"; "八"; "九"; "十"; "十一"; "腊"]%string.

(** [FESTIVALS.get((month, day))]. *)
Definition FESTIVALS (month day : Z) : option string :=
  match month, day with
  | 1, 1 => Some "春节"%string
  | 1, 15 => Some "元宵节"%string
  | 5, 5 => Some "端午节"%string
  | 7, 7 => Some "七夕节"%string
  | 8, 15 => Some "中秋节"%string
  | 9, 9 => Some "重阳节"%string
  | 12, 8 => Some "腊八节"%string
  | 12, 23 => Some "小年"%string
  | _, _ => None
  end.

(** [l[i]] for an int [i]: a negative index counts from the end. *)
Definition py_index_int {A : Type} (l : list A) (i : Z) : outcome A :=
  let n := Z.of_nat (length l) in
  if i <? 0 then
    if - n <=? i then py_index l (Z.to_nat (i + n)) else Raise IndexError
  else py_index l (Z.to_nat i).

(** [get_ganzhi_year(year)]: Python's [%] with a positive modulus is
    [Z.modulo]. *)
Definition get_ganzhi_year (year : Z) : outcome string :=
  tg ← py_index_int TIANGAN ((year - 4) mod 10);
  dz ← py_index_int DIZHI ((year - 4) mod 12);
  sx ← py_index_int SHENGXIAO ((year - 4) mod 12);
  Ok (tg +:+ dz +:+ "年(" +:+ sx +:+ "年)")%string.

(** What [LunarDate.fromSolarDate] gives for today: year, month, day and
    the leap-month flag. *)
Record lunar_date : Type := mk_lunar_date {
  l_year : Z;
  l_month : Z;
  l_day : Z;
  l_leap : bool
}.

(** [today_lunar_info()]; [from_solar_date] is the outcome of the library
    call on today's date. *)
Definition today_lunar_info (from_solar_date : outcome lunar_date) : string :=
  match (l ← from_solar_date;
         lunar_year ← get_ganzhi_year (l_year l);
         month_name ← py_index_int TRADITIONAL_MONTH (l_month l - 1);
         let month_name :=
           if l_leap l then ("闰" +:+ month_name)%string else month_name in
         day_name ← num_to_chinese (l_day l);
         let day_name :=
           if (l_month l =? 1) && (l_day l =? 1)
           then "大年初一"%string else day_name in
         let day_name :=
           if (l_month l =? 12) && ((l_day l =? 29) || (l_day l =? 30))
           then (day_name +:+ " 除夕")%string else day_name in
         let day_name :=
           match FESTIVALS (l_month l) (l_day l) with
           | Some festival => (day_name +:+ " " +:+ festival)%string
           | None => day_name
           end in
         Ok ("农历:" +:+ lunar_year +:+ month_name +:+ "月" +:+ day_name)%string)
  with
  | Ok s => s
  | Raise _ => "农历:不可用"%string
  end.

(* ================================================================== *)
(** ** Display helpers: [lighting_stage_from_sun_alt], [dmm_format]     *)
(* ================================================================== *)

(** [lighting_stage_from_sun_alt(alt_deg)]. *)
Definition lighting_stage_from_sun_alt (alt_deg : Q) : string * string :=
  if Qle_bool alt_deg (-18) then
    ("夜间", "远离城市的漆黑深夜｜ 天空：纯黑夜空，满天星最亮｜ 海面：海天线看不见，只能靠灯光和仪器")%string
  else if Qlt_bool (-18) alt_deg && Qle_bool alt_deg (-12) then
    ("天文拂晓/暮光", "进入观星的夜色｜ 天空：仅地平线附近极微亮｜  海面：除灯光外几不可见")%string
  else if Qlt_bool (-12) alt_deg && Qle_bool alt_deg (-6) then
    ("航海拂晓/暮光", "郊外无路灯的将亮未亮｜天空：深蓝快速变暗/变亮，星星增/减｜海面：只见轮廓，看不清细节")%string
  else if Qlt_bool (-6) alt_deg && Qle_bool alt_deg 0 then
    ("民用拂晓/暮光", "城市'蓝调时刻'｜天空：蓝紫到浅蓝渐变｜海面：轮廓清楚，不用强光也能走动")%string
  else
    ("白天", "正常白天 ｜ 天空： 明亮蓝天 ｜  海面：颜色饱和，细节清晰")%string.

(** [f"{x:06.3f}"]: the value rounded to three decimals (ties to even),
    padded with zeros to six characters, the sign included. *)
Definition format_06_3f (x : Q) : string :=
  let n := py_round (Qabs x * 1000) in
  let body := (decimal (n / 1000) +:+ "." +:+ zfill 3 (n mod 1000))%string in
  let sign := if Qlt_bool x 0 then "-"%string else EmptyString in
  (sign +:+ zeros (6 - String.length sign - String.length body) +:+ body)%string.

(** [dmm_format(dd, is_lat)]. *)
Definition dmm_format (dd : Q) (is_lat : bool) : string :=
  let deg := py_trunc (Qabs dd) in
  let minutes := ((Qabs dd - inject_Z deg) * 60)%Q in
  let direction :=
    if is_lat then (if Qle_bool 0 dd then "N" else "S")%string
    else (if Qle_bool 0 dd then "E" else "W")%string in
  let deg_fmt := if is_lat then zfill 2 deg else zfill 3 deg in
  (deg_fmt +:+ "°" +:+ format_06_3f minutes +:+ "'" +:+ direction)%string.

(* ================================================================== *)
(** ** RiseSetTransitFinder: [calculate_moon_transit_de421]             *)
(* ================================================================== *)

(** [for hour in range(24): for minute in range(0, 60, 2)]. *)
Definition TRANSIT_PROBES : list (Z * Z) :=
  flat_map (fun hour => map (fun k => (hour, 2 * k)) (seqZ 0 30)) (seqZ 0 24).

Section MoonTransit.

Variable eph : Ephemeris.
Variable utc_offset : Z.
(** [(earth + wgs84.latlon(lat, lon)).at(t).observe(moon).apparent().altaz()],
    as (altitude, azimuth) in degrees *)
Variable moon_altaz : Q -> Q -> Q -> outcome (Q * Q).

(** One probe: the moon's altitude at [hour:minute:00] UTC on the date of
    [dt_utc]. *)
Definition moon_probe (lat lon : Q) (dt_utc : datetime) (p : Z * Z)
  : outcome (datetime * Q) :=
  let check_time :=
    mk_datetime (year dt_utc) (month dt_utc) (day dt_utc) (fst p) (snd p) 0 0 in
  t ← ts_from_datetime eph check_time;
  altaz ← moon_altaz lat lon t;
  Ok (check_time, fst altaz).

(** One round of the nested loops on [(best_time, best_alt)]. *)
Definition moon_transit_step (lat lon : Q) (dt_utc : datetime)
    (st : outcome (option datetime * Q)) (p : Z * Z)
  : outcome (option datetime * Q) :=
  st ← st;
  let '(best_time, best_alt) := st in
  probe ← moon_probe lat lon dt_utc p;
  let '(check_time, alt) := probe in
  if Qlt_bool best_alt alt then Ok (Some check_time, alt)
  else Ok (best_time, best_alt).

(** [calculate_moon_transit_de421(lat, lon, dt_local)] for a naive
    [dt_local]. *)
Definition calculate_moon_transit_de421 (lat lon : Q) (dt_local : datetime)
  : string * option Q :=
  if negb (ephemeris_loaded eph) then ("未加载"%string, None)
  else
    match (dt_naive ← local_to_utc utc_offset dt_local;
           let dt_utc :=
             mk_datetime (year dt_naive) (month dt_naive) (day dt_naive)
               (hour dt_naive) (minute dt_naive) (second dt_naive) 0 in
           st ← fold_left (moon_transit_step lat lon dt_utc) TRANSIT_PROBES
                  (Ok (None, (-90)%Q));
           match fst st with
           | Some best_time =>
               local_time ← add_micros best_time (utc_offset * US_PER_SECOND);
               Ok (strftime_HM local_time, Some (snd st))
           | None => Ok ("—"%string, None)
           end) with
    | Ok r => r
    | Raise _ => ("计算错误"%string, None)
    end.

End MoonTransit.

(* ---- notions for the further properties ---- *)

(** The four altitude thresholds and the five stage names, darkest first. *)
Definition STAGE_THRESHOLDS : list Q := [(-18)%Q; (-12)%Q; (-6)%Q; 0%Q].

Definition STAGE_NAMES : list string :=
  ["夜间"; "天文拂晓/暮光"; "航海拂晓/暮光"; "民用拂晓/暮光"; "白天"]%string.

(** How many thresholds lie strictly below the altitude. *)
Definition thresholds_below (alt_deg : Q) : nat :=
  length (List.filter (fun t => Qlt_bool t alt_deg) STAGE_THRESHOLDS).

(** The 60-year cycle position of a year. *)
Definition cycle_position (year : Z) : Z := (year - 4) mod 60.

(** A moon whose altitude in degrees is the hour of the UTC day, falling
    again after 15:00. *)
Definition toy_moon_altaz (lat lon t : Q) : outcome (Q * Q) :=
  let h := ((t - inject_Z (Qfloor t)) * 24)%Q in
  Ok (Qred (if Qle_bool h 15 then h else (30 - h)%Q), 180%Q).

(** The same moon, out of reach of the ephemeris in the last hour of the
    UTC day. *)
Definition patchy_moon_altaz (lat lon t : Q) : outcome (Q * Q) :=
  if Qle_bool (23 / 24) (t - inject_Z (Qfloor t)) then Raise OtherError
  else toy_moon_altaz lat lon t.

(** The names of the days 1 to 30 of a lunar month. *)
Definition DAY_NAMES : list string :=
  ["初一"; "初二"; "初三"; "初四"; "初五"; "初六"; "初七"; "初八"; "初九";
   "初十"; "十一"; "十二"; "十三"; "十四"; "十五"; "十六"; "十七"; "十八";
   "十九"; "二十"; "二十一"; "二十二"; "二十三"; "二十四"; "二十五";
   "二十六"; "二十七"; "二十八"; "二十九"; "三十"]%string.

(** The sixty names of the cycle, from the position of year 4 on. *)
Definition CYCLE_NAMES : list string :=
  flat_map
    (fun c =>
       match TIANGAN !! Z.to_nat (c mod 10), DIZHI !! Z.to_nat (c mod 12),
             SHENGXIAO !! Z.to_nat (c mod 12) with
       | Some tg, Some dz, Some sx =>
           [(tg +:+ dz +:+ "年(" +:+ sx +:+ "年)")%string]
       | _, _, _ => []
       end) (seqZ 0 60).

(* ================================================================== *)
(** ** RiseSetTransitFinder: [calculate_moon_events_de421]              *)
(* ================================================================== *)

(** The eight-tuple returned by [calculate_moon_events_de421]. *)
Record moon_events : Type := mk_moon_events {
  moonrise_str : string;
  moonset_str : string;
  transit_time : string;
  transit_alt : option Q;
  me_next_rise_dt : option datetime;
  me_next_rise_az : option Q;
  me_next_set_dt : option datetime;
  me_next_set_az : option Q
}.

(** The locals filled by the loop over the detected events. *)
Record moon_acc : Type := mk_moon_acc {
  acc_moonrise_str : option string;
  acc_moonset_str : option string;
  acc_moonrise_dt : option datetime;
  acc_moonrise_az : option Q;
  acc_moonset_dt : option datetime;
  acc_moonset_az : option Q
}.

Section MoonEvents.

Variable eph : Ephemeris.
Variable utc_offset : Z.
(** The moon's altitude and azimuth, as for the transit. *)
Variable moon_altaz : Q -> Q -> Q -> outcome (Q * Q).
(** [find_discrete(t0, t1, risings_and_settings(ephemeris, moon, topos))],
    zipped: the instants with their event codes (1 is a rising) *)
Variable moon_risings_settings : Q -> Q -> Q -> Q -> outcome (list (Q * Z)).

(** One round of [for t, ev in zip(times, events)]. *)
Definition moon_event_step (lat lon : Q) (acc : outcome moon_acc)
    (tev : Q * Z) : outcome moon_acc :=
  acc ← acc;
  let '(t, ev) := tev in
  altaz ← moon_altaz lat lon t;
  let az_deg := snd altaz in
  dt ← utc_datetime eph t;
  ev_local ← _to_local utc_offset dt;
  let text :=
    (strftime_HMS ev_local +:+ " 方位" +:+ _format_az_deg (Some az_deg))%string in
  if ev =? 1 then
    match acc_moonrise_str acc with
    | None =>
        Ok (mk_moon_acc (Some text) (acc_moonset_str acc)
              (Some ev_local) (Some az_deg)
              (acc_moonset_dt acc) (acc_moonset_az acc))
    | Some _ => Ok acc
    end
  else
    match acc_moonset_str acc with
    | None =>
        Ok (mk_moon_acc (acc_moonrise_str acc) (Some text)
              (acc_moonrise_dt acc) (acc_moonrise_az acc)
              (Some ev_local) (Some az_deg))
    | Some _ => Ok acc
    end.

(** [calculate_moon_events_de421(lat, lon, dt_local)] for a naive
    [dt_local]. *)
Definition calculate_moon_events_de421 (lat lon : Q) (dt_local : datetime)
  : moon_events :=
  if negb (ephemeris_loaded eph) then
    mk_moon_events "未加载" "未加载" "未加载" None None None None None
  else
    match (let '(t0_local, t1_local) := _today_local dt_local in
           t0_utc ← local_to_utc utc_offset t0_local;
           t1_utc ← local_to_utc utc_offset t1_local;
           t0 ← ts_from_datetime eph t0_utc;
           t1 ← ts_from_datetime eph t1_utc;
           found ← moon_risings_settings lat lon t0 t1;
           acc ← fold_left (moon_event_step lat lon) found
                   (Ok (mk_moon_acc None None None None None None));
           let moonrise_str := default "不出"%string (acc_moonrise_str acc) in
           let moonset_str := default "不落"%string (acc_moonset_str acc) in
           let '(transit_time, transit_alt) :=
             calculate_moon_transit_de421 eph utc_offset moon_altaz
               lat lon dt_local in
           Ok (mk_moon_events moonrise_str moonset_str transit_time transit_alt
                 (acc_moonrise_dt acc) (acc_moonrise_az acc)
                 (acc_moonset_dt acc) (acc_moonset_az acc))) with
    | Ok r => r
    | Raise _ =>
        mk_moon_events "计算错误" "计算错误" "计算错误" None None None None None
    end.

(** The search of [calculate_moon_events_de421]: the local day window
    turned into Skyfield times, and the risings and settings found in it. *)
Definition moon_events_found (lat lon : Q) (dt_local : datetime)
  : outcome (list (Q * Z)) :=
  let '(t0_local, t1_local) := _today_local dt_local in
  t0_utc ← local_to_utc utc_offset t0_local;
  t1_utc ← local_to_utc utc_offset t1_local;
  t0 ← ts_from_datetime eph t0_utc;
  t1 ← ts_from_datetime eph t1_utc;
  moon_risings_settings lat lon t0 t1.

(** What the loop computes for one detected event: the text shown, the
    local time and the azimuth. *)
Definition moon_event_report (lat lon : Q) (tev : Q * Z)
  : outcome (string * datetime * Q) :=
  altaz ← moon_altaz lat lon (fst tev);
  dt ← utc_datetime eph (fst tev);
  ev_local ← _to_local utc_offset dt;
  Ok ((strftime_HMS ev_local +:+ " 方位"
       +:+ _format_az_deg (Some (snd altaz)))%string, ev_local, snd altaz).

Definition moon_report_of (lat lon : Q) (tev : Q * Z)
  : option (string * datetime * Q) :=
  match moon_event_report lat lon tev with
  | Ok r => Some r
  | Raise _ => None
  end.

End MoonEvents.

(** The loop's locals holding the reports of a rise and a set. *)
Definition moon_acc_of (rise set : option (string * datetime * Q)) : moon_acc :=
  mk_moon_acc (fst ∘ fst <$> rise) (fst ∘ fst <$> set)
    (snd ∘ fst <$> rise) (snd <$> rise) (snd ∘ fst <$> set) (snd <$> set).

(** The eight-tuple built from the reports of the rise and of the set and
    from the transit. *)
Definition moon_events_of (rise set : option (string * datetime * Q))
    (transit : string * option Q) : moon_events :=
  mk_moon_events
    (default "不出"%string (fst ∘ fst <$> rise))
    (default "不落"%string (fst ∘ fst <$> set))
    (fst transit) (snd transit)
    (snd ∘ fst <$> rise) (snd <$> rise)
    (snd ∘ fst <$> set) (snd <$> set).

(** A moon search that finds a single setting, a quarter of a day into
    the window, and one that finds nothing. *)
Definition toy_moon_settings (lat lon t0 t1 : Q) : outcome (list (Q * Z)) :=
  Ok [((t0 + 1 / 4)%Q, 0)].

Definition toy_moon_nothing (lat lon t0 t1 : Q) : outcome (list (Q * Z)) :=
  Ok [].

(* ================================================================== *)
(** * Part II: properties                                               *)
(* ================================================================== *)

Example split_example :
  split ","%char "$GPRMC,1,A" = ["$GPRMC"; "1"; "A"]%string.
Proof. reflexivity. Qed.

Example zfill_example : zfill 3 7 = "007"%string /\ zfill 2 59 = "59"%string /\ zfill 2 0 = "00"%string.
Proof. repeat split; reflexivity. Qed.

Example ord_roundtrip_example :
  ord2ymd (ymd2ord 2024 2 29) = (2024, 2, 29) /\ ymd2ord 1 1 1 = 1
  /\ ymd2ord 9999 12 31 = MAXORDINAL /\ ord2ymd 738946 = (2024, 3, 1).
Proof. repeat split; vm_compute; reflexivity. Qed.

(** The two calendar conversions agree on every day the scan for 2024
    visits, from 2023-12-01 to 2025-02-01. *)
Example ord_roundtrip_scan_window :
  forallb (fun n => let '(y, m, d) := ord2ymd n in ymd2ord y m d =? n)
    (seqZ (ymd2ord 2023 12 1) (ymd2ord 2025 2 1 - ymd2ord 2023 12 1))
  = true.
Proof. vm_compute. reflexivity. Qed.

Example of_micros_example :
  of_micros (to_micros (mk_datetime 2024 12 31 23 59 59 999999) + 1)
  = Ok (mk_datetime 2025 1 1 0 0 0 0)
  /\ strftime_Ymd_HMS (mk_datetime 2024 3 5 6 7 8 900000)
     = "2024-03-05 06:07:08"%string
  /\ _format_az_deg (Some (905 # 10)%Q) = "090°"%string
  /\ _format_az_deg (Some (3596 # 10)%Q) = "000°"%string.
Proof. repeat split; vm_compute; reflexivity. Qed.

(** ** TelemetryIngestor *)

Lemma py_index_Ok {A : Type} (l : list A) (i : nat) (a : A) :
  py_index l i = Ok a <-> l !! i = Some a.
Proof.
  unfold py_index. destruct (l !! i); split; intros H; congruence.
Qed.

Lemma bind_Ok {A B : Type} (c : outcome A) (k : A -> outcome B) (b : B) :
  (c ≫= k) = Ok b -> exists a, c = Ok a /\ k a = Ok b.
Proof.
  destruct c as [a|e]; simpl; intros H; [eauto | discriminate].
Qed.

Section TelemetryFacts.

Variable float : string -> outcome pyfloat.

(** Whatever the parser accepts went through every test of the body. *)
Lemma parse_fields_accepts (parts : list string) (fx : gps_fix) :
  parse_fields float parts = Ok (Some fx) ->
  parts !! 0%nat = Some "$GPRMC"%string
  /\ parts !! 2%nat = Some "A"%string
  /\ (exists f3 f5 f7 f8 lat_raw lon_raw lat_deg lon_deg,
        parts !! 3%nat = Some f3 /\ float f3 = Ok lat_raw
        /\ parts !! 5%nat = Some f5 /\ float f5 = Ok lon_raw
        /\ parts !! 7%nat = Some f7 /\ float f7 = Ok (speed fx)
        /\ parts !! 8%nat = Some f8 /\ float f8 = Ok (course fx)
        /\ py_int (fdiv_const lat_raw 100) = Ok lat_deg
        /\ py_int (fdiv_const lon_raw 100) = Ok lon_deg).
Proof.
  unfold parse_fields. intros H.
  apply bind_Ok in H as (tag & Htag & H).
  destruct (String.eqb tag "$GPRMC") eqn:Etag; simpl in H; [|discriminate].
  apply String.eqb_eq in Etag. subst tag.
  apply bind_Ok in H as (status & Hst & H).
  destruct (String.eqb status "A") eqn:Est; simpl in H; [|discriminate].
  apply String.eqb_eq in Est. subst status.
  apply bind_Ok in H as (f3 & H3 & H).
  apply bind_Ok in H as (lat_raw & Hlat & H).
  apply bind_Ok in H as (lat_dir & H4 & H).
  apply bind_Ok in H as (f5 & H5 & H).
  apply bind_Ok in H as (lon_raw & Hlon & H).
  apply bind_Ok in H as (lon_dir & H6 & H).
  apply bind_Ok in H as (lat_deg & Hlatd & H).
  apply bind_Ok in H as (lon_deg & Hlond & H).
  apply bind_Ok in H as (f7 & H7 & H).
  apply bind_Ok in H as (sp & Hsp & H).
  apply bind_Ok in H as (f8 & H8 & H).
  apply bind_Ok in H as (co & Hco & H).
  injection H as <-. simpl.
  rewrite py_index_Ok in *.
  repeat split; try assumption.
  exists f3, f5, f7, f8, lat_raw, lon_raw, lat_deg, lon_deg. tauto.
Qed.

(** The wrapper turns every exception of the body into [None]. *)
Lemma parse_gprmc_cases (line : string) :
  parse_gprmc float line = Ok None
  \/ exists fx, parse_gprmc float line = Ok (Some fx)
                /\ parse_fields float (split ","%char line) = Ok (Some fx).
Proof.
  unfold parse_gprmc, try_except.
  destruct (parse_fields float (split ","%char line)) as [[fx|]|e]; eauto.
Qed.

(** A line with the tag, the active flag and finite coordinates is decoded,
    whatever the magnitudes. *)
Lemma parse_fields_decodes (t f3 lat_dir f5 lon_dir f7 f8 : string)
    (trailing : list string) (lat_raw lon_raw : Q) (spd crs : pyfloat) :
  float f3 = Ok (Fin lat_raw) -> float f5 = Ok (Fin lon_raw) ->
  float f7 = Ok spd -> float f8 = Ok crs ->
  parse_fields float
    (["$GPRMC"%string; t; "A"%string; f3; lat_dir; f5; lon_dir; f7; f8] ++ trailing)
  = Ok (Some (mk_fix (Fin (decode_dm lat_raw (String.eqb lat_dir "S")))
                     (Fin (decode_dm lon_raw (String.eqb lon_dir "W")))
                     spd crs)).
Proof.
  intros H3 H5 H7 H8. unfold parse_fields, py_index. simpl.
  rewrite H3. simpl. rewrite H5. simpl. rewrite H7. simpl. rewrite H8. simpl.
  unfold decode_dm.
  destruct (String.eqb lat_dir "S"), (String.eqb lon_dir "W"); reflexivity.
Qed.

End TelemetryFacts.

(** C8: for every input line, and whatever the builtin [float] does,
    [parse_gprmc] returns without raising; it returns [None] whenever the
    first field is not the tag [$GPRMC], whenever the fix-validity field is
    not [A], and whenever one of the four numeric fields (latitude, longitude,
    speed, course) is missing or rejected by [float]. *)
Theorem parse_gprmc_rejects_without_raising :
  forall (float : string -> outcome pyfloat) (line : string),
    (exists r, parse_gprmc float line = Ok r)
    /\ (split ","%char line !! 0%nat <> Some "$GPRMC"%string ->
        parse_gprmc float line = Ok None)
    /\ (split ","%char line !! 2%nat <> Some "A"%string ->
        parse_gprmc float line = Ok None)
    /\ (forall i : nat,
          i ∈ [3; 5; 7; 8]%nat ->
          (forall s, split ","%char line !! i = Some s ->
                     exists e, float s = Raise e) ->
          parse_gprmc float line = Ok None).
Proof.
  intros float line.
  destruct (parse_gprmc_cases float line) as [Hn | (fx & Hs & Hf)].
  - rewrite Hn. repeat split; eauto.
  - apply parse_fields_accepts in Hf
      as (H0 & H2 & f3 & f5 & f7 & f8 & lat_raw & lon_raw & lat_deg & lon_deg
          & H3 & F3 & H5 & F5 & H7 & F7 & H8 & F8 & _).
    split; [eauto|].
    split; [intros Hne; contradiction|].
    split; [intros Hne; contradiction|].
    intros i Hi Hfail. exfalso.
    assert (Hcases : i = 3%nat \/ i = 5%nat \/ i = 7%nat \/ i = 8%nat).
    { rewrite !elem_of_cons in Hi. rewrite elem_of_nil in Hi. tauto. }
    destruct Hcases as [-> | [-> | [-> | ->]]].
    + destruct (Hfail _ H3) as [e He]. congruence.
    + destruct (Hfail _ H5) as [e He]. congruence.
    + destruct (Hfail _ H7) as [e He]. congruence.
    + destruct (Hfail _ H8) as [e He]. congruence.
Qed.

Lemma Qle_by_bool (x y : Q) : Qle_bool x y = true -> (x <= y)%Q.
Proof. apply Qle_bool_iff. Qed.

Lemma Qlt_by_bool (x y : Q) : Qlt_bool x y = true -> (x < y)%Q.
Proof.
  unfold Qlt_bool. intros H. apply Qnot_le_lt. intros Hle.
  apply Qle_bool_iff in Hle. rewrite Hle in H. discriminate.
Qed.

Lemma Qlt_bool_iff (x y : Q) : Qlt_bool x y = true <-> (x < y)%Q.
Proof.
  split; [apply Qlt_by_bool|].
  intros H. unfold Qlt_bool. destruct (Qle_bool y x) eqn:E; [|reflexivity].
  apply Qle_bool_iff in E. exfalso. apply (Qlt_not_le _ _ H E).
Qed.

Lemma Qlt_bool_false (x y : Q) : Qlt_bool x y = false <-> (y <= x)%Q.
Proof.
  unfold Qlt_bool. rewrite negb_false_iff. apply Qle_bool_iff.
Qed.

(** C9 (as amended): a line whose fields are status [A], latitude
    [3723.2475] N, longitude [12158.3416] W, speed [10.0] and course [090.0],
    whatever its time field and trailing fields, is decoded to latitude
    37 + 23.2475/60 = 37.38745833..., which is 37.3875 to four decimals,
    longitude -(121 + 58.3416/60), which is -121.9724 to four decimals, speed
    10 and course 90: degrees are the integer part of raw/100, minutes are
    raw mod 100, the value is degrees + minutes/60, negated for S and W. *)
Theorem parse_gprmc_example_fix :
  forall (line time_field : string) (trailing : list string),
    split ","%char line
    = ["$GPRMC"; time_field; "A"; "3723.2475"; "N"; "12158.3416"; "W";
       "10.0"; "090.0"]%string ++ trailing ->
    exists lat lon spd crs : Q,
      parse_gprmc float_of_decimal line
      = Ok (Some (mk_fix (Fin lat) (Fin lon) (Fin spd) (Fin crs)))
      /\ (lat == 37 + 23.2475 / 60)%Q
      /\ (lon == - (121 + 58.3416 / 60))%Q
      /\ (lat == decode_dm 3723.2475 false)%Q
      /\ (lon == decode_dm 12158.3416 true)%Q
      /\ (Qabs (lat - 37.3875) <= 0.00005)%Q
      /\ (Qabs (lon - - 121.9724) <= 0.00005)%Q
      /\ (spd == 10)%Q /\ (crs == 90)%Q.
Proof.
  intros line time_field trailing Hsplit.
  unfold parse_gprmc. rewrite Hsplit.
  erewrite (parse_fields_decodes float_of_decimal) by (vm_compute; reflexivity).
  simpl try_except.
  eexists _, _, _, _. split; [reflexivity|].
  repeat split; try (vm_compute; reflexivity);
    apply Qle_by_bool; vm_compute; reflexivity.
Qed.

Lemma parse_gprmc_example_fix_witness :
  exists lat lon spd crs : Q,
    parse_gprmc float_of_decimal
      "$GPRMC,123519,A,3723.2475,N,12158.3416,W,10.0,090.0,230394,003.1,W*6A"
    = Ok (Some (mk_fix (Fin lat) (Fin lon) (Fin spd) (Fin crs)))
    /\ (lat == 37 + 23.2475 / 60)%Q
    /\ (lon == - (121 + 58.3416 / 60))%Q
    /\ (lat == decode_dm 3723.2475 false)%Q
    /\ (lon == decode_dm 12158.3416 true)%Q
    /\ (Qabs (lat - 37.3875) <= 0.00005)%Q
    /\ (Qabs (lon - - 121.9724) <= 0.00005)%Q
    /\ (spd == 10)%Q /\ (crs == 90)%Q.
Proof.
  apply (parse_gprmc_example_fix _ "123519" ["230394"; "003.1"; "W*6A"]%string).
  vm_compute. reflexivity.
Defined.

(** C9 as stated fails in its fourth decimal: the decoded latitude is more
    than 0.00015 away from 37.3873 (the longitude does round to
    -121.9724). *)
Lemma parse_gprmc_latitude_is_not_37_3873 :
  exists (lat : Q) (lon spd crs : pyfloat),
    parse_gprmc float_of_decimal
      "$GPRMC,123519,A,3723.2475,N,12158.3416,W,10.0,090.0,230394,003.1,W*6A"
    = Ok (Some (mk_fix (Fin lat) lon spd crs))
    /\ (0.00015 < Qabs (lat - 37.3873))%Q
    /\ ~ (Qabs (lat - 37.3873) <= 0.00005)%Q.
Proof.
  eexists _, _, _, _. split; [vm_compute; reflexivity|].
  split.
  - apply Qlt_by_bool. vm_compute. reflexivity.
  - intros H. apply Qle_bool_iff in H. vm_compute in H. discriminate.
Qed.

(** C10: the parser validates no range.  The line below has the tag, status
    [A] and numeric fields whose minutes parts are 99.9999; it is accepted,
    with a latitude above 90 degrees and a longitude above 180 degrees. *)
Theorem parse_gprmc_accepts_out_of_range :
  exists lat lon spd crs : Q,
    parse_gprmc float_of_decimal
      "$GPRMC,000000,A,8999.9999,N,18099.9999,E,0.0,0.0"
    = Ok (Some (mk_fix (Fin lat) (Fin lon) (Fin spd) (Fin crs)))
    /\ (lat == 89 + 99.9999 / 60)%Q /\ (90 < Qabs lat)%Q
    /\ (lon == 180 + 99.9999 / 60)%Q /\ (180 < Qabs lon)%Q.
Proof.
  eexists _, _, _, _. split; [vm_compute; reflexivity|].
  repeat split; try (vm_compute; reflexivity);
    apply Qlt_by_bool; vm_compute; reflexivity.
Qed.

(** ** Python's float modulo on exact rationals *)

Lemma py_fmod_range (x m : Q) :
  (0 < m)%Q -> (0 <= py_fmod x m)%Q /\ (py_fmod x m < m)%Q.
Proof.
  intros Hm. unfold py_fmod.
  pose proof (Qfloor_le (x / m)) as Hlo.
  pose proof (Qlt_floor (x / m)) as Hhi.
  rewrite inject_Z_plus in Hhi.
  set (f := inject_Z (Qfloor (x / m))) in *.
  assert (Hx : (x == m * (x / m))%Q) by (field; lra).
  split.
  - assert (m * f <= m * (x / m))%Q by (apply Qmult_le_l; assumption). lra.
  - assert (m * (x / m) < m * (f + inject_Z 1))%Q by (apply Qmult_lt_l; assumption).
    change (inject_Z 1) with 1%Q in *. lra.
Qed.

(** ** SmoothingFilter *)

Lemma within_window_iff (now : Q) (s : Q * Q) :
  within_window now s = true <-> (now - fst s <= SMOOTH_WINDOW)%Q.
Proof.
  unfold within_window. rewrite negb_true_iff. apply Qlt_bool_false.
Qed.

Lemma chronological_app (h1 h2 : history) :
  chronological (h1 ++ h2) ->
  chronological h1 /\ chronological h2
  /\ Forall (fun a => Forall (fun b => (fst a <= fst b)%Q) h2) h1.
Proof.
  induction h1 as [|s h1 IH]; simpl.
  - intros H. repeat split; [assumption | constructor].
  - intros [Hall Hrest]. apply Forall_app in Hall as [Ha1 Ha2].
    destruct (IH Hrest) as (H1 & H2 & H12).
    repeat split; try assumption. constructor; assumption.
Qed.

Lemma chronological_snoc (h : history) (s : Q * Q) :
  chronological h -> Forall (fun a => (fst a <= fst s)%Q) h ->
  chronological (h ++ [s]).
Proof.
  induction h as [|a h IH]; simpl.
  - intros _ _. split; [constructor | exact I].
  - intros [Hall Hrest] Hle.
    apply Forall_cons in Hle as [Has Hle]. split.
    + apply Forall_app. split; [assumption | repeat constructor; assumption].
    + apply IH; assumption.
Qed.

Lemma chronological_filter (f : Q * Q -> bool) (h : history) :
  chronological h -> chronological (List.filter f h).
Proof.
  induction h as [|s h IH]; simpl; [trivial|].
  intros [Hall Hrest]. destruct (f s); simpl; [|auto].
  split; [|auto].
  rewrite Forall_forall in Hall |- *. intros x Hx.
  apply Hall. apply list_elem_of_In in Hx. apply filter_In in Hx as [Hx _].
  apply list_elem_of_In. exact Hx.
Qed.

(** On a chronological deque the loop drops exactly the stale entries. *)
Lemma evict_filter (now : Q) (h : history) :
  chronological h -> evict now h = List.filter (within_window now) h.
Proof.
  induction h as [|[t v] h IH]; simpl; [reflexivity|].
  intros [Hall Hrest]. unfold within_window at 1. simpl.
  destruct (Qlt_bool SMOOTH_WINDOW (now - t)) eqn:E; simpl.
  - apply IH, Hrest.
  - f_equal. symmetry. apply forallb_filter_id.
    apply forallb_forall. intros s Hs.
    apply Qlt_bool_false in E. apply within_window_iff.
    rewrite Forall_forall in Hall.
    apply list_elem_of_In in Hs. specialize (Hall s Hs). simpl in Hall. lra.
Qed.

Lemma filter_filter_weaker {A : Type} (f g : A -> bool) (l : list A) :
  (forall x, In x l -> f x = true -> g x = true) ->
  List.filter f (List.filter g l) = List.filter f l.
Proof.
  induction l as [|a l IH]; simpl; [reflexivity|].
  intros H. destruct (g a) eqn:Eg; simpl.
  - destruct (f a); [f_equal|]; apply IH; intros; apply H; auto.
  - destruct (f a) eqn:Ef.
    + rewrite (H a (or_introl eq_refl) Ef) in Eg. discriminate.
    + apply IH. intros; apply H; auto.
Qed.

Lemma add_samples_snoc (h : history) (l : list (Q * Q)) (s : Q * Q) :
  add_samples h (l ++ [s]) = add_sample (fst s) (add_samples h l) (snd s).
Proof. unfold add_samples. rewrite fold_left_app. reflexivity. Qed.

(** Fed chronologically from the empty deque, a channel holds exactly the
    samples within the window of the newest one. *)
Lemma add_samples_filter (l : list (Q * Q)) (t v : Q) :
  chronological (l ++ [(t, v)]) ->
  add_samples [] (l ++ [(t, v)])
  = List.filter (within_window t) (l ++ [(t, v)]).
Proof.
  revert t v. induction l as [|[t' v'] l IH] using rev_ind; intros t v Hc.
  - simpl. unfold add_sample. simpl. unfold within_window. simpl.
    assert (E : Qlt_bool SMOOTH_WINDOW (t - t) = false).
    { apply Qlt_bool_false. unfold SMOOTH_WINDOW. lra. }
    rewrite E. reflexivity.
  - rewrite add_samples_snoc. simpl fst. simpl snd.
    destruct (chronological_app _ _ Hc) as (Hprefix & _ & Hle).
    rewrite (IH _ _ Hprefix). unfold add_sample.
    set (older := l ++ [(t', v')]) in *.
    rewrite evict_filter.
    + rewrite (List.filter_app _ (List.filter _ older)).
      rewrite (List.filter_app _ older). f_equal.
      apply filter_filter_weaker.
      intros s Hs Hk. apply within_window_iff in Hk. apply within_window_iff.
      rewrite Forall_forall in Hle.
      assert (Hlast : (t' <= t)%Q).
      { specialize (Hle (t', v')).
        assert (Hin : (t', v') ∈ older).
        { apply elem_of_app. right. apply list_elem_of_singleton. reflexivity. }
        specialize (Hle Hin). apply Forall_inv in Hle. exact Hle. }
      lra.
    + apply chronological_snoc.
      * apply chronological_filter, Hprefix.
      * rewrite Forall_forall. intros s Hs.
        apply list_elem_of_In in Hs. apply filter_In in Hs as [Hs _].
        apply list_elem_of_In in Hs.
        rewrite Forall_forall in Hle. specialize (Hle s Hs).
        apply Forall_inv in Hle. exact Hle.
Qed.

(** C7 (as amended): for a channel fed from the empty deque with timestamps
    that never decrease, after every insertion the deque holds exactly the
    inserted samples that are not older than the 20 second window relative
    to the newest timestamp [t]: no retained entry is older than the window,
    every inserted sample with timestamp below [t - 20] is gone, the newest
    sample is retained, and [average] is the sum of the retained values
    divided by their number (and 0 on the empty deque). *)
Theorem smoothing_window_invariant :
  forall (samples : list (Q * Q)) (t v : Q),
    chronological (samples ++ [(t, v)]) ->
    let h := add_samples [] (samples ++ [(t, v)]) in
    h = List.filter (within_window t) (samples ++ [(t, v)])
    /\ Forall (fun s => (t - fst s <= SMOOTH_WINDOW)%Q) h
    /\ (forall s, In s (samples ++ [(t, v)]) ->
                  (fst s < t - SMOOTH_WINDOW)%Q -> ~ In s h)
    /\ In (t, v) h
    /\ (average h == sum_values h / inject_Z (Z.of_nat (length h)))%Q
    /\ (average [] == 0)%Q.
Proof.
  intros samples t v Hc h.
  assert (Hh : h = List.filter (within_window t) (samples ++ [(t, v)])).
  { apply add_samples_filter, Hc. }
  assert (Hnew : In (t, v) h).
  { rewrite Hh. apply filter_In. split.
    - apply in_or_app. right. left. reflexivity.
    - apply within_window_iff. simpl. unfold SMOOTH_WINDOW. lra. }
  split; [exact Hh|]. split; [|split; [|split; [exact Hnew|split]]].
  - rewrite Hh. apply List.Forall_forall. intros s Hs.
    apply filter_In in Hs as [_ Hs]. apply within_window_iff, Hs.
  - intros s _ Hold Hin. rewrite Hh in Hin.
    apply filter_In in Hin as [_ Hin]. apply within_window_iff in Hin. lra.
  - destruct h as [|s h']; [destruct Hnew|]. reflexivity.
  - reflexivity.
Qed.

(** The scenario of the specification: samples at t = 0, 5, ..., 25; at
    t = 25 the sample of t = 0 no longer contributes. *)
Lemma smoothing_window_example :
  chronological
    ([(0, 10); (5, 11); (10, 12); (15, 13); (20, 14)] ++ [(25, 15)])%Q
  /\ let h := add_samples []
         ([(0, 10); (5, 11); (10, 12); (15, 13); (20, 14)] ++ [(25, 15)])%Q in
     h = List.filter (within_window 25)
           ([(0, 10); (5, 11); (10, 12); (15, 13); (20, 14)] ++ [(25, 15)])%Q
     /\ Forall (fun s => (25 - fst s <= SMOOTH_WINDOW)%Q) h
     /\ (forall s,
           In s ([(0, 10); (5, 11); (10, 12); (15, 13); (20, 14)] ++ [(25, 15)])%Q ->
           (fst s < 25 - SMOOTH_WINDOW)%Q -> ~ In s h)
     /\ In (25, 15)%Q h
     /\ (average h == sum_values h / inject_Z (Z.of_nat (length h)))%Q
     /\ (average [] == 0)%Q.
Proof.
  assert (Hc : chronological
    ([(0, 10); (5, 11); (10, 12); (15, 13); (20, 14)] ++ [(25, 15)])%Q).
  { simpl. repeat (split || constructor); simpl; apply Qle_by_bool; reflexivity. }
  split; [exact Hc|].
  exact (smoothing_window_invariant
           [(0, 10); (5, 11); (10, 12); (15, 13); (20, 14)]%Q 25 15 Hc).
Defined.

Example smoothing_example_values (v0 v1 v2 v3 v4 v5 : Q) :
  add_samples [] [(0, v0); (5, v1); (10, v2); (15, v3); (20, v4); (25, v5)]%Q
  = [(5, v1); (10, v2); (15, v3); (20, v4); (25, v5)]%Q
  /\ (average
        (add_samples []
           [(0, v0); (5, v1); (10, v2); (15, v3); (20, v4); (25, v5)]%Q)
      == (v1 + v2 + v3 + v4 + v5) / 5)%Q.
Proof.
  assert (E : add_samples []
                [(0, v0); (5, v1); (10, v2); (15, v3); (20, v4); (25, v5)]%Q
              = [(5, v1); (10, v2); (15, v3); (20, v4); (25, v5)]%Q)
    by reflexivity.
  split; [exact E|]. rewrite E. unfold average, sum_values. simpl. field.
Qed.

(** C7 as stated fails when the clock is set back between insertions
    ([time.time()] then returns a lower value than before): after clock
    readings 100, 50 and 75 nothing is evicted, and the sample of t = 50 stays
    although it is 25 seconds older than the newest one. *)
Lemma add_sample_clock_set_back :
  add_samples [] [(100, 1); (50, 2); (75, 3)]%Q
  = [(100, 1); (50, 2); (75, 3)]%Q
  /\ ~ Forall (fun s => (75 - fst s <= SMOOTH_WINDOW)%Q)
         (add_samples [] [(100, 1); (50, 2); (75, 3)]%Q).
Proof.
  assert (E : add_samples [] [(100, 1); (50, 2); (75, 3)]%Q
              = [(100, 1); (50, 2); (75, 3)]%Q) by reflexivity.
  split; [exact E|]. rewrite E. intros H.
  apply Forall_cons in H as [_ H]. apply Forall_cons in H as [H _].
  simpl in H. unfold SMOOTH_WINDOW in H. lra.
Qed.

(** ** MoonPhaseCalculator *)

Ltac split_ratio r :=
  repeat match goal with
    | |- context [Qlt_bool r ?c] =>
        let E := fresh "E" in
        destruct (Qlt_bool r c) eqn:E;
        [apply Qlt_bool_iff in E | apply Qlt_bool_false in E]
    end.

(** The [if/elif] chain realises the table. *)
Lemma phase_of_table (r : Q) (e : Q * Q * bucket) :
  In e spec_phase_table -> in_interval r e ->
  fst (fst (phase_of r)) = bucket_name (snd e).
Proof.
  unfold in_interval. intros He [Hlo Hhi]. simpl in He.
  unfold phase_of.
  repeat (destruct He as [<- | He]; [simpl in Hlo, Hhi; split_ratio r;
    first [reflexivity | exfalso; lra] |]).
  destruct He.
Qed.

(** The intervals cover [0, 1) and are pairwise disjoint. *)
Lemma spec_phase_table_partition (r : Q) :
  (0 <= r)%Q -> (r < 1)%Q ->
  exists e, In e spec_phase_table /\ in_interval r e
            /\ forall e', In e' spec_phase_table -> in_interval r e' -> e' = e.
Proof.
  intros H0 H1.
  assert (Hex : exists e, In e spec_phase_table /\ in_interval r e).
  { unfold in_interval, spec_phase_table.
    destruct (Qlt_le_dec r 0.0625); [eexists; split; [left; reflexivity | simpl; lra]|].
    destruct (Qlt_le_dec r 0.1875); [eexists; split; [right; left; reflexivity | simpl; lra]|].
    destruct (Qlt_le_dec r 0.3125); [eexists; split; [do 2 right; left; reflexivity | simpl; lra]|].
    destruct (Qlt_le_dec r 0.4375); [eexists; split; [do 3 right; left; reflexivity | simpl; lra]|].
    destruct (Qlt_le_dec r 0.5625); [eexists; split; [do 4 right; left; reflexivity | simpl; lra]|].
    destruct (Qlt_le_dec r 0.6875); [eexists; split; [do 5 right; left; reflexivity | simpl; lra]|].
    destruct (Qlt_le_dec r 0.8125); [eexists; split; [do 6 right; left; reflexivity | simpl; lra]|].
    destruct (Qlt_le_dec r 0.9375); [eexists; split; [do 7 right; left; reflexivity | simpl; lra]|].
    eexists; split; [do 8 right; left; reflexivity | simpl; lra]. }
  destruct Hex as (e & He & Hr). exists e.
  split; [exact He|]. split; [exact Hr|].
  intros e' He' Hr'. unfold in_interval in *. simpl in He, He'.
  destruct Hr as [Hlo Hhi], Hr' as [Hlo' Hhi'].
  repeat (destruct He as [<- | He];
    [ simpl in Hlo, Hhi;
      repeat (destruct He' as [<- | He'];
        [ simpl in Hlo', Hhi'; first [reflexivity | exfalso; lra] |]);
      destruct He' |]).
  destruct He.
Qed.

Lemma trend_of_cases (r : Q) :
  (trend_of r = "↑"%string <-> (r < 0.5)%Q)
  /\ (trend_of r = "↓"%string <-> (0.5 < r)%Q)
  /\ (trend_of r = "—"%string <-> (r == 0.5)%Q).
Proof.
  unfold trend_of.
  destruct (Qlt_bool r 0.5) eqn:E1;
    [apply Qlt_bool_iff in E1 | apply Qlt_bool_false in E1].
  - repeat split; intros H; try reflexivity; try discriminate; try assumption;
      exfalso; lra.
  - destruct (Qlt_bool 0.5 r) eqn:E2;
      [apply Qlt_bool_iff in E2 | apply Qlt_bool_false in E2].
    + repeat split; intros H; try reflexivity; try discriminate;
        try assumption; exfalso; lra.
    + repeat split; intros H; try reflexivity; try discriminate;
        try assumption; try (exfalso; lra); lra.
Qed.

(** C6: the ratio ((moon_lon - sun_lon) mod 360) / 360 is meant to lie in
    [0, 1) and in exactly one interval of the table.  The code misses this
    by a rounding: let Skyfield report the moon at longitude 100.0 and the
    sun at 100.00000000000001, the next float above 100.  The difference
    is -2^-46; [%] adds 360 to it and the sum rounds to 360.0, so the
    ratio is 1.0 and the progress 100.0 percent.  The ratio is not below 1
    and lies in no interval of the table; the chain's final [else] names
    the phase. *)
Lemma moon_phase_ratio_reaches_one :
  let sky := mk_moon_sky (1, 0, 0)%Q (1, 0, 0)%Q
               (binary64 100.00000000000001) 100 in
  let r := phase_ratio_of (sun_elon sky) (moon_elon sky) in
  let result :=
    calculate_moon_phase_de421 true (fun _ => Ok sky) no_libm
      (mk_datetime 2024 3 10 9 0 0 0) in
  (sun_elon sky == 100 + 1 / 2 ^ 46)%Q
  /\ (fsub (moon_elon sky) (sun_elon sky) == - (1 / 2 ^ 46))%Q
  /\ (float_mod (fsub (moon_elon sky) (sun_elon sky)) 360 == 360)%Q
  /\ (r == 1)%Q
  /\ ~ (r < 1)%Q
  /\ (forall e, In e spec_phase_table -> ~ in_interval r e)
  /\ (phase_percentage result == 100)%Q
  /\ phase_name result = "新月"%string
  /\ trend result = "↓"%string.
Proof.
  intros sky r result.
  assert (Hr : (r == 1)%Q) by (vm_compute; reflexivity).
  split; [vm_compute; reflexivity|]. split; [vm_compute; reflexivity|].
  split; [vm_compute; reflexivity|]. split; [exact Hr|].
  split; [rewrite Hr; intros H; apply (Qlt_irrefl 1 H)|].
  split.
  { intros e He [_ Hhi]. rewrite Hr in Hhi. simpl in He.
    repeat (destruct He as [<- | He];
            [simpl in Hhi; revert Hhi; apply Qle_not_lt;
             apply Qle_by_bool; vm_compute; reflexivity|]).
    destruct He. }
  split; [vm_compute; reflexivity|].
  split; vm_compute; reflexivity.
Qed.

Example quarter_sky_phase :
  phase_name (calculate_moon_phase_de421 true (fun _ => Ok quarter_sky) no_libm
                (mk_datetime 2024 3 17 12 0 0 0)) = "上弦月"%string
  /\ (phase_ratio_of 100 190 == 1 # 4)%Q
  /\ (phase_ratio_of 190 100 == 3 # 4)%Q.
Proof. repeat split; vm_compute; reflexivity. Qed.

(** ** SolarTermCalculator: the coarse scan *)

(** C3 (as amended): in the coarse scan, for a day pair with previous
    longitude above 350 and current longitude below 10, a target is flagged
    exactly when it is 0 or at least 345, so of the 24 targets exactly 345
    and 0 are flagged.  This rule is not the only treatment of the wrap: a
    pair it does not cover whose longitudes do not increase flags every
    target that is at least the previous or at most the current longitude;
    a pair it does not cover with increasing longitudes flags the targets
    lying between them. *)
Theorem crossed_wrap_rule :
  forall (prev_lon sun_lon : Q) (target_lon : Z),
    ((350 < prev_lon)%Q -> (sun_lon < 10)%Q ->
       (crossed prev_lon sun_lon target_lon = true
        <-> target_lon = 0 \/ 345 <= target_lon)
       /\ flagged_targets prev_lon sun_lon = [345; 0])
    /\ (~ ((350 < prev_lon)%Q /\ (sun_lon < 10)%Q) -> (prev_lon < sun_lon)%Q ->
        (crossed prev_lon sun_lon target_lon = true
         <-> (prev_lon <= inject_Z target_lon)%Q
             /\ (inject_Z target_lon <= sun_lon)%Q))
    /\ (~ ((350 < prev_lon)%Q /\ (sun_lon < 10)%Q) -> (sun_lon <= prev_lon)%Q ->
        (crossed prev_lon sun_lon target_lon = true
         <-> (prev_lon <= inject_Z target_lon)%Q
             \/ (inject_Z target_lon <= sun_lon)%Q)).
Proof.
  intros prev_lon sun_lon target_lon.
  split; [|split].
  - intros Hp Hs.
    assert (Hwrap : Qlt_bool 350 prev_lon && Qlt_bool sun_lon 10 = true).
    { apply andb_true_iff. split; apply Qlt_bool_iff; assumption. }
    split.
    + unfold crossed. rewrite Hwrap.
      rewrite orb_true_iff, Z.eqb_eq, Z.leb_le. reflexivity.
    + unfold flagged_targets, crossed. rewrite Hwrap. reflexivity.
  - intros Hn Hlt.
    assert (Hwrap : Qlt_bool 350 prev_lon && Qlt_bool sun_lon 10 = false).
    { apply andb_false_iff.
      destruct (Qlt_bool 350 prev_lon) eqn:E1; [|left; reflexivity].
      destruct (Qlt_bool sun_lon 10) eqn:E2; [|right; reflexivity].
      apply Qlt_bool_iff in E1, E2. tauto. }
    unfold crossed. rewrite Hwrap.
    apply Qlt_bool_iff in Hlt. rewrite Hlt.
    rewrite andb_true_iff, !Qle_bool_iff. reflexivity.
  - intros Hn Hle.
    assert (Hwrap : Qlt_bool 350 prev_lon && Qlt_bool sun_lon 10 = false).
    { apply andb_false_iff.
      destruct (Qlt_bool 350 prev_lon) eqn:E1; [|left; reflexivity].
      destruct (Qlt_bool sun_lon 10) eqn:E2; [|right; reflexivity].
      apply Qlt_bool_iff in E1, E2. tauto. }
    unfold crossed. rewrite Hwrap.
    apply Qlt_bool_false in Hle. rewrite Hle.
    rewrite orb_true_iff, !Qle_bool_iff. reflexivity.
Qed.

Lemma crossed_wrap_rule_witness :
  (350 < 359.5)%Q /\ (0.5 < 10)%Q
  /\ (crossed 359.5 0.5 345 = true <-> 345 = 0 \/ 345 <= 345)
  /\ flagged_targets 359.5 0.5 = [345; 0].
Proof.
  assert (Hp : (350 < 359.5)%Q) by (apply Qlt_by_bool; reflexivity).
  assert (Hs : (0.5 < 10)%Q) by (apply Qlt_by_bool; reflexivity).
  split; [exact Hp|]. split; [exact Hs|].
  exact (proj1 (crossed_wrap_rule 359.5 0.5 345) Hp Hs).
Defined.

(** C3 as stated fails in its last part: were the wrap rule the only
    special treatment, a pair outside it would flag only the targets lying
    between its two longitudes.  The pair (349, 5) is outside the rule, and
    the scan flags target 0 for it. *)
Lemma crossed_has_second_wrap_treatment :
  ~ (forall (prev_lon sun_lon : Q) (target_lon : Z),
       ~ ((350 < prev_lon)%Q /\ (sun_lon < 10)%Q) ->
       (crossed prev_lon sun_lon target_lon = true
        <-> (prev_lon <= inject_Z target_lon)%Q
            /\ (inject_Z target_lon <= sun_lon)%Q)).
Proof.
  intros H. specialize (H 349%Q 5%Q 0).
  assert (Hout : ~ ((350 < 349)%Q /\ (5 < 10)%Q)).
  { intros [Habs _]. apply Qlt_bool_iff in Habs. discriminate. }
  apply H in Hout. destruct Hout as [Hflag _].
  destruct (Hflag eq_refl) as [Habs _].
  apply Qle_bool_iff in Habs. discriminate.
Qed.

(** ** SolarTermCalculator: the year's list *)

Lemma lex_lt_irrefl (a : list Z) : lex_lt a a = false.
Proof.
  induction a as [|x a IH]; simpl; [reflexivity|].
  rewrite Z.ltb_irrefl, Z.eqb_refl, IH. reflexivity.
Qed.

Lemma lex_lt_trans (a b c : list Z) :
  lex_lt a b = true -> lex_lt b c = true -> lex_lt a c = true.
Proof.
  revert b c. induction a as [|x a IH]; intros [|y b] [|z c]; simpl;
    try discriminate; try reflexivity.
  rewrite !orb_true_iff, !andb_true_iff, !Z.ltb_lt, !Z.eqb_eq.
  intros [Hxy | [Hxy Hab]] [Hyz | [Hyz Hbc]].
  - left. lia.
  - left. lia.
  - left. lia.
  - right. split; [lia|]. eapply IH; eassumption.
Qed.

Lemma datetime_lt_le (a b : datetime) :
  datetime_lt a b = true -> datetime_le a b = true.
Proof.
  unfold datetime_le, datetime_lt. intros H.
  destruct (lex_lt (fields b) (fields a)) eqn:E; [|reflexivity].
  pose proof (lex_lt_trans _ _ _ H E) as Habs.
  rewrite lex_lt_irrefl in Habs. discriminate.
Qed.

Lemma datetime_lt_le_trans (a b c : datetime) :
  datetime_lt a b = true -> datetime_le b c = true -> datetime_le a c = true.
Proof.
  unfold datetime_le, datetime_lt. intros Hab Hbc.
  destruct (lex_lt (fields c) (fields a)) eqn:E; [|reflexivity].
  rewrite (lex_lt_trans _ _ _ E Hab) in Hbc. discriminate.
Qed.

Lemma insert_by_time_perm (x : string * datetime) (l : term_list) :
  Permutation (insert_by_time x l) (x :: l).
Proof.
  induction l as [|y l IH]; simpl; [reflexivity|].
  destruct (datetime_lt (snd x) (snd y)); [reflexivity|].
  rewrite IH. apply perm_swap.
Qed.

Lemma insert_by_time_sorted (x : string * datetime) (l : term_list) :
  sorted_by_time l -> sorted_by_time (insert_by_time x l).
Proof.
  induction l as [|y l IH]; simpl.
  - intros _. split; [constructor | exact I].
  - intros [Hall Hrest].
    destruct (datetime_lt (snd x) (snd y)) eqn:E; simpl.
    + split; [|split; assumption].
      constructor; [apply datetime_lt_le, E|].
      eapply List.Forall_impl; [|exact Hall].
      intros z Hz. eapply datetime_lt_le_trans; eassumption.
    + split; [|apply IH, Hrest].
      rewrite (insert_by_time_perm x l). constructor; [|exact Hall].
      unfold datetime_le. rewrite E. reflexivity.
Qed.

Lemma sort_by_time_spec_from (l acc : term_list) :
  sorted_by_time acc ->
  sorted_by_time (fold_left (fun a x => insert_by_time x a) l acc)
  /\ Permutation (fold_left (fun a x => insert_by_time x a) l acc) (l ++ acc).
Proof.
  revert acc. induction l as [|x l IH]; intros acc Hacc; simpl.
  - split; [exact Hacc | reflexivity].
  - destruct (IH (insert_by_time x acc) (insert_by_time_sorted x acc Hacc))
      as [Hs Hp].
    split; [exact Hs|]. rewrite Hp, insert_by_time_perm.
    symmetry. apply Permutation_middle.
Qed.

Lemma sort_by_time_spec (l : term_list) :
  sorted_by_time (sort_by_time l) /\ Permutation (sort_by_time l) l.
Proof.
  destruct (sort_by_time_spec_from l [] I) as [Hs Hp].
  split; [exact Hs|]. rewrite app_nil_r in Hp. exact Hp.
Qed.

Lemma well_formed_terms_perm (yr : Z) (l l' : term_list) :
  Permutation l l' -> well_formed_terms yr l -> well_formed_terms yr l'.
Proof.
  intros Hp (Hn & Hy & Hm). repeat split.
  - rewrite <- Hp. exact Hn.
  - rewrite <- Hp. exact Hy.
  - rewrite <- Hp. exact Hm.
Qed.

Lemma already_added_false (name : string) (acc : term_list) :
  already_added name acc = false -> ~ In name (map fst acc).
Proof.
  unfold already_added. induction acc as [|[n t] acc IH]; simpl; [tauto|].
  rewrite orb_false_iff. intros [Hn Hrest] [Heq | Hin].
  - subst n. rewrite String.eqb_refl in Hn. discriminate.
  - apply IH; assumption.
Qed.

Section SolarTermFacts.

Variable eph : Ephemeris.

Lemma check_target_well_formed (yr current : Z) (prev_lon sun_lon : Q)
    (acc : outcome term_list) (entry : Z * string) (acc' : term_list) :
  In entry SOLAR_TERM_LONGITUDES ->
  (forall a, acc = Ok a -> well_formed_terms yr a) ->
  check_target eph yr current prev_lon sun_lon acc entry = Ok acc' ->
  well_formed_terms yr acc'.
Proof.
  intros Hentry Hacc H. unfold check_target in H.
  apply bind_Ok in H as (a & -> & H). specialize (Hacc a eq_refl).
  destruct entry as [target_lon term_name].
  destruct (crossed prev_lon sun_lon target_lon); [|congruence].
  destruct (1 <=? current - 1); [|discriminate].
  destruct (ord2ymd (current - 1)) as [[sy sm] sd].
  destruct (find_solar_term_time eph sy sm sd target_lon) as [precise_time|];
    [|congruence].
  destruct (year precise_time =? yr) eqn:Ey; simpl in H; [|congruence].
  destruct (already_added term_name a) eqn:Eadd; simpl in H; [congruence|].
  injection H as <-. apply Z.eqb_eq in Ey.
  destruct Hacc as (Hn & Hy & Hm). repeat split.
  - rewrite map_app. simpl. apply NoDup_app. repeat split.
    + exact Hn.
    + intros x Hx Hx'. apply list_elem_of_singleton in Hx'. subst x.
      apply already_added_false in Eadd. apply Eadd.
      apply list_elem_of_In. exact Hx.
    + apply NoDup_singleton.
  - apply Forall_app. split; [exact Hy|]. constructor; [exact Ey | constructor].
  - apply Forall_app. split; [exact Hm|]. constructor; [|constructor].
    simpl. apply (in_map snd) in Hentry. exact Hentry.
Qed.

Lemma fold_check_target_well_formed (yr current : Z) (prev_lon sun_lon : Q)
    (entries : list (Z * string)) (acc : outcome term_list) (acc' : term_list) :
  (forall e, In e entries -> In e SOLAR_TERM_LONGITUDES) ->
  (forall a, acc = Ok a -> well_formed_terms yr a) ->
  fold_left (check_target eph yr current prev_lon sun_lon) entries acc = Ok acc' ->
  well_formed_terms yr acc'.
Proof.
  revert acc. induction entries as [|e entries IH]; intros acc Hsub Hacc H.
  - simpl in H. apply Hacc, H.
  - simpl in H. eapply IH; [| |exact H].
    + intros e' He'. apply Hsub. right. exact He'.
    + intros a Ha. eapply check_target_well_formed; [| exact Hacc | exact Ha].
      apply Hsub. left. reflexivity.
Qed.

Lemma scan_day_well_formed (yr current : Z) (prev_lon : option Q)
    (acc : term_list) (st : option Q * term_list) :
  well_formed_terms yr acc ->
  scan_day eph yr current prev_lon acc = Ok st ->
  well_formed_terms yr (snd st).
Proof.
  intros Hacc H. unfold scan_day in H.
  destruct (ord2ymd current) as [[cy cm] cd].
  destruct (ts_utc eph cy cm cd 12 0 0 ≫= _) as [sun_lon|e].
  - apply bind_Ok in H as (acc' & Hfold & H). injection H as <-. simpl.
    destruct prev_lon as [prev|].
    + eapply fold_check_target_well_formed; [| |exact Hfold].
      * auto.
      * intros a Ha. injection Ha as <-. exact Hacc.
    + injection Hfold as <-. exact Hacc.
  - destruct e; try discriminate. injection H as <-. exact Hacc.
Qed.

Lemma scan_well_formed (fuel : nat) (yr current end_date : Z)
    (prev_lon : option Q) (acc found : term_list) :
  well_formed_terms yr acc ->
  scan eph fuel yr current end_date prev_lon acc = Ok found ->
  well_formed_terms yr found.
Proof.
  revert current prev_lon acc.
  induction fuel as [|fuel IH]; intros current prev_lon acc Hacc H; simpl in H.
  - injection H as <-. exact Hacc.
  - destruct (current <? end_date).
    + apply bind_Ok in H as (st & Hday & H).
      eapply IH; [|exact H]. eapply scan_day_well_formed; eassumption.
    + injection H as <-. exact Hacc.
Qed.

(** The fuel of [calculate_solar_terms_body] is enough: with
    [end_date - current] rounds the loop stops on its own test, and more
    rounds change nothing. *)
Lemma scan_enough_fuel (fuel extra : nat) (yr current end_date : Z)
    (prev_lon : option Q) (acc : term_list) :
  end_date - current <= Z.of_nat fuel ->
  scan eph (fuel + extra) yr current end_date prev_lon acc
  = scan eph fuel yr current end_date prev_lon acc.
Proof.
  revert current prev_lon acc.
  induction fuel as [|fuel IH]; intros current prev_lon acc Hle.
  - simpl. destruct extra as [|extra]; simpl; [reflexivity|].
    destruct (current <? end_date) eqn:E; [|reflexivity].
    apply Z.ltb_lt in E. lia.
  - simpl. destruct (current <? end_date); [|reflexivity].
    destruct (scan_day eph yr current prev_lon acc) as [st|e]; simpl;
      [|reflexivity].
    apply IH. lia.
Qed.

End SolarTermFacts.

(** C4: for every target year and every ephemeris, the list returned by
    [calculate_solar_terms] is well-formed: no term name occurs twice (and
    each is one of the 24 names, so there are at most 24 entries), every
    recorded instant has the requested calendar year, and the list is
    sorted by instant. *)
Theorem calculate_solar_terms_well_formed :
  forall (eph : Ephemeris) (yr : Z),
    let terms := calculate_solar_terms eph yr in
    NoDup (map fst terms)
    /\ Forall (fun e => In (fst e) (map snd SOLAR_TERM_LONGITUDES)) terms
    /\ (length terms <= 24)%nat
    /\ Forall (fun e => year (snd e) = yr) terms
    /\ sorted_by_time terms.
Proof.
  intros eph yr terms.
  assert (Hwf : well_formed_terms yr terms /\ sorted_by_time terms).
  { unfold terms, calculate_solar_terms.
    assert (Hnil : well_formed_terms yr [] /\ sorted_by_time []).
    { repeat split; constructor. }
    destruct (negb (ts_loaded eph) || negb (ephemeris_loaded eph)); [exact Hnil|].
    destruct (calculate_solar_terms_body eph yr) as [l|e] eqn:Hbody; [|exact Hnil].
    unfold calculate_solar_terms_body in Hbody.
    apply bind_Ok in Hbody as (start_date & _ & Hbody).
    apply bind_Ok in Hbody as (end_date & _ & Hbody).
    apply bind_Ok in Hbody as (found & Hscan & Hbody).
    injection Hbody as <-.
    destruct (sort_by_time_spec found) as [Hs Hp].
    split; [|exact Hs].
    eapply well_formed_terms_perm; [symmetry; exact Hp|].
    eapply scan_well_formed; [|exact Hscan]. apply Hnil. }
  destruct Hwf as ((Hn & Hy & Hm) & Hs).
  repeat split; try assumption.
  assert (Hlen : (length (map fst terms) <= length (map snd SOLAR_TERM_LONGITUDES))%nat).
  { apply NoDup_incl_length.
    - apply NoDup_ListNoDup. exact Hn.
    - intros x Hx. apply in_map_iff in Hx as (e & <- & He).
      rewrite List.Forall_forall in Hm. apply Hm, He. }
  rewrite length_map in Hlen. exact Hlen.
Qed.

Example toy_year_2024 :
  map (fun e => (fst e, strftime_Ymd_HMS (snd e)))
    (calculate_solar_terms toy_ephemeris 2024)
  = [ ("小寒", "2024-01-05 00:00:00"); ("大寒", "2024-01-20 00:00:00");
      ("立春", "2024-02-04 00:00:00"); ("雨水", "2024-02-19 00:00:00");
      ("惊蛰", "2024-03-05 00:00:00"); ("春分", "2024-03-20 00:00:00");
      ("清明", "2024-04-04 00:00:00"); ("谷雨", "2024-04-19 00:00:00");
      ("立夏", "2024-05-04 00:00:00"); ("小满", "2024-05-19 00:00:00");
      ("芒种", "2024-06-03 00:00:00"); ("夏至", "2024-06-18 00:00:00");
      ("小暑", "2024-07-03 00:00:00"); ("大暑", "2024-07-18 00:00:00");
      ("立秋", "2024-08-02 00:00:00"); ("处暑", "2024-08-17 00:00:00");
      ("白露", "2024-09-01 00:00:00"); ("秋分", "2024-09-16 00:00:00");
      ("寒露", "2024-10-01 00:00:00"); ("霜降", "2024-10-16 00:00:00");
      ("立冬", "2024-10-31 00:00:00"); ("小雪", "2024-11-15 00:00:00");
      ("大雪", "2024-11-30 00:00:00"); ("冬至", "2024-12-15 00:00:00") ]%string.
Proof. vm_compute. reflexivity. Qed.

Example failing_year_2024 : calculate_solar_terms failing_ephemeris 2024 = [].
Proof. vm_compute. reflexivity. Qed.

Example toy_reminder_on_equinox :
  reminder (get_solar_term_info toy_ephemeris 28800
              (mk_datetime 2024 3 20 0 0 0 0) initial_term_cache)
  = "今日节气:春分 08:00:00"%string
  /\ reminder (get_solar_term_info toy_ephemeris 28800
                 (mk_datetime 2024 3 25 0 0 0 0) initial_term_cache)
     = "距下个节气10天:清明 04-04 08:00"%string.
Proof. split; vm_compute; reflexivity. Qed.

(** ** SolarTermCalculator: the yearly cache *)

(** A query for the cached year touches neither the cache nor the
    ephemeris; any other query recomputes and stores the year, whatever the
    result. *)
Lemma get_solar_term_info_cases (eph : Ephemeris) (utc_offset : Z)
    (today : datetime) (cache : term_cache) :
  let r := get_solar_term_info eph utc_offset today cache in
  (last_solar_term_calc_year cache = Some (year today) ->
   cache_after r = cache /\ printed r = [])
  /\ (last_solar_term_calc_year cache <> Some (year today) ->
      cache_after r
      = mk_term_cache (calculate_solar_terms eph (year today)) (Some (year today))
      /\ length (printed r) = 1%nat).
Proof.
  unfold get_solar_term_info.
  destruct (decide (last_solar_term_calc_year cache = Some (year today)));
    simpl; split; intros H; try contradiction; split; reflexivity.
Qed.

Lemma get_solar_term_info_empty (eph : Ephemeris) (utc_offset : Z)
    (today : datetime) (cache : term_cache) :
  current_solar_terms (cache_after (get_solar_term_info eph utc_offset today cache)) = [] ->
  reminder (get_solar_term_info eph utc_offset today cache) = EmptyString.
Proof.
  unfold get_solar_term_info.
  destruct (decide (last_solar_term_calc_year cache = Some (year today)));
    simpl; intros H; rewrite H; reflexivity.
Qed.

Lemma scan_day_sample (eph : Ephemeris) (yr current : Z)
    (prev_lon : option Q) (acc : term_list) :
  scan_day eph yr current prev_lon acc
  = match noon_longitude eph current with
    | Raise ValueError => Ok (prev_lon, acc)
    | Raise e => Raise e
    | Ok sun_lon =>
        acc' ← match prev_lon with
               | Some prev =>
                   fold_left (check_target eph yr current prev sun_lon)
                     SOLAR_TERM_LONGITUDES (Ok acc)
               | None => Ok acc
               end;
        Ok (Some sun_lon, acc')
    end.
Proof.
  unfold scan_day, noon_longitude.
  destruct (ord2ymd current) as [[cy cm] cd]. reflexivity.
Qed.

(** A noon sample that raises anything but [ValueError] ends the scan. *)
Lemma scan_aborts (eph : Ephemeris) (fuel : nat) (yr current end_date bad : Z)
    (prev_lon : option Q) (acc : term_list) (e : exn) :
  noon_longitude eph bad = Raise e -> e <> ValueError ->
  current <= bad < end_date -> end_date - current <= Z.of_nat fuel ->
  exists e', scan eph fuel yr current end_date prev_lon acc = Raise e'.
Proof.
  intros Hbad Hne. revert current prev_lon acc.
  induction fuel as [|fuel IH]; intros current prev_lon acc Hrange Hfuel.
  - lia.
  - simpl. destruct (current <? end_date) eqn:E;
      [|apply Z.ltb_ge in E; lia].
    destruct (Z.eq_dec current bad) as [-> | Hlater].
    + rewrite scan_day_sample, Hbad.
      destruct e; try contradiction; eexists; reflexivity.
    + destruct (scan_day eph yr current prev_lon acc) as [st|e0];
        [|eexists; reflexivity].
      simpl. apply IH; lia.
Qed.

(** A failed computation is caught and surfaced as the empty list. *)
Lemma search_fails_empty (eph : Ephemeris) (yr : Z) :
  search_fails eph yr -> calculate_solar_terms eph yr = [].
Proof.
  unfold calculate_solar_terms.
  intros [Hts | [Heph | (bad & e & Hrange & Hbad & Hne)]].
  - rewrite Hts. reflexivity.
  - rewrite Heph. destruct (negb (ts_loaded eph)); reflexivity.
  - destruct (negb (ts_loaded eph) || negb (ephemeris_loaded eph));
      [reflexivity|].
    unfold calculate_solar_terms_body.
    destruct (datetime_ymd (yr - 1) 12 1) as [start_date|] eqn:Hs;
      [|reflexivity].
    destruct (datetime_ymd (yr + 1) 2 1) as [end_date|] eqn:He;
      [|reflexivity].
    simpl.
    assert (Hstart : toordinal start_date = ymd2ord (yr - 1) 12 1).
    { unfold datetime_ymd in Hs.
      destruct (_ && _) in Hs; [|discriminate].
      injection Hs as <-. reflexivity. }
    assert (Hend : toordinal end_date = ymd2ord (yr + 1) 2 1).
    { unfold datetime_ymd in He.
      destruct (_ && _) in He; [|discriminate].
      injection He as <-. reflexivity. }
    rewrite Hstart, Hend.
    destruct (scan_aborts eph
                (Z.to_nat (ymd2ord (yr + 1) 2 1 - ymd2ord (yr - 1) 12 1)) yr
                (ymd2ord (yr - 1) 12 1) (ymd2ord (yr + 1) 2 1) bad None [] e
                Hbad Hne) as [e' He']; [lia | lia |].
    rewrite He'. reflexivity.
Qed.

(** C5 (as amended): a failure that makes the computation of a year's
    solar-term list fail (a noon sample of a scanned day raising anything
    but a [ValueError], or a missing time scale or ephemeris) is caught
    locally and surfaced as the empty list, and so as the empty reminder;
    the empty list is cached together with its year.  Every later query
    within the same calendar year serves that cached result: it returns the
    empty reminder, prints no recomputation line and leaves the cache as it
    is, whatever ephemeris it runs with.  The list is computed again only
    when the observed year differs from the cached one. *)
Theorem failed_year_stays_cached :
  forall (eph eph' : Ephemeris) (utc_offset : Z) (today today' : datetime)
         (cache : term_cache),
    last_solar_term_calc_year cache <> Some (year today) ->
    search_fails eph (year today) ->
    year today' = year today ->
    let r1 := get_solar_term_info eph utc_offset today cache in
    let r2 := get_solar_term_info eph' utc_offset today' (cache_after r1) in
    calculate_solar_terms eph (year today) = []
    /\ reminder r1 = EmptyString
    /\ cache_after r1 = mk_term_cache [] (Some (year today))
    /\ reminder r2 = EmptyString
    /\ printed r2 = []
    /\ cache_after r2 = cache_after r1
    /\ (forall (eph'' : Ephemeris) (later : datetime),
          year later <> year today ->
          cache_after (get_solar_term_info eph'' utc_offset later (cache_after r2))
          = mk_term_cache (calculate_solar_terms eph'' (year later))
              (Some (year later))).
Proof.
  intros eph eph' utc_offset today today' cache Hnew Hfails Hyear r1 r2.
  pose proof (search_fails_empty eph (year today) Hfails) as Hfail.
  split; [exact Hfail|].
  destruct (get_solar_term_info_cases eph utc_offset today cache) as [_ H1].
  destruct (H1 Hnew) as [Hc1 _]. fold r1 in Hc1. rewrite Hfail in Hc1.
  assert (Hr1 : reminder r1 = EmptyString).
  { apply get_solar_term_info_empty. fold r1. rewrite Hc1. reflexivity. }
  destruct (get_solar_term_info_cases eph' utc_offset today' (cache_after r1))
    as [H2 _].
  assert (Hlast : last_solar_term_calc_year (cache_after r1) = Some (year today')).
  { rewrite Hc1, Hyear. reflexivity. }
  destruct (H2 Hlast) as [Hc2 Hp2]. fold r2 in Hc2, Hp2.
  assert (Hr2 : reminder r2 = EmptyString).
  { apply get_solar_term_info_empty. fold r2. rewrite Hc2, Hc1. reflexivity. }
  repeat split; try assumption.
  intros eph'' later Hlater.
  destruct (get_solar_term_info_cases eph'' utc_offset later (cache_after r2))
    as [_ H3].
  apply H3. rewrite Hc2, Hc1. simpl. congruence.
Qed.

(** The ephemeris whose time scale rejects every date: the noon sample of
    20 March 2024 raises an [OverflowError]. *)
Lemma failed_year_stays_cached_witness :
  let today := mk_datetime 2024 3 20 9 0 0 0 in
  let today' := mk_datetime 2024 3 20 9 0 1 0 in
  last_solar_term_calc_year initial_term_cache <> Some (year today)
  /\ search_fails failing_ephemeris (year today)
  /\ year today' = year today
  /\ let r1 := get_solar_term_info failing_ephemeris 28800 today
                 initial_term_cache in
     let r2 := get_solar_term_info toy_ephemeris 28800 today' (cache_after r1) in
     calculate_solar_terms failing_ephemeris (year today) = []
     /\ reminder r1 = EmptyString
     /\ cache_after r1 = mk_term_cache [] (Some (year today))
     /\ reminder r2 = EmptyString
     /\ printed r2 = []
     /\ cache_after r2 = cache_after r1
     /\ (forall (eph'' : Ephemeris) (later : datetime),
           year later <> year today ->
           cache_after (get_solar_term_info eph'' 28800 later (cache_after r2))
           = mk_term_cache (calculate_solar_terms eph'' (year later))
               (Some (year later))).
Proof.
  intros today today'.
  assert (H1 : last_solar_term_calc_year initial_term_cache <> Some (year today))
    by discriminate.
  assert (H2 : search_fails failing_ephemeris (year today)).
  { right. right. exists 738965, OverflowError.
    split; [vm_compute; split; [discriminate | reflexivity]|].
    split; [vm_compute; reflexivity | discriminate]. }
  assert (H3 : year today' = year today) by reflexivity.
  split; [exact H1|]. split; [exact H2|]. split; [exact H3|].
  exact (failed_year_stays_cached failing_ephemeris toy_ephemeris 28800
           today today' initial_term_cache H1 H2 H3).
Defined.

(** C5 as stated fails: after the computation for 2024 has failed, a second
    query on the same day is answered from the cache.  It prints no
    recomputation line and keeps the empty list, although the ephemeris it
    runs with would now yield all 24 terms and a reminder for that day. *)
Lemma failed_year_is_not_recomputed :
  let today := mk_datetime 2024 3 20 9 0 0 0 in
  let r1 := get_solar_term_info failing_ephemeris 28800 today
              initial_term_cache in
  let r2 := get_solar_term_info toy_ephemeris 28800 today (cache_after r1) in
  calculate_solar_terms failing_ephemeris 2024 = []
  /\ length (calculate_solar_terms toy_ephemeris 2024) = 24%nat
  /\ current_solar_terms (cache_after r2) = []
  /\ current_solar_terms (cache_after r2) <> calculate_solar_terms toy_ephemeris 2024
  /\ printed r2 = []
  /\ reminder r2 = EmptyString
  /\ reminder (get_solar_term_info toy_ephemeris 28800 today initial_term_cache)
     = "今日节气:春分 08:00:00"%string.
Proof.
  intros today r1 r2.
  split; [vm_compute; reflexivity|].
  split; [vm_compute; reflexivity|].
  split; [vm_compute; reflexivity|].
  split.
  { assert (Hlen : length (calculate_solar_terms toy_ephemeris 2024) = 24%nat)
      by (vm_compute; reflexivity).
    assert (Hc : current_solar_terms (cache_after r2) = [])
      by (vm_compute; reflexivity).
    intros Habs.
    pose proof (eq_trans (f_equal (@length _) (eq_sym Habs))
                  (f_equal (@length _) Hc)) as Hl.
    pose proof (eq_trans (eq_sym Hlen) Hl) as H0.
    discriminate H0. }
  split; [vm_compute; reflexivity|].
  split; [vm_compute; reflexivity|].
  vm_compute; reflexivity.
Qed.

(** A failure inside the refinement of one term is caught there: the term
    is left out, the other 23 are found, and that list is cached for the
    year like any other. *)
Example dropped_term_is_cached :
  let today := mk_datetime 2024 3 20 9 0 0 0 in
  let r := get_solar_term_info equinox_blind_ephemeris 28800 today
             initial_term_cache in
  find_solar_term_time equinox_blind_ephemeris 2024 3 19 0 = None
  /\ length (current_solar_terms (cache_after r)) = 23%nat
  /\ already_added "春分" (current_solar_terms (cache_after r)) = false
  /\ last_solar_term_calc_year (cache_after r) = Some 2024.
Proof. vm_compute. repeat split; reflexivity. Qed.

(** ** RiseSetTransitFinder: the sentinels of a day without rise and set *)

Lemma sentinels_distinct :
  SENTINEL_ERROR <> SENTINEL_POLAR_DAY
  /\ SENTINEL_ERROR <> SENTINEL_POLAR_NIGHT
  /\ SENTINEL_ERROR <> SENTINEL_UNLOADED
  /\ SENTINEL_POLAR_DAY <> SENTINEL_POLAR_NIGHT
  /\ SENTINEL_POLAR_DAY <> SENTINEL_UNLOADED
  /\ SENTINEL_POLAR_NIGHT <> SENTINEL_UNLOADED.
Proof. repeat split; discriminate. Qed.

Lemma both_positive_Some (a b : Q) :
  both_positive (Some a) (Some b) <-> (0 < a)%Q /\ (0 < b)%Q.
Proof.
  unfold both_positive. split.
  - intros (x & y & Hx & Hy & H). injection Hx as <-. injection Hy as <-. exact H.
  - intros H. exists a, b. tauto.
Qed.

Lemma both_negative_Some (a b : Q) :
  both_negative (Some a) (Some b) <-> (a < 0)%Q /\ (b < 0)%Q.
Proof.
  unfold both_negative. split.
  - intros (x & y & Hx & Hy & H). injection Hx as <-. injection Hy as <-. exact H.
  - intros H. exists a, b. tauto.
Qed.

Lemma both_positive_None (x y : option Q) :
  x = None \/ y = None -> ~ both_positive x y.
Proof.
  intros [-> | ->] (a & b & Ha & Hb & _); discriminate.
Qed.

Lemma both_negative_None (x y : option Q) :
  x = None \/ y = None -> ~ both_negative x y.
Proof.
  intros [-> | ->] (a & b & Ha & Hb & _); discriminate.
Qed.

Ltac reflect_Qlt x y :=
  let E := fresh "E" in
  destruct (Qlt_bool x y) eqn:E;
  [apply Qlt_bool_iff in E | apply Qlt_bool_false in E].

Ltac sentinel_iff :=
  split; intros ?;
  first [ reflexivity | discriminate
        | solve [intuition (try discriminate; try lra)] ].

Section SunEventFacts.

Variable eph : Ephemeris.
Variable utc_offset : Z.

Lemma no_event_result_cases (lat lon : Q) (date_local : datetime) :
  let alt_noon :=
    fst (sun_alt_az_skyfield eph utc_offset lat lon (replace_time date_local 12 0 0)) in
  let alt_midn :=
    fst (sun_alt_az_skyfield eph utc_offset lat lon (replace_time date_local 0 0 0)) in
  let r := no_event_result eph utc_offset lat lon date_local in
  sunset_str r = sunrise_str r
  /\ (sunrise_str r = SENTINEL_POLAR_DAY <-> both_positive alt_noon alt_midn)
  /\ (sunrise_str r = SENTINEL_POLAR_NIGHT <-> both_negative alt_noon alt_midn)
  /\ (sunrise_str r = SENTINEL_ERROR
      <-> alt_noon = None \/ alt_midn = None
          \/ (~ both_positive alt_noon alt_midn
              /\ ~ both_negative alt_noon alt_midn)).
Proof.
  intros alt_noon alt_midn r. unfold r, no_event_result.
  fold alt_noon. fold alt_midn.
  destruct alt_noon as [a|] eqn:Hnoon, alt_midn as [b|] eqn:Hmidn.
  - rewrite both_positive_Some, both_negative_Some.
    reflect_Qlt 0%Q a; reflect_Qlt 0%Q b; reflect_Qlt a 0%Q; reflect_Qlt b 0%Q;
      try (exfalso; lra); simpl;
      (split; [reflexivity|]); (split; [|split]); sentinel_iff.
  - pose proof (both_positive_None (Some a) None (or_intror eq_refl)).
    pose proof (both_negative_None (Some a) None (or_intror eq_refl)).
    simpl. (split; [reflexivity|]); (split; [|split]); sentinel_iff.
  - pose proof (both_positive_None None (Some b) (or_introl eq_refl)).
    pose proof (both_negative_None None (Some b) (or_introl eq_refl)).
    simpl. (split; [reflexivity|]); (split; [|split]); sentinel_iff.
  - pose proof (both_positive_None None None (or_introl eq_refl)).
    pose proof (both_negative_None None None (or_introl eq_refl)).
    simpl. (split; [reflexivity|]); (split; [|split]); sentinel_iff.
Qed.

End SunEventFacts.

(** C2 (as amended): whenever the ephemeris is loaded and the day's search
    ends without a rise and without a set, the result is the "always up"
    sentinel exactly when the altitudes at local noon and local midnight
    are both positive, the "always down" sentinel exactly when both are
    negative, and the computation-error sentinel exactly when an altitude
    could not be evaluated or the two altitudes are neither both positive
    nor both negative.  The error sentinel differs from both circumpolar
    sentinels and from the ephemeris-unavailable sentinel. *)
Theorem sun_events_without_rise_and_set :
  forall (eph : Ephemeris) (utc_offset : Z) (lat lon : Q)
         (date_local : datetime) (acc : event_acc),
    ephemeris_loaded eph = true ->
    sun_events_scan eph utc_offset lat lon date_local = Ok acc ->
    acc_sunrise_str acc = None ->
    acc_sunset_str acc = None ->
    let alt_noon :=
      fst (sun_alt_az_skyfield eph utc_offset lat lon
             (replace_time date_local 12 0 0)) in
    let alt_midn :=
      fst (sun_alt_az_skyfield eph utc_offset lat lon
             (replace_time date_local 0 0 0)) in
    let r := calculate_sun_events_skyfield eph utc_offset lat lon date_local in
    sunset_str r = sunrise_str r
    /\ (sunrise_str r = SENTINEL_POLAR_DAY <-> both_positive alt_noon alt_midn)
    /\ (sunrise_str r = SENTINEL_POLAR_NIGHT <-> both_negative alt_noon alt_midn)
    /\ (sunrise_str r = SENTINEL_ERROR
        <-> alt_noon = None \/ alt_midn = None
            \/ (~ both_positive alt_noon alt_midn
                /\ ~ both_negative alt_noon alt_midn))
    /\ SENTINEL_ERROR <> SENTINEL_POLAR_DAY
    /\ SENTINEL_ERROR <> SENTINEL_POLAR_NIGHT
    /\ SENTINEL_ERROR <> SENTINEL_UNLOADED.
Proof.
  intros eph utc_offset lat lon date_local acc Hloaded Hscan Hrise Hset
         alt_noon alt_midn r.
  assert (Hr : r = no_event_result eph utc_offset lat lon date_local).
  { unfold r, calculate_sun_events_skyfield.
    rewrite Hloaded, Hscan, Hrise, Hset. reflexivity. }
  rewrite Hr.
  destruct (no_event_result_cases eph utc_offset lat lon date_local)
    as (H1 & H2 & H3 & H4).
  destruct sentinels_distinct as (D1 & D2 & D3 & _).
  split; [exact H1|]. split; [exact H2|]. split; [exact H3|].
  split; [exact H4|]. split; [exact D1|]. split; [exact D2 | exact D3].
Qed.

Lemma sun_events_without_rise_and_set_witness :
  let date_local := mk_datetime 2024 6 21 15 30 0 0 in
  let acc := mk_event_acc None None None None None None in
  ephemeris_loaded toy_ephemeris = true
  /\ sun_events_scan toy_ephemeris 0 (785 # 10) 15 date_local = Ok acc
  /\ acc_sunrise_str acc = None
  /\ acc_sunset_str acc = None
  /\ let alt_noon :=
       fst (sun_alt_az_skyfield toy_ephemeris 0 (785 # 10) 15
              (replace_time date_local 12 0 0)) in
     let alt_midn :=
       fst (sun_alt_az_skyfield toy_ephemeris 0 (785 # 10) 15
              (replace_time date_local 0 0 0)) in
     let r := calculate_sun_events_skyfield toy_ephemeris 0 (785 # 10) 15
                date_local in
     sunset_str r = sunrise_str r
     /\ (sunrise_str r = SENTINEL_POLAR_DAY <-> both_positive alt_noon alt_midn)
     /\ (sunrise_str r = SENTINEL_POLAR_NIGHT <-> both_negative alt_noon alt_midn)
     /\ (sunrise_str r = SENTINEL_ERROR
         <-> alt_noon = None \/ alt_midn = None
             \/ (~ both_positive alt_noon alt_midn
                 /\ ~ both_negative alt_noon alt_midn))
     /\ SENTINEL_ERROR <> SENTINEL_POLAR_DAY
     /\ SENTINEL_ERROR <> SENTINEL_POLAR_NIGHT
     /\ SENTINEL_ERROR <> SENTINEL_UNLOADED.
Proof.
  intros date_local acc.
  assert (H1 : ephemeris_loaded toy_ephemeris = true) by reflexivity.
  assert (H2 : sun_events_scan toy_ephemeris 0 (785 # 10) 15 date_local = Ok acc)
    by (vm_compute; reflexivity).
  assert (H3 : acc_sunrise_str acc = None) by reflexivity.
  assert (H4 : acc_sunset_str acc = None) by reflexivity.
  split; [exact H1|]. split; [exact H2|]. split; [exact H3|]. split; [exact H4|].
  exact (sun_events_without_rise_and_set toy_ephemeris 0 (785 # 10) 15
           date_local acc H1 H2 H3 H4).
Defined.

(** C2 as stated fails in its last part: on a day without rise and set the
    error sentinel is also returned when both altitudes were evaluated but
    have different signs (here +5 degrees at noon, -5 degrees at midnight). *)
Lemma error_sentinel_with_evaluated_altitudes :
  let date_local := mk_datetime 2024 6 21 15 30 0 0 in
  let r := calculate_sun_events_skyfield toy_ephemeris 0 (785 # 10) 15
             date_local in
  sun_events_scan toy_ephemeris 0 (785 # 10) 15 date_local
  = Ok (mk_event_acc None None None None None None)
  /\ sunrise_str r = SENTINEL_ERROR
  /\ sunset_str r = SENTINEL_ERROR
  /\ exists a b : Q,
       fst (sun_alt_az_skyfield toy_ephemeris 0 (785 # 10) 15
              (replace_time date_local 12 0 0)) = Some a
       /\ fst (sun_alt_az_skyfield toy_ephemeris 0 (785 # 10) 15
                 (replace_time date_local 0 0 0)) = Some b
       /\ (a == 5)%Q /\ (b == -5)%Q.
Proof.
  intros date_local r.
  split; [vm_compute; reflexivity|].
  split; [vm_compute; reflexivity|].
  split; [vm_compute; reflexivity|].
  eexists _, _.
  split; [vm_compute; reflexivity|].
  split; [vm_compute; reflexivity|].
  split; vm_compute; reflexivity.
Qed.

Example polar_day_example :
  let always_up :=
    mk_Ephemeris true true toy_time
      (fun dt => Ok (inject_Z (to_micros dt) / inject_Z US_PER_DAY)%Q)
      (fun t => of_micros (Qfloor (t * inject_Z US_PER_DAY)))
      (fun t => Ok (t - 738965)%Q)
      (fun _ _ t => Ok ((t - inject_Z (Qfloor t)) * 20 + 3, 180)%Q)
      (fun _ _ _ _ => Ok []) in
  sunrise_str (calculate_sun_events_skyfield always_up 0 (785 # 10) 15
                 (mk_datetime 2024 6 21 15 30 0 0)) = SENTINEL_POLAR_DAY
  /\ sunrise_str (calculate_sun_events_skyfield failing_ephemeris 0 (785 # 10) 15
                    (mk_datetime 2024 6 21 15 30 0 0)) = SENTINEL_ERROR.
Proof. split; vm_compute; reflexivity. Qed.

Example sunrise_sunset_example :
  let one_day :=
    mk_Ephemeris true true toy_time
      (fun dt => Ok (inject_Z (to_micros dt) / inject_Z US_PER_DAY)%Q)
      (fun t => of_micros (Qfloor (t * inject_Z US_PER_DAY)))
      (fun t => Ok (t - 738965)%Q)
      (fun _ _ t => Ok (0, 905 # 10)%Q)
      (fun _ _ t0 _ => Ok [((t0 + (1 # 4))%Q, 1); ((t0 + (3 # 4))%Q, 0)]) in
  let r := calculate_sun_events_skyfield one_day 3600 40 15
             (mk_datetime 2024 6 21 15 30 0 0) in
  sunrise_str r = "06:00:00 方位090°"%string
  /\ sunset_str r = "18:00:00 方位090°"%string
  /\ next_rise_dt r = Some (mk_datetime 2024 6 21 6 0 0 0).
Proof. repeat split; vm_compute; reflexivity. Qed.

(** ** EventScheduler *)

























(** Polled once per second from 05:59:58 to 06:00:02, the polls at 05:59:59,
    06:00:00 and 06:00:01 fall inside the window of the sunrise at
    06:00:00.4, and one notification comes out. *)
Example sunrise_polled_five_times :
  let s := run_ticks initial_scheduler
             [second_tick 5 59 58; second_tick 5 59 59; second_tick 6 0 0;
              second_tick 6 0 1; second_tick 6 0 2] in
  event_log s
  = [mk_notification "sunrise-2024-03-20 06:00:00" "日出" (Some (895 # 10)%Q)]
  /\ should_fire (mk_datetime 2024 3 20 6 0 1 0)
       (Some (mk_datetime 2024 3 20 6 0 0 400000)) = true
  /\ should_fire (mk_datetime 2024 3 20 6 0 2 0)
       (Some (mk_datetime 2024 3 20 6 0 0 400000)) = false
  /\ should_fire (mk_datetime 2024 3 20 5 59 58 900000)
       (Some (mk_datetime 2024 3 20 6 0 0 400000)) = true.
Proof. repeat split; vm_compute; reflexivity. Qed.

(* ================================================================== *)
(** * Part III: further properties of the code                          *)
(* ================================================================== *)

(** ** SmoothingFilter: what an insertion keeps *)

(** The eviction loop removes a prefix of stale entries and stops at the
    first entry inside the window. *)
Lemma evict_prefix (now : Q) (h : history) :
  exists dropped,
    h = dropped ++ evict now h
    /\ Forall (fun s => (SMOOTH_WINDOW < now - fst s)%Q) dropped
    /\ match evict now h with
       | [] => True
       | s :: _ => (now - fst s <= SMOOTH_WINDOW)%Q
       end.
Proof.
  induction h as [|[t v] h IH]; simpl.
  - exists []. repeat split; constructor.
  - destruct (Qlt_bool SMOOTH_WINDOW (now - t)) eqn:E.
    + apply Qlt_bool_iff in E.
      destruct IH as (dropped & Hsplit & Hstale & Hhead).
      exists ((t, v) :: dropped). split; [|split].
      * simpl. f_equal. exact Hsplit.
      * constructor; assumption.
      * exact Hhead.
    + apply Qlt_bool_false in E. exists []. repeat split; [constructor | exact E].
Qed.

Lemma list_snoc_case {A : Type} (l : list A) :
  l = [] \/ exists l' x, l = l' ++ [x].
Proof.
  induction l as [|x l' _] using rev_ind; [left; reflexivity|].
  right. exists l', x. reflexivity.
Qed.

(** X1: whatever the clock reads and whatever the deque holds, an insertion
    only removes entries from the front, each of them older than the
    window, and never the sample just inserted: afterwards the deque is
    the rest of the old deque followed by the new sample. *)
Theorem add_sample_keeps_newest :
  forall (now : Q) (h : history) (value : Q),
    exists dropped kept : history,
      h = dropped ++ kept
      /\ add_sample now h value = kept ++ [(now, value)]
      /\ Forall (fun s => (SMOOTH_WINDOW < now - fst s)%Q) dropped
      /\ add_sample now h value <> [].
Proof.
  intros now h value. unfold add_sample.
  destruct (evict_prefix now (h ++ [(now, value)])) as (dropped & Hsplit & Hstale & _).
  set (rest := evict now (h ++ [(now, value)])) in *.
  assert (Hfresh : ~ (SMOOTH_WINDOW < now - fst (now, value))%Q).
  { cbn [fst]. unfold SMOOTH_WINDOW. intros H. lra. }
  destruct (list_snoc_case rest) as [Hnil | (kept & x & Hrest)].
  - exfalso. rewrite Hnil, app_nil_r in Hsplit. subst dropped.
    apply Forall_app in Hstale as [_ Hlast].
    apply Forall_inv in Hlast. contradiction.
  - rewrite Hrest in Hsplit. rewrite app_assoc in Hsplit.
    apply app_inj_tail in Hsplit as [Hh Hx]. subst x.
    exists dropped, kept. split; [exact Hh|]. split; [exact Hrest|].
    split; [exact Hstale|]. rewrite Hrest. intros Habs.
    apply app_eq_nil in Habs as [_ Habs]. discriminate.
Qed.

(** ** TelemetryIngestor: the decoding and the fields it reads *)

Lemma Qfloor_unique (x : Q) (z : Z) :
  (inject_Z z <= x)%Q -> (x < inject_Z z + 1)%Q -> Qfloor x = z.
Proof.
  intros Hlo Hhi.
  pose proof (Qfloor_le x) as Flo. pose proof (Qlt_floor x) as Fhi.
  rewrite inject_Z_plus in Fhi. change (inject_Z 1) with 1%Q in Fhi.
  assert (H1 : (inject_Z (Qfloor x) < inject_Z (z + 1))%Q).
  { rewrite inject_Z_plus. change (inject_Z 1) with 1%Q. lra. }
  assert (H2 : (inject_Z z < inject_Z (Qfloor x + 1))%Q).
  { rewrite inject_Z_plus. change (inject_Z 1) with 1%Q. lra. }
  rewrite <- Zlt_Qlt in H1, H2. lia.
Qed.

(** A non-negative reading [100 * d + m] with whole degrees [d] and minutes
    [m] below 100 decodes to [d + m / 60], negated on request. *)
Lemma decode_dm_value (raw m : Q) (d : Z) (negate : bool) :
  (raw == 100 * inject_Z d + m)%Q -> 0 <= d -> (0 <= m)%Q -> (m < 100)%Q ->
  (decode_dm raw negate
   == (if negate then -1 else 1) * (inject_Z d + m / 60))%Q.
Proof.
  intros Hraw Hd Hm0 Hm1.
  assert (Hd' : (0 <= inject_Z d)%Q).
  { change 0%Q with (inject_Z 0). rewrite <- Zle_Qle. exact Hd. }
  assert (Hq : (raw / 100 == inject_Z d + m / 100)%Q).
  { rewrite Hraw. field. }
  assert (Hfloor : Qfloor (raw / 100) = d).
  { apply Qfloor_unique.
    - rewrite Hq. assert (0 <= m / 100)%Q by (apply Qle_shift_div_l; lra). lra.
    - rewrite Hq. assert (m / 100 < 1)%Q by (apply Qlt_shift_div_r; lra). lra. }
  assert (Hpos : Qle_bool 0 (raw / 100) = true).
  { apply Qle_bool_iff. rewrite Hq.
    assert (0 <= m / 100)%Q by (apply Qle_shift_div_l; lra). lra. }
  unfold decode_dm, py_trunc, py_fmod. rewrite Hpos, Hfloor.
  destruct negate; rewrite Hraw; field.
Qed.

(** X2: a line with the tag and status [A] whose latitude and longitude
    fields read as non-negative numbers [100 * d + m], with whole degrees
    [d] and minutes [0 <= m < 100], is decoded to [d + m / 60] degrees,
    negated exactly for hemisphere letter [S] (latitude) and [W]
    (longitude); speed and course are passed through as read. *)
Theorem parse_gprmc_decodes_degrees_minutes :
  forall (float : string -> outcome pyfloat) (line t f3 lat_dir f5 lon_dir f7 f8 : string)
         (trailing : list string) (lat_raw lon_raw : Q) (spd crs : pyfloat)
         (dlat dlon : Z) (mlat mlon : Q),
    split ","%char line
    = ["$GPRMC"%string; t; "A"%string; f3; lat_dir; f5; lon_dir; f7; f8] ++ trailing ->
    float f3 = Ok (Fin lat_raw) -> float f5 = Ok (Fin lon_raw) ->
    float f7 = Ok spd -> float f8 = Ok crs ->
    (lat_raw == 100 * inject_Z dlat + mlat)%Q -> 0 <= dlat ->
    (0 <= mlat)%Q -> (mlat < 100)%Q ->
    (lon_raw == 100 * inject_Z dlon + mlon)%Q -> 0 <= dlon ->
    (0 <= mlon)%Q -> (mlon < 100)%Q ->
    exists lat lon : Q,
      parse_gprmc float line = Ok (Some (mk_fix (Fin lat) (Fin lon) spd crs))
      /\ (lat == (if String.eqb lat_dir "S" then -1 else 1)
                 * (inject_Z dlat + mlat / 60))%Q
      /\ (lon == (if String.eqb lon_dir "W" then -1 else 1)
                 * (inject_Z dlon + mlon / 60))%Q.
Proof.
  intros float line t f3 lat_dir f5 lon_dir f7 f8 trailing lat_raw lon_raw
         spd crs dlat dlon mlat mlon Hsplit F3 F5 F7 F8
         Hlat Hdlat Hmlat0 Hmlat1 Hlon Hdlon Hmlon0 Hmlon1.
  unfold parse_gprmc. rewrite Hsplit.
  rewrite (parse_fields_decodes float t f3 lat_dir f5 lon_dir f7 f8 trailing
             lat_raw lon_raw spd crs F3 F5 F7 F8).
  simpl try_except. eexists _, _. split; [reflexivity|]. split.
  - apply decode_dm_value; assumption.
  - apply decode_dm_value; assumption.
Qed.

Lemma parse_gprmc_decodes_degrees_minutes_witness :
  exists lat lon : Q,
    parse_gprmc float_of_decimal "$GPRMC,081836,A,3751.65,S,14507.36,E,000.0,360.0,130998,011.3,E*62"
    = Ok (Some (mk_fix (Fin lat) (Fin lon) (Fin 000.0) (Fin 360.0)))
    /\ (lat == (if String.eqb "S" "S" then -1 else 1)
               * (inject_Z 37 + 51.65 / 60))%Q
    /\ (lon == (if String.eqb "E" "W" then -1 else 1)
               * (inject_Z 145 + 07.36 / 60))%Q.
Proof.
  apply (parse_gprmc_decodes_degrees_minutes float_of_decimal
           "$GPRMC,081836,A,3751.65,S,14507.36,E,000.0,360.0,130998,011.3,E*62"
           "081836" "3751.65" "S" "14507.36" "E" "000.0" "360.0"
           ["130998"; "011.3"; "E*62"]%string
           3751.65 14507.36 (Fin 000.0) (Fin 360.0) 37 145 51.65 07.36);
    try (vm_compute; reflexivity); try lia;
    try (apply Qle_by_bool; vm_compute; reflexivity);
    try (apply Qlt_by_bool; vm_compute; reflexivity).
Defined.

(** The body reads the fields 0 and 2 to 8 of the split line and nothing
    else. *)
Lemma parse_fields_reads (float : string -> outcome pyfloat)
    (parts parts' : list string) :
  (forall i : nat, i ∈ [0; 2; 3; 4; 5; 6; 7; 8]%nat -> parts !! i = parts' !! i) ->
  parse_fields float parts = parse_fields float parts'.
Proof.
  intros H. unfold parse_fields, py_index.
  rewrite (H 0%nat), (H 2%nat), (H 3%nat), (H 4%nat), (H 5%nat), (H 6%nat),
    (H 7%nat), (H 8%nat); [reflexivity | ..];
    repeat first [apply list_elem_of_here | apply list_elem_of_further].
Qed.

(** X3: the parser looks at the tag, the status, the two coordinates with
    their hemisphere letters, the speed and the course only: two lines
    that agree on the fields 0 and 2 to 8 give the same result, whatever
    their time fields, dates, magnetic variations and checksums. *)
Theorem parse_gprmc_ignores_other_fields :
  forall (float : string -> outcome pyfloat) (line line' : string),
    (forall i : nat,
       i ∈ [0; 2; 3; 4; 5; 6; 7; 8]%nat ->
       split ","%char line !! i = split ","%char line' !! i) ->
    parse_gprmc float line = parse_gprmc float line'.
Proof.
  intros float line line' H. unfold parse_gprmc.
  rewrite (parse_fields_reads float _ _ H). reflexivity.
Qed.

Lemma parse_gprmc_ignores_other_fields_witness :
  (forall i : nat,
     i ∈ [0; 2; 3; 4; 5; 6; 7; 8]%nat ->
     split ","%char "$GPRMC,081836,A,3751.65,S,14507.36,E,000.0,360.0,130998,011.3,E*62" !! i
     = split ","%char "$GPRMC,,A,3751.65,S,14507.36,E,000.0,360.0" !! i)
  /\ parse_gprmc float_of_decimal
       "$GPRMC,081836,A,3751.65,S,14507.36,E,000.0,360.0,130998,011.3,E*62"
     = parse_gprmc float_of_decimal
         "$GPRMC,,A,3751.65,S,14507.36,E,000.0,360.0".
Proof.
  assert (H : forall i : nat,
     i ∈ [0; 2; 3; 4; 5; 6; 7; 8]%nat ->
     split ","%char "$GPRMC,081836,A,3751.65,S,14507.36,E,000.0,360.0,130998,011.3,E*62" !! i
     = split ","%char "$GPRMC,,A,3751.65,S,14507.36,E,000.0,360.0" !! i).
  { intros i Hi. rewrite !elem_of_cons in Hi. rewrite elem_of_nil in Hi.
    destruct Hi as [-> | [-> | [-> | [-> | [-> | [-> | [-> | [-> | []]]]]]]]];
      vm_compute; reflexivity. }
  split; [exact H|].
  exact (parse_gprmc_ignores_other_fields float_of_decimal _ _ H).
Defined.

(** ** EventScheduler: keys and polls *)

Lemma zfill2_table :
  forallb (fun n => (digits_value (zfill 2 n) =? n)
                    && (String.length (zfill 2 n) =? 2)%nat)
    (seqZ 0 100) = true.
Proof. vm_compute. reflexivity. Qed.

Lemma zfill4_table :
  forallb (fun n => (digits_value (zfill 4 n) =? n)
                    && (String.length (zfill 4 n) =? 4)%nat)
    (seqZ 0 10000) = true.
Proof. vm_compute. reflexivity. Qed.

Lemma zfill2_spec (n : Z) :
  0 <= n < 100 ->
  digits_value (zfill 2 n) = n /\ String.length (zfill 2 n) = 2%nat.
Proof.
  intros Hn. pose proof zfill2_table as H.
  rewrite forallb_forall in H.
  specialize (H n). rewrite andb_true_iff, Z.eqb_eq, Nat.eqb_eq in H.
  apply H. apply list_elem_of_In, elem_of_seqZ. lia.
Qed.

Lemma zfill4_spec (n : Z) :
  0 <= n < 10000 ->
  digits_value (zfill 4 n) = n /\ String.length (zfill 4 n) = 4%nat.
Proof.
  intros Hn. pose proof zfill4_table as H.
  rewrite forallb_forall in H.
  specialize (H n). rewrite andb_true_iff, Z.eqb_eq, Nat.eqb_eq in H.
  apply H. apply list_elem_of_In, elem_of_seqZ. lia.
Qed.

Lemma string_app_inj (a a' b b' : string) :
  String.length a = String.length a' ->
  (a +:+ b)%string = (a' +:+ b')%string -> a = a' /\ b = b'.
Proof.
  revert a'. induction a as [|c a IH]; intros [|c' a']; simpl;
    try discriminate.
  - intros _ H. split; [reflexivity | exact H].
  - intros Hlen H. injection Hlen as Hlen. injection H as -> H.
    destruct (IH a' Hlen H) as [-> ->]. split; reflexivity.
Qed.

Lemma string_app_assoc (a b c : string) :
  ((a +:+ b) +:+ c)%string = (a +:+ (b +:+ c))%string.
Proof.
  induction a as [|x a IH]; [reflexivity|].
  change (String x ((a +:+ b) +:+ c) = String x (a +:+ (b +:+ c)))%string.
  f_equal. exact IH.
Qed.

Lemma zfill2_app_inj (x y : Z) (r r' : string) :
  0 <= x < 100 -> 0 <= y < 100 ->
  (zfill 2 x +:+ r)%string = (zfill 2 y +:+ r')%string -> x = y /\ r = r'.
Proof.
  intros Hx Hy H.
  destruct (zfill2_spec x Hx) as [Vx Lx], (zfill2_spec y Hy) as [Vy Ly].
  apply string_app_inj in H as [H ->]; [|congruence].
  split; [|reflexivity]. rewrite <- Vx, <- Vy. f_equal. exact H.
Qed.

(** The timestamp of a key determines the instant to the second. *)
Lemma strftime_Ymd_HMS_inj (t t' : datetime) :
  printable t -> printable t' ->
  strftime_Ymd_HMS t = strftime_Ymd_HMS t' ->
  year t = year t' /\ month t = month t' /\ day t = day t'
  /\ hour t = hour t' /\ minute t = minute t' /\ second t = second t'.
Proof.
  intros (Hy & Hm & Hd & Hh & Hmi & Hs) (Hy' & Hm' & Hd' & Hh' & Hmi' & Hs') H.
  unfold strftime_Ymd_HMS, strftime_Ymd, strftime_HMS in H.
  rewrite !string_app_assoc in H.
  destruct (zfill4_spec _ Hy) as [Vy Ly], (zfill4_spec _ Hy') as [Vy' Ly'].
  apply string_app_inj in H as [Ey H]; [|congruence].
  simpl in H. injection H as H.
  apply zfill2_app_inj in H as [Em H]; [|assumption..].
  simpl in H. injection H as H.
  apply zfill2_app_inj in H as [Ed H]; [|assumption..].
  simpl in H. injection H as H.
  apply zfill2_app_inj in H as [Eh H]; [|assumption..].
  simpl in H. injection H as H.
  apply zfill2_app_inj in H as [Emi H]; [|assumption..].
  simpl in H. injection H as H.
  change (zfill 2 (second t) = zfill 2 (second t')) in H.
  assert (Es : second t = second t').
  { destruct (zfill2_spec _ Hs) as [Vs _], (zfill2_spec _ Hs') as [Vs' _].
    rewrite <- Vs, <- Vs'. f_equal. exact H. }
  repeat split; try assumption.
  rewrite <- Vy, <- Vy'. f_equal. exact Ey.
Qed.

Lemma event_key_kind (k k' : event_kind) (t t' : datetime) :
  event_key k t = event_key k' t' ->
  k = k' /\ strftime_Ymd_HMS t = strftime_Ymd_HMS t'.
Proof.
  unfold event_key.
  destruct k, k'; simpl; intros H; try discriminate;
    (split; [reflexivity|]); injection H as H; exact H.
Qed.

(** X4: two keys of the fired set coincide exactly when they belong to the
    same kind of event and to instants that agree down to the second:
    events of different kinds never share a key, and events of one kind
    share a key only within the same calendar second. *)
Theorem event_key_identifies_kind_and_second :
  forall (k k' : event_kind) (t t' : datetime),
    printable t -> printable t' ->
    (event_key k t = event_key k' t'
     <-> k = k' /\ year t = year t' /\ month t = month t' /\ day t = day t'
         /\ hour t = hour t' /\ minute t = minute t' /\ second t = second t').
Proof.
  intros k k' t t' Ht Ht'. split.
  - intros H. apply event_key_kind in H as [-> H].
    split; [reflexivity|]. apply strftime_Ymd_HMS_inj; assumption.
  - intros (-> & Ey & Em & Ed & Eh & Emi & Es).
    unfold event_key, strftime_Ymd_HMS, strftime_Ymd, strftime_HMS.
    rewrite Ey, Em, Ed, Eh, Emi, Es. reflexivity.
Qed.

Lemma event_key_identifies_kind_and_second_witness :
  printable (mk_datetime 2024 3 20 6 0 0 400000)
  /\ printable (mk_datetime 2024 3 20 6 0 0 900000)
  /\ (event_key Sunrise (mk_datetime 2024 3 20 6 0 0 400000)
      = event_key Sunrise (mk_datetime 2024 3 20 6 0 0 900000)
      <-> Sunrise = Sunrise /\ 2024 = 2024 /\ 3 = 3 /\ 20 = 20
          /\ 6 = 6 /\ 0 = 0 /\ 0 = 0).
Proof.
  assert (H1 : printable (mk_datetime 2024 3 20 6 0 0 400000))
    by (unfold printable; simpl; lia).
  assert (H2 : printable (mk_datetime 2024 3 20 6 0 0 900000))
    by (unfold printable; simpl; lia).
  split; [exact H1|]. split; [exact H2|].
  exact (event_key_identifies_kind_and_second Sunrise Sunrise _ _ H1 H2).
Defined.

(** X5: a poll changes nothing at all (no key, no notification, no refresh
    of the schedule) and raises nothing unless some kind is scheduled
    within 1.5 s of the polling time under a key that has not fired. *)
Theorem maybe_fire_event_idle :
  forall (refresh : event_kind -> refresh_func) (now_local : datetime)
         (s : scheduler),
    (forall k, due now_local s k = false) ->
    _maybe_fire_event refresh now_local s = (s, None).
Proof.
  intros refresh now_local s Hidle.
  assert (Hblock : forall k rf, fire_block k rf now_local s = (s, None)).
  { intros k rf. specialize (Hidle k). unfold due in Hidle.
    unfold fire_block, fire_once.
    destruct (scheduled_dt k (sched_astro s)) as [dt|]; [|reflexivity].
    destruct (should_fire now_local (Some dt)); [|reflexivity].
    simpl in Hidle. apply bool_decide_eq_false in Hidle.
    destruct (decide (event_key k dt ∈ _fired_event_keys s)) as [Hin | Hout];
      [reflexivity | contradiction]. }
  unfold _maybe_fire_event, and_then.
  rewrite (Hblock Moonrise). cbn [fst snd].
  rewrite (Hblock Moonset). cbn [fst snd].
  rewrite (Hblock Sunrise). cbn [fst snd].
  apply Hblock.
Qed.

Lemma maybe_fire_event_idle_witness :
  (forall k, due (mk_datetime 2024 3 20 6 0 2 0)
               (driver_tick initial_scheduler (second_tick 6 0 1)) k = false)
  /\ _maybe_fire_event raising_refresh (mk_datetime 2024 3 20 6 0 2 0)
       (driver_tick initial_scheduler (second_tick 6 0 1))
     = (driver_tick initial_scheduler (second_tick 6 0 1), None).
Proof.
  assert (H : forall k, due (mk_datetime 2024 3 20 6 0 2 0)
               (driver_tick initial_scheduler (second_tick 6 0 1)) k = false).
  { intros k. destruct k; vm_compute; reflexivity. }
  split; [exact H|].
  exact (maybe_fire_event_idle raising_refresh _ _ H).
Defined.

Lemma fire_block_identity (k : event_kind) (now_local : datetime)
    (s : scheduler) :
  fire_block k (fun a => (a, None)) now_local s
  = (mk_scheduler (sched_astro s)
       (list_to_set (map note_key (due_notifications now_local s k))
        ∪ _fired_event_keys s)
       (event_log s ++ due_notifications now_local s k), None).
Proof.
  unfold fire_block, fire_once, due_notifications, due.
  destruct s as [a fired log].
  cbn [sched_astro _fired_event_keys event_log].
  destruct (scheduled_dt k a) as [dt|].
  - destruct (should_fire now_local (Some dt)); cbn [andb].
    + destruct (decide (event_key k dt ∈ fired)) as [Hin | Hout].
      * rewrite bool_decide_eq_false_2 by (intros Hn; contradiction).
        cbn [map list_to_set foldr]. rewrite app_nil_r.
        f_equal. f_equal. set_solver.
      * rewrite bool_decide_eq_true_2 by assumption.
        cbn [map note_key]. f_equal. f_equal. set_solver.
    + cbn [map]. rewrite app_nil_r. f_equal. f_equal. set_solver.
  - cbn [map]. rewrite app_nil_r. f_equal. f_equal. set_solver.
Qed.

Lemma due_keys_kind (now_local : datetime) (s : scheduler) (k : event_kind)
    (key : string) :
  key ∈ (list_to_set (map note_key (due_notifications now_local s k)) : gset string) ->
  exists dt, key = event_key k dt.
Proof.
  unfold due_notifications.
  destruct (scheduled_dt k (sched_astro s)) as [dt|]; [|set_solver].
  destruct (due now_local s k); [|set_solver].
  cbn [map note_key]. intros H. exists dt. set_solver.
Qed.

(** Keys of other kinds in the fired set do not change what is due. *)
Lemma due_notifications_extra (now_local : datetime) (a : astro)
    (fired extra : gset string) (log log' : list notification)
    (k : event_kind) :
  (forall dt, event_key k dt ∉ extra) ->
  due_notifications now_local (mk_scheduler a (extra ∪ fired) log') k
  = due_notifications now_local (mk_scheduler a fired log) k.
Proof.
  intros Hextra. unfold due_notifications, due.
  cbn [sched_astro _fired_event_keys].
  destruct (scheduled_dt k a) as [dt|]; [|reflexivity].
  assert (E : bool_decide (event_key k dt ∉ extra ∪ fired)
              = bool_decide (event_key k dt ∉ fired)).
  { apply bool_decide_ext. specialize (Hextra dt). set_solver. }
  rewrite E. reflexivity.
Qed.

Lemma other_kind_keys (now_local : datetime) (s : scheduler)
    (k k' : event_kind) :
  k <> k' ->
  forall dt,
    event_key k' dt
    ∉ (list_to_set (map note_key (due_notifications now_local s k)) : gset string).
Proof.
  intros Hne dt Hin. apply due_keys_kind in Hin as [dt' Hin].
  apply event_key_kind in Hin as [Hk _]. congruence.
Qed.

(** X6: while the refresh closures return normally and leave the schedule
    as it is (the minute's recomputation has already run), one poll raises
    nothing, notifies every kind that is due, in the order moonrise,
    moonset, sunrise, sunset, and adds exactly their keys to the fired
    set: events of different kinds falling into the same poll do not
    suppress one another. *)
Theorem maybe_fire_event_fires_every_due_kind :
  forall (now_local : datetime) (s : scheduler),
    let r := _maybe_fire_event quiet_refresh now_local s in
    let s' := fst r in
    let fired_now := flat_map (due_notifications now_local s) ALL_KINDS in
    snd r = None
    /\ event_log s' = event_log s ++ fired_now
    /\ _fired_event_keys s'
       = list_to_set (map note_key fired_now) ∪ _fired_event_keys s
    /\ sched_astro s' = sched_astro s
    /\ (length fired_now <= 4)%nat.
Proof.
  intros now_local [a fired log]. cbv zeta.
  unfold _maybe_fire_event, ALL_KINDS, quiet_refresh, and_then.
  set (s := mk_scheduler a fired log).
  set (n1 := due_notifications now_local s Moonrise).
  set (n2 := due_notifications now_local s Moonset).
  set (n3 := due_notifications now_local s Sunrise).
  set (n4 := due_notifications now_local s Sunset).
  rewrite (fire_block_identity Moonrise now_local s).
  cbn [fst snd sched_astro _fired_event_keys event_log s]. fold s. fold n1.
  rewrite (fire_block_identity Moonset).
  cbn [fst snd sched_astro _fired_event_keys event_log].
  rewrite (due_notifications_extra now_local a fired _ log _ Moonset)
    by (apply other_kind_keys; discriminate).
  fold s. fold n2.
  rewrite (fire_block_identity Sunrise).
  cbn [fst snd sched_astro _fired_event_keys event_log].
  rewrite (due_notifications_extra now_local a _ _ (log ++ n1) _ Sunrise)
    by (apply other_kind_keys; discriminate).
  rewrite (due_notifications_extra now_local a fired _ log _ Sunrise)
    by (apply other_kind_keys; discriminate).
  fold s. fold n3.
  rewrite (fire_block_identity Sunset).
  cbn [fst snd sched_astro _fired_event_keys event_log].
  rewrite (due_notifications_extra now_local a _ _ ((log ++ n1) ++ n2) _ Sunset)
    by (apply other_kind_keys; discriminate).
  rewrite (due_notifications_extra now_local a _ _ (log ++ n1) _ Sunset)
    by (apply other_kind_keys; discriminate).
  rewrite (due_notifications_extra now_local a fired _ log _ Sunset)
    by (apply other_kind_keys; discriminate).
  fold s. fold n4.
  cbn [flat_map]. fold n1 n2 n3 n4. rewrite app_nil_r.
  split; [reflexivity|].
  split; [rewrite <- !app_assoc; reflexivity|].
  split; [rewrite !map_app, !list_to_set_app_L; set_solver|].
  split; [reflexivity|].
  assert (Hlen : forall k, (length (due_notifications now_local s k) <= 1)%nat).
  { intros k. unfold due_notifications.
    destruct (scheduled_dt k (sched_astro s)); [|simpl; lia].
    destruct (due now_local s k); simpl; lia. }
  rewrite !length_app.
  pose proof (Hlen Moonrise). pose proof (Hlen Moonset).
  pose proof (Hlen Sunrise). pose proof (Hlen Sunset).
  subst n1 n2 n3 n4. lia.
Qed.

Example sun_and_moon_rise_in_one_poll :
  let a := mk_astro (Some (mk_datetime 2024 3 20 6 0 0 400000)) (Some 80%Q)
             None None
             (Some (mk_datetime 2024 3 20 6 0 0 400000)) (Some 90%Q)
             None None in
  map note_event
    (event_log (fst (_maybe_fire_event quiet_refresh
                       (mk_datetime 2024 3 20 6 0 1 0) (mk_scheduler a ∅ []))))
  = ["月出"; "日出"]%string.
Proof. vm_compute. reflexivity. Qed.

(** ** SolarTermCalculator: failures, brackets and reminders *)

Lemma half_sum (a b : Q) : ((a + b) / 2 == (a + b) * (1 # 2))%Q.
Proof. field. Qed.

Lemma between_left (a b : Q) : between a b a.
Proof.
  unfold between. destruct (Qlt_le_dec a b); [left | right]; split; lra.
Qed.

Lemma between_right (a b : Q) : between a b b.
Proof.
  unfold between. destruct (Qlt_le_dec a b); [left | right]; split; lra.
Qed.

Lemma between_mid (a b : Q) : between a b ((a + b) / 2).
Proof.
  unfold between. rewrite half_sum.
  destruct (Qlt_le_dec a b); [left | right]; split; lra.
Qed.

Lemma between_mid_l (a b t : Q) :
  between ((a + b) / 2) b t -> between a b t.
Proof.
  unfold between. rewrite half_sum. intros [[H1 H2] | [H1 H2]];
    destruct (Qlt_le_dec a b); [left | right | left | right]; split; lra.
Qed.

Lemma between_mid_r (a b t : Q) :
  between a ((a + b) / 2) t -> between a b t.
Proof.
  unfold between. rewrite half_sum. intros [[H1 H2] | [H1 H2]];
    destruct (Qlt_le_dec a b); [left | right | left | right]; split; lra.
Qed.

(** The loop only ever narrows its interval, and the instant it returns is
    a midpoint it has visited. *)
Lemma bisect_bracket (eph : Ephemeris) (target_lon : Z) (n : nat)
    (t_start t_end : Q) (t_mid : option Q) (dt : datetime) :
  (forall t, t_mid = Some t -> between t_start t_end t) ->
  bisect eph target_lon n t_start t_end t_mid = Ok dt ->
  exists t, between t_start t_end t /\ utc_datetime eph t = Ok dt.
Proof.
  revert t_start t_end t_mid.
  induction n as [|n IH]; intros t_start t_end t_mid Hmid H; simpl in H.
  - destruct t_mid as [t|]; [|discriminate].
    exists t. split; [apply Hmid; reflexivity | exact H].
  - apply bind_Ok in H as (lon & _ & H).
    destruct (Qlt_bool (Qabs _) 0.0001).
    + exists ((t_start + t_end) / 2)%Q. split; [apply between_mid | exact H].
    + destruct (Qlt_bool _ 0).
      * apply IH in H as (t & Ht & Hdt).
        -- exists t. split; [apply between_mid_l; exact Ht | exact Hdt].
        -- intros t Ht. injection Ht as <-. apply between_left.
      * apply IH in H as (t & Ht & Hdt).
        -- exists t. split; [apply between_mid_r; exact Ht | exact Hdt].
        -- intros t Ht. injection Ht as <-. apply between_right.
Qed.

(** X7: an instant returned by [find_solar_term_time] is the UTC datetime
    of a time that lies inside the two-day search bracket, between the
    start of the given day and the start of the day two days later: the
    refinement never leaves the bracket, whether or not the target
    longitude is crossed inside it. *)
Theorem find_solar_term_time_within_bracket :
  forall (eph : Ephemeris) (y m d target_lon : Z) (dt : datetime),
    find_solar_term_time eph y m d target_lon = Some dt ->
    exists (end_dt : datetime) (t_start t_end t : Q),
      (start_dt ← datetime_ymd y m d; add_days start_dt 2) = Ok end_dt
      /\ ts_utc eph y m d 0 0 0 = Ok t_start
      /\ ts_utc eph (year end_dt) (month end_dt) (day end_dt) 0 0 0 = Ok t_end
      /\ between t_start t_end t
      /\ utc_datetime eph t = Ok dt.
Proof.
  intros eph y m d target_lon dt H. unfold find_solar_term_time in H.
  destruct (negb (ts_loaded eph) || negb (ephemeris_loaded eph)); [discriminate|].
  destruct (ts_utc eph y m d 0 0 0) as [t_start|] eqn:Hs; [|discriminate].
  destruct (datetime_ymd y m d ≫= _) as [end_dt|] eqn:He; [|discriminate].
  destruct (ts_utc eph (year end_dt) (month end_dt) (day end_dt) 0 0 0)
    as [t_end|] eqn:Ht; [|discriminate].
  destruct (bisect eph target_lon 50 t_start t_end None) as [r|] eqn:Hb;
    [|discriminate].
  injection H as ->.
  apply bisect_bracket in Hb as (t & Hbt & Hdt); [|discriminate].
  exists end_dt, t_start, t_end, t. repeat split; assumption.
Qed.

Lemma find_solar_term_time_within_bracket_witness :
  find_solar_term_time toy_ephemeris 2024 3 19 0
  = Some (mk_datetime 2024 3 20 0 0 0 0)
  /\ exists (end_dt : datetime) (t_start t_end t : Q),
       (start_dt ← datetime_ymd 2024 3 19; add_days start_dt 2) = Ok end_dt
       /\ ts_utc toy_ephemeris 2024 3 19 0 0 0 = Ok t_start
       /\ ts_utc toy_ephemeris (year end_dt) (month end_dt) (day end_dt) 0 0 0
          = Ok t_end
       /\ between t_start t_end t
       /\ utc_datetime toy_ephemeris t = Ok (mk_datetime 2024 3 20 0 0 0 0).
Proof.
  assert (H : find_solar_term_time toy_ephemeris 2024 3 19 0
              = Some (mk_datetime 2024 3 20 0 0 0 0))
    by (vm_compute; reflexivity).
  split; [exact H|].
  exact (find_solar_term_time_within_bracket toy_ephemeris 2024 3 19 0 _ H).
Defined.

Lemma solar_term_reminder_skip (utc_offset : Z) (today : datetime)
    (e : string * datetime) (rest : term_list) (d : datetime) :
  add_micros (snd e) (utc_offset * US_PER_SECOND) = Ok d ->
  upcoming today e = false ->
  solar_term_reminder utc_offset today (e :: rest)
  = solar_term_reminder utc_offset today rest.
Proof.
  intros Hd Hup. destruct e as [name t]. simpl in *.
  rewrite Hd. simpl. unfold upcoming in Hup. simpl in Hup.
  set (delta := toordinal t - toordinal today) in *.
  apply andb_false_iff in Hup.
  destruct (delta =? 0) eqn:E0; [apply Z.eqb_eq in E0; exfalso|].
  { destruct Hup as [Hup | Hup];
      [apply Z.leb_gt in Hup | apply Z.leb_gt in Hup]; lia. }
  destruct (delta =? 1) eqn:E1; [apply Z.eqb_eq in E1; exfalso|].
  { destruct Hup as [Hup | Hup];
      [apply Z.leb_gt in Hup | apply Z.leb_gt in Hup]; lia. }
  destruct ((1 <? delta) && (delta <=? 30)) eqn:E2; [exfalso|reflexivity].
  apply andb_true_iff in E2 as [Ea Eb].
  apply Z.ltb_lt in Ea. apply Z.leb_le in Eb.
  destruct Hup as [Hup | Hup]; apply Z.leb_gt in Hup; lia.
Qed.

Lemma solar_term_reminder_hit (utc_offset : Z) (today : datetime)
    (e : string * datetime) (rest : term_list) :
  upcoming today e = true ->
  solar_term_reminder utc_offset today (e :: rest)
  = solar_term_reminder utc_offset today [e].
Proof.
  intros Hup. destruct e as [name t]. simpl in *.
  destruct (add_micros t (utc_offset * US_PER_SECOND)) as [d|]; [|reflexivity].
  simpl. unfold upcoming in Hup. simpl in Hup.
  set (delta := toordinal t - toordinal today) in *.
  apply andb_true_iff in Hup as [Ha Hb].
  apply Z.leb_le in Ha. apply Z.leb_le in Hb.
  destruct (delta =? 0) eqn:E0; [reflexivity|]. apply Z.eqb_neq in E0.
  destruct (delta =? 1) eqn:E1; [reflexivity|]. apply Z.eqb_neq in E1.
  destruct ((1 <? delta) && (delta <=? 30)) eqn:E2; [reflexivity|].
  exfalso. apply andb_false_iff in E2 as [E2 | E2];
    [apply Z.ltb_ge in E2 | apply Z.leb_gt in E2]; lia.
Qed.

(** X8: when the local-time conversion succeeds for every term of the
    list, [solar_term_reminder] speaks about the first term in list order
    whose UTC date is today or at most 30 days ahead, exactly as if that
    term were the only one; terms in the past or further ahead are skipped,
    and when no term qualifies the reminder is empty. *)
Theorem solar_term_reminder_first_upcoming :
  forall (utc_offset : Z) (today : datetime) (terms : term_list),
    Forall (fun e => exists d,
              add_micros (snd e) (utc_offset * US_PER_SECOND) = Ok d) terms ->
    match List.find (upcoming today) terms with
    | Some e =>
        solar_term_reminder utc_offset today terms
        = solar_term_reminder utc_offset today [e]
        /\ solar_term_reminder utc_offset today terms <> Ok EmptyString
    | None => solar_term_reminder utc_offset today terms = Ok EmptyString
    end.
Proof.
  intros utc_offset today terms Hconv.
  induction terms as [|e terms IH]; [reflexivity|].
  apply Forall_cons in Hconv as [[d Hd] Hconv]. specialize (IH Hconv).
  cbn [List.find]. destruct (upcoming today e) eqn:Hup.
  - split; [apply solar_term_reminder_hit, Hup|].
    destruct e as [name t]. simpl in *. rewrite Hd. simpl.
    unfold upcoming in Hup. simpl in Hup.
    apply andb_true_iff in Hup as [Ha Hb].
    apply Z.leb_le in Ha. apply Z.leb_le in Hb.
    destruct (_ =? 0) eqn:E0; [discriminate|]. apply Z.eqb_neq in E0.
    destruct (_ =? 1) eqn:E1; [discriminate|]. apply Z.eqb_neq in E1.
    destruct ((1 <? _) && _) eqn:E2; [discriminate|].
    exfalso. apply andb_false_iff in E2 as [E2 | E2];
      [apply Z.ltb_ge in E2 | apply Z.leb_gt in E2]; lia.
  - rewrite (solar_term_reminder_skip utc_offset today e terms d Hd Hup).
    exact IH.
Qed.

Lemma solar_term_reminder_first_upcoming_witness :
  let today := mk_datetime 2024 3 19 0 0 0 0 in
  let terms := [("立春"%string, mk_datetime 2024 2 4 8 27 0 0);
                ("春分"%string, mk_datetime 2024 3 20 3 6 0 0);
                ("清明"%string, mk_datetime 2024 4 4 7 2 0 0)] in
  Forall (fun e => exists d,
            add_micros (snd e) (28800 * US_PER_SECOND) = Ok d) terms
  /\ match List.find (upcoming today) terms with
     | Some e =>
         solar_term_reminder 28800 today terms
         = solar_term_reminder 28800 today [e]
         /\ solar_term_reminder 28800 today terms <> Ok EmptyString
     | None => solar_term_reminder 28800 today terms = Ok EmptyString
     end.
Proof.
  intros today terms.
  assert (H : Forall (fun e => exists d,
                add_micros (snd e) (28800 * US_PER_SECOND) = Ok d) terms).
  { repeat constructor; eexists; vm_compute; reflexivity. }
  split; [exact H|].
  exact (solar_term_reminder_first_upcoming 28800 today terms H).
Defined.

(** ** RiseSetTransitFinder: the events of a day with a rise or a set *)

Section SunEventReports.

Variable eph : Ephemeris.
Variable utc_offset : Z.
Variables lat lon : Q.

Lemma sun_event_step_report (acc : event_acc) (tev : Q * Z) :
  sun_event_step eph utc_offset lat lon (Ok acc) tev
  = r ← event_report eph utc_offset lat lon tev;
    let '(text, ev_local, az_deg) := r in
    if snd tev =? 1 then
      match acc_sunrise_str acc with
      | None =>
          Ok (mk_event_acc (Some text) (acc_sunset_str acc)
                (Some ev_local) (Some az_deg) (acc_set_dt acc) (acc_set_az acc))
      | Some _ => Ok acc
      end
    else
      match acc_sunset_str acc with
      | None =>
          Ok (mk_event_acc (acc_sunrise_str acc) (Some text)
                (acc_rise_dt acc) (acc_rise_az acc) (Some ev_local) (Some az_deg))
      | Some _ => Ok acc
      end.
Proof.
  destruct tev as [t ev].
  unfold sun_event_step, event_report, mbind, outcome_bind.
  cbv beta iota zeta delta [fst snd].
  destruct (sun_altaz eph lat lon t) as [[alt az]|]; [|exact eq_refl].
  destruct (utc_datetime eph t) as [dt|]; [|exact eq_refl].
  destruct (_to_local utc_offset dt) as [ev_local|]; exact eq_refl.
Qed.

Lemma sun_event_fold_Raise (found : list (Q * Z)) (e : exn) :
  fold_left (sun_event_step eph utc_offset lat lon) found (Raise e) = Raise e.
Proof. induction found as [|tev found IH]; [reflexivity | exact IH]. Qed.

Lemma sun_event_fold_reports (found : list (Q * Z))
    (rise set : option (string * datetime * Q)) :
  Forall (fun tev => exists r, event_report eph utc_offset lat lon tev = Ok r)
    found ->
  fold_left (sun_event_step eph utc_offset lat lon) found (Ok (acc_of rise set))
  = Ok (acc_of
          (or_else rise
             (first_event true found ≫= report_of eph utc_offset lat lon))
          (or_else set
             (first_event false found ≫= report_of eph utc_offset lat lon))).
Proof.
  revert rise set. induction found as [|tev found IH]; intros rise set Hok.
  - simpl. destruct rise, set; reflexivity.
  - apply Forall_cons in Hok as [[[[text ev_local] az] Hr] Hok].
    cbn [fold_left]. rewrite sun_event_step_report, Hr.
    unfold first_event. cbn [List.find].
    fold (first_event true found). fold (first_event false found).
    assert (Hrep : report_of eph utc_offset lat lon tev
                   = Some (text, ev_local, az))
      by (unfold report_of; rewrite Hr; reflexivity).
    destruct (snd tev =? 1) eqn:Hev; cbn [Bool.eqb].
    + destruct rise as [r|].
      * cbn -[report_of first_event fold_left].
        apply (IH (Some r) set Hok).
      * cbn -[report_of first_event fold_left]. rewrite Hrep.
        apply (IH (Some (text, ev_local, az)) set Hok).
    + destruct set as [s|].
      * cbn -[report_of first_event fold_left].
        apply (IH rise (Some s) Hok).
      * cbn -[report_of first_event fold_left]. rewrite Hrep.
        apply (IH rise (Some (text, ev_local, az)) Hok).
Qed.

Lemma first_event_some (found : list (Q * Z)) :
  found <> [] -> first_event true found = None ->
  exists tev, first_event false found = Some tev.
Proof.
  destruct found as [|tev found]; [congruence|]. intros _.
  unfold first_event. cbn [List.find].
  destruct (snd tev =? 1); cbn [Bool.eqb]; [discriminate|].
  intros _. exists tev. reflexivity.
Qed.

Lemma sun_events_scan_found (date_local : datetime) :
  sun_events_scan eph utc_offset lat lon date_local
  = found ← sun_events_found eph utc_offset lat lon date_local;
    fold_left (sun_event_step eph utc_offset lat lon) found
      (Ok (mk_event_acc None None None None None None)).
Proof.
  unfold sun_events_scan, sun_events_found, mbind, outcome_bind.
  destruct (_today_local date_local) as [t0_local t1_local].
  destruct (local_to_utc utc_offset t0_local) as [a|]; [|exact eq_refl].
  destruct (local_to_utc utc_offset t1_local) as [b|]; [|exact eq_refl].
  destruct (ts_from_datetime eph a) as [t0|]; [|exact eq_refl].
  destruct (ts_from_datetime eph b) as [t1|]; [|exact eq_refl].
  destruct (sun_risings_settings eph lat lon t0 t1); exact eq_refl.
Qed.

(** X9: on a day for which the search returns at least one event and
    every event can be evaluated, [calculate_sun_events_skyfield] reports
    the first rising in the list and the first event that is not a rising,
    whatever comes after them; any event code other than 1 counts as a
    setting, and a missing kind is shown as "无日出" or "无日落". *)
Theorem sun_events_first_rise_and_set :
  forall (date_local : datetime) (found : list (Q * Z)),
    ephemeris_loaded eph = true ->
    sun_events_found eph utc_offset lat lon date_local = Ok found ->
    Forall (fun tev => exists r, event_report eph utc_offset lat lon tev = Ok r)
      found ->
    found <> [] ->
    calculate_sun_events_skyfield eph utc_offset lat lon date_local
    = sun_events_of
        (first_event true found ≫= report_of eph utc_offset lat lon)
        (first_event false found ≫= report_of eph utc_offset lat lon).
Proof.
  intros date_local found Hloaded Hfound Hok Hne.
  unfold calculate_sun_events_skyfield. rewrite Hloaded. cbn [negb].
  rewrite sun_events_scan_found, Hfound. cbn [mbind outcome_bind].
  change (mk_event_acc None None None None None None) with (acc_of None None).
  rewrite (sun_event_fold_reports found None None Hok). cbn [or_else].
  destruct (first_event true found) as [tr|] eqn:Hr.
  - pose proof (proj1 (List.Forall_forall _ _) Hok tr) as Htr.
    destruct Htr as [[[text d] az] Htr].
    { unfold first_event in Hr. apply List.find_some in Hr. tauto. }
    assert (Hrep : report_of eph utc_offset lat lon tr = Some (text, d, az))
      by (unfold report_of; rewrite Htr; reflexivity).
    cbn [mbind option_bind]. rewrite !Hrep.
    destruct (first_event false found ≫= _) as [[[? ?] ?]|]; reflexivity.
  - destruct (first_event_some found Hne Hr) as [ts Hs]. rewrite Hs.
    pose proof (proj1 (List.Forall_forall _ _) Hok ts) as Hts.
    destruct Hts as [[[text d] az] Hts].
    { unfold first_event in Hs. apply List.find_some in Hs. tauto. }
    assert (Hrep : report_of eph utc_offset lat lon ts = Some (text, d, az))
      by (unfold report_of; rewrite Hts; reflexivity).
    cbn [mbind option_bind]. rewrite !Hrep. reflexivity.
Qed.

End SunEventReports.

Lemma sun_events_first_rise_and_set_witness :
  let date_local := mk_datetime 2024 3 20 10 0 0 0 in
  let t0 := (inject_Z (to_micros (mk_datetime 2024 3 20 0 0 0 0))
             / inject_Z US_PER_DAY)%Q in
  let found := [((t0 + 1 / 4)%Q, 1); ((t0 + 3 / 4)%Q, 0);
                ((t0 + 7 / 8)%Q, 1)] in
  ephemeris_loaded rising_ephemeris = true
  /\ sun_events_found rising_ephemeris 0 0 0 date_local = Ok found
  /\ Forall (fun tev => exists r, event_report rising_ephemeris 0 0 0 tev = Ok r)
       found
  /\ found <> []
  /\ calculate_sun_events_skyfield rising_ephemeris 0 0 0 date_local
     = sun_events_of (first_event true found ≫= report_of rising_ephemeris 0 0 0)
         (first_event false found ≫= report_of rising_ephemeris 0 0 0).
Proof.
  intros date_local t0 found.
  assert (H1 : ephemeris_loaded rising_ephemeris = true) by reflexivity.
  assert (H2 : sun_events_found rising_ephemeris 0 0 0 date_local = Ok found)
    by (vm_compute; reflexivity).
  assert (H3 : Forall (fun tev => exists r,
                         event_report rising_ephemeris 0 0 0 tev = Ok r) found)
    by (repeat constructor; eexists; vm_compute; reflexivity).
  assert (H4 : found <> []) by discriminate.
  split; [exact H1|]. split; [exact H2|]. split; [exact H3|].
  split; [exact H4|].
  exact (sun_events_first_rise_and_set rising_ephemeris 0 0 0 date_local found
           H1 H2 H3 H4).
Defined.

Example sun_events_first_rise_and_set_example :
  let r := calculate_sun_events_skyfield rising_ephemeris 0 0 0
             (mk_datetime 2024 3 20 10 0 0 0) in
  next_rise_dt r = Some (mk_datetime 2024 3 20 6 0 0 0)
  /\ next_set_dt r = Some (mk_datetime 2024 3 20 18 0 0 0).
Proof. vm_compute. split; reflexivity. Qed.

Section SunEventFailures.

Variable eph : Ephemeris.
Variable utc_offset : Z.
Variables lat lon : Q.

(** X10: if evaluating any one of the detected events raises (its
    altitude and azimuth, its UTC datetime or its local time), the whole
    result is the error sentinel, also when that event is not the first of
    its kind and would not have been reported. *)
Theorem sun_events_any_failure_is_error :
  forall (date_local : datetime) (found : list (Q * Z)) (tev : Q * Z) (e : exn),
    ephemeris_loaded eph = true ->
    sun_events_found eph utc_offset lat lon date_local = Ok found ->
    In tev found ->
    event_report eph utc_offset lat lon tev = Raise e ->
    calculate_sun_events_skyfield eph utc_offset lat lon date_local
    = sentinel_result SENTINEL_ERROR.
Proof.
  intros date_local found tev e Hloaded Hfound Hin Hr.
  unfold calculate_sun_events_skyfield. rewrite Hloaded. cbn [negb].
  rewrite sun_events_scan_found, Hfound. cbn [mbind outcome_bind].
  assert (H : forall acc, exists e',
             fold_left (sun_event_step eph utc_offset lat lon) found acc
             = Raise e').
  { clear Hfound. induction found as [|x found IH]; [destruct Hin|].
    intros [acc|e0].
    - cbn [fold_left]. destruct Hin as [-> | Hin].
      + rewrite sun_event_step_report, Hr. cbn [mbind outcome_bind].
        exists e. apply sun_event_fold_Raise.
      + apply IH, Hin.
    - exists e0. apply sun_event_fold_Raise. }
  destruct (H (Ok (mk_event_acc None None None None None None))) as [e' ->].
  reflexivity.
Qed.


End SunEventFailures.

Lemma sun_events_any_failure_is_error_witness :
  let date_local := mk_datetime 2024 3 20 10 0 0 0 in
  let t0 := (inject_Z (to_micros (mk_datetime 2024 3 20 0 0 0 0))
             / inject_Z US_PER_DAY)%Q in
  let found := [((t0 + 1 / 4)%Q, 1); ((t0 + 3 / 4)%Q, 0);
                ((t0 + 7 / 8)%Q, 1)] in
  let tev := ((t0 + 7 / 8)%Q, 1) in
  ephemeris_loaded patchy_ephemeris = true
  /\ sun_events_found patchy_ephemeris 0 0 0 date_local = Ok found
  /\ In tev found
  /\ event_report patchy_ephemeris 0 0 0 tev = Raise OtherError
  /\ calculate_sun_events_skyfield patchy_ephemeris 0 0 0 date_local
     = sentinel_result SENTINEL_ERROR.
Proof.
  intros date_local t0 found tev.
  assert (H1 : ephemeris_loaded patchy_ephemeris = true) by reflexivity.
  assert (H2 : sun_events_found patchy_ephemeris 0 0 0 date_local = Ok found)
    by (vm_compute; reflexivity).
  assert (H3 : In tev found) by (right; right; left; reflexivity).
  assert (H4 : event_report patchy_ephemeris 0 0 0 tev = Raise OtherError)
    by (vm_compute; reflexivity).
  split; [exact H1|]. split; [exact H2|]. split; [exact H3|].
  split; [exact H4|].
  exact (sun_events_any_failure_is_error patchy_ephemeris 0 0 0 date_local
           found tev OtherError H1 H2 H3 H4).
Defined.

(** ** Lunar calendar names *)

(** A function whose values on a range are given by a table without
    repetitions returns normally on the range and is injective there. *)
Lemma table_injective (f : Z -> outcome string) (lo : Z) (names : list string) :
  map f (seqZ lo (Z.of_nat (length names))) = map Ok names ->
  NoDup names ->
  forall n m,
    lo <= n < lo + Z.of_nat (length names) ->
    lo <= m < lo + Z.of_nat (length names) ->
    (exists s, f n = Ok s) /\ (f n = f m -> n = m).
Proof.
  intros Htab Hnodup.
  assert (Hat : forall n, lo <= n < lo + Z.of_nat (length names) ->
            exists s, names !! Z.to_nat (n - lo) = Some s /\ f n = Ok s).
  { intros n Hn.
    assert (Hl : (map f (seqZ lo (Z.of_nat (length names))))
                 !! Z.to_nat (n - lo) = Some (f n)).
    { rewrite list_lookup_fmap.
      rewrite (proj2 (lookup_seqZ lo (Z.of_nat (length names))
                        (Z.to_nat (n - lo)) n)); [reflexivity|].
      split; lia. }
    rewrite Htab, list_lookup_fmap in Hl.
    destruct (names !! Z.to_nat (n - lo)) as [s|]; [|discriminate].
    exists s. split; [reflexivity|]. simpl in Hl. congruence. }
  intros n m Hn Hm.
  destruct (Hat n Hn) as (s & Hs & Hfn). destruct (Hat m Hm) as (s' & Hs' & Hfm).
  split; [exists s; exact Hfn|].
  intros Heq. rewrite Hfn, Hfm in Heq. injection Heq as <-.
  pose proof (NoDup_lookup names _ _ s Hnodup Hs Hs') as Hij. lia.
Qed.

Lemma num_to_chinese_table :
  map num_to_chinese (seqZ 1 (Z.of_nat (length DAY_NAMES))) = map Ok DAY_NAMES.
Proof. vm_compute. reflexivity. Qed.

Lemma DAY_NAMES_NoDup : NoDup DAY_NAMES.
Proof. apply (bool_decide_unpack (NoDup DAY_NAMES)). vm_compute. reflexivity. Qed.

(** X11: for the days 1 to 30 of a lunar month [num_to_chinese] returns
    normally, and no two days share a name. *)
Theorem num_to_chinese_tells_days_apart :
  forall n m : Z,
    1 <= n <= 30 -> 1 <= m <= 30 ->
    (exists s, num_to_chinese n = Ok s)
    /\ (num_to_chinese n = num_to_chinese m -> n = m).
Proof.
  intros n m Hn Hm.
  apply (table_injective num_to_chinese 1 _ num_to_chinese_table
           DAY_NAMES_NoDup); simpl; lia.
Qed.

Lemma num_to_chinese_tells_days_apart_witness :
  1 <= 11 <= 30 /\ 1 <= 21 <= 30
  /\ (exists s, num_to_chinese 11 = Ok s)
  /\ (num_to_chinese 11 = num_to_chinese 21 -> 11 = 21).
Proof.
  assert (H1 : 1 <= 11 <= 30) by lia.
  assert (H2 : 1 <= 21 <= 30) by lia.
  split; [exact H1|]. split; [exact H2|].
  exact (num_to_chinese_tells_days_apart 11 21 H1 H2).
Defined.

Lemma CN_NUM_negative (k : Z) : k < 0 -> CN_NUM k = Raise OtherError.
Proof. destruct k; [lia | lia | reflexivity]. Qed.

Lemma num_to_chinese_low (n : Z) :
  n <= 0 -> num_to_chinese n = Raise OtherError.
Proof.
  intros Hn. unfold num_to_chinese.
  replace ((1 <=? n) && (n <=? 10)) with false
    by (symmetry; apply andb_false_iff; left; apply Z.leb_gt; lia).
  replace (n <? 20) with true by (symmetry; apply Z.ltb_lt; lia).
  replace (n - 10 =? 0) with false by (symmetry; apply Z.eqb_neq; lia).
  cbn [negb]. rewrite CN_NUM_negative by lia. reflexivity.
Qed.

Lemma num_to_chinese_high (n : Z) :
  30 < n -> num_to_chinese n = Ok (str_int n).
Proof.
  intros Hn. unfold num_to_chinese.
  replace ((1 <=? n) && (n <=? 10)) with false
    by (symmetry; apply andb_false_iff; right; apply Z.leb_gt; lia).
  replace (n <? 20) with false by (symmetry; apply Z.ltb_ge; lia).
  replace (n <? 30) with false by (symmetry; apply Z.ltb_ge; lia).
  replace (n =? 30) with false by (symmetry; apply Z.eqb_neq; lia).
  reflexivity.
Qed.

(** X12: outside a month's days [num_to_chinese] has two behaviours: for
    zero and negative numbers the lookup in [CN_NUM] fails with a
    [KeyError], and a number above 30 comes back in decimal digits. *)
Theorem num_to_chinese_outside_month :
  forall n : Z,
    (n <= 0 -> num_to_chinese n = Raise OtherError)
    /\ (30 < n -> num_to_chinese n = Ok (str_int n)).
Proof.
  intros n. split; [apply num_to_chinese_low | apply num_to_chinese_high].
Qed.

Lemma get_ganzhi_year_cycle (y : Z) :
  get_ganzhi_year y = get_ganzhi_year (cycle_position y + 4).
Proof.
  unfold get_ganzhi_year, cycle_position.
  replace ((y - 4) mod 60 + 4 - 4) with ((y - 4) mod 60) by lia.
  rewrite (Z.mod_mod_divide (y - 4) 60 10) by (exists 6; reflexivity).
  rewrite (Z.mod_mod_divide (y - 4) 60 12) by (exists 5; reflexivity).
  reflexivity.
Qed.

Lemma get_ganzhi_year_table :
  map (fun c => get_ganzhi_year (c + 4)) (seqZ 0 (Z.of_nat (length CYCLE_NAMES)))
  = map Ok CYCLE_NAMES.
Proof. vm_compute. reflexivity. Qed.

Lemma CYCLE_NAMES_NoDup : NoDup CYCLE_NAMES.
Proof.
  apply (bool_decide_unpack (NoDup CYCLE_NAMES)). vm_compute. reflexivity.
Qed.

(** X13: [get_ganzhi_year] returns normally for every year, also before
    year 4 where [(year - 4)] is negative, and two years get the same name
    exactly when they stand at the same place of the 60-year cycle. *)
Theorem get_ganzhi_year_sixty_cycle :
  forall y y' : Z,
    (exists s, get_ganzhi_year y = Ok s)
    /\ (get_ganzhi_year y = get_ganzhi_year y'
        <-> cycle_position y = cycle_position y').
Proof.
  intros y y'.
  assert (Hy : 0 <= cycle_position y < 60)
    by (unfold cycle_position; apply Z.mod_pos_bound; lia).
  assert (Hy' : 0 <= cycle_position y' < 60)
    by (unfold cycle_position; apply Z.mod_pos_bound; lia).
  destruct (table_injective (fun c => get_ganzhi_year (c + 4)) 0 _
              get_ganzhi_year_table CYCLE_NAMES_NoDup
              (cycle_position y) (cycle_position y')) as [Hok Hinj].
  { change (Z.of_nat (length CYCLE_NAMES)) with 60. lia. }
  { change (Z.of_nat (length CYCLE_NAMES)) with 60. lia. }
  cbv beta in Hok, Hinj.
  rewrite (get_ganzhi_year_cycle y), (get_ganzhi_year_cycle y').
  split; [exact Hok|]. split; [exact Hinj|].
  intros ->. reflexivity.
Qed.

Lemma py_index_int_Ok {A : Type} (l : list A) (i : Z) :
  0 <= i < Z.of_nat (length l) -> exists a, py_index_int l i = Ok a.
Proof.
  intros Hi. unfold py_index_int.
  replace (i <? 0) with false by (symmetry; apply Z.ltb_ge; lia).
  destruct (lookup_lt_is_Some_2 l (Z.to_nat i)) as [a Ha]; [lia|].
  exists a. apply py_index_Ok. exact Ha.
Qed.

Lemma get_ganzhi_year_stem (y : Z) :
  exists tg rest,
    In tg TIANGAN /\ get_ganzhi_year y = Ok (tg +:+ rest)%string.
Proof.
  unfold get_ganzhi_year.
  pose proof (Z.mod_pos_bound (y - 4) 10 ltac:(lia)) as H10.
  pose proof (Z.mod_pos_bound (y - 4) 12 ltac:(lia)) as H12.
  destruct (py_index_int_Ok DIZHI ((y - 4) mod 12)) as [dz ->];
    [simpl; lia|].
  destruct (py_index_int_Ok SHENGXIAO ((y - 4) mod 12)) as [sx ->];
    [simpl; lia|].
  unfold py_index_int.
  replace ((y - 4) mod 10 <? 0) with false by (symmetry; apply Z.ltb_ge; lia).
  destruct (lookup_lt_is_Some_2 TIANGAN (Z.to_nat ((y - 4) mod 10)))
    as [tg Htg]; [simpl; lia|].
  rewrite (proj2 (py_index_Ok _ _ _) Htg).
  exists tg, (dz +:+ "年(" +:+ sx +:+ "年)")%string.
  split; [|reflexivity].
  apply list_elem_of_In. eapply list_elem_of_lookup_2, Htg.
Qed.

(** X14: when the library gives a lunar date with a month from 1 to 12 and
    a day from 1 on, [today_lunar_info] returns the full description,
    which begins with the name of the year, and never the text that stands
    for a failure; with a day below 1 it returns that text, because the
    lookup of the day name fails. *)
Theorem today_lunar_info_available :
  forall l : lunar_date,
    (1 <= l_month l <= 12 -> 1 <= l_day l ->
     exists lunar_year rest,
       get_ganzhi_year (l_year l) = Ok lunar_year
       /\ today_lunar_info (Ok l) = ("农历:" +:+ lunar_year +:+ rest)%string
       /\ today_lunar_info (Ok l) <> "农历:不可用"%string)
    /\ (l_day l <= 0 -> today_lunar_info (Ok l) = "农历:不可用"%string).
Proof.
  intros [y m d leap]. cbn [l_year l_month l_day l_leap]. split.
  - intros Hm Hd.
    destruct (get_ganzhi_year_stem y) as (tg & rest & Htg & Hy).
    destruct (py_index_int_Ok TRADITIONAL_MONTH (m - 1)) as [mn Hmn];
      [simpl; lia|].
    assert (Hday : exists dn, num_to_chinese d = Ok dn).
    { destruct (Z_le_gt_dec d 30) as [Hle | Hgt].
      - apply (table_injective num_to_chinese 1 _ num_to_chinese_table
                 DAY_NAMES_NoDup d d); simpl; lia.
      - exists (str_int d). apply num_to_chinese_high. lia. }
    destruct Hday as [dn Hdn].
    unfold today_lunar_info. cbn [mbind outcome_bind l_year l_month l_day l_leap].
    rewrite Hy. cbn [mbind outcome_bind]. rewrite Hmn. cbn [mbind outcome_bind].
    rewrite Hdn. cbn [mbind outcome_bind].
    eexists (tg +:+ rest)%string, _. split; [reflexivity|].
    split; [reflexivity|].
    simpl in Htg.
    repeat (destruct Htg as [<- | Htg]; [simpl; discriminate|]).
    destruct Htg.
  - intros Hd. unfold today_lunar_info.
    cbn [mbind outcome_bind l_year l_month l_day l_leap].
    destruct (get_ganzhi_year y); [|reflexivity]. cbn [mbind outcome_bind].
    destruct (py_index_int TRADITIONAL_MONTH (m - 1)); [|reflexivity].
    cbn [mbind outcome_bind].
    rewrite (num_to_chinese_low d Hd). reflexivity.
Qed.

(** ** The lighting stage *)

(** X15: the stage named by [lighting_stage_from_sun_alt] is the one whose
    place in the list from night to day is the number of thresholds among
    -18, -12, -6 and 0 degrees that lie strictly below the altitude: the
    chained tests leave no gap, and an altitude equal to a threshold
    belongs to the darker stage. *)
Theorem lighting_stage_counts_thresholds :
  forall alt_deg : Q,
    fst (lighting_stage_from_sun_alt alt_deg)
    = nth (thresholds_below alt_deg) STAGE_NAMES EmptyString.
Proof.
  intros alt. unfold lighting_stage_from_sun_alt, thresholds_below,
    STAGE_THRESHOLDS, STAGE_NAMES. cbn [List.filter].
  unfold Qlt_bool.
  destruct (Qle_bool alt (-18)) eqn:E1; destruct (Qle_bool alt (-12)) eqn:E2;
    destruct (Qle_bool alt (-6)) eqn:E3; destruct (Qle_bool alt 0) eqn:E4;
    cbn [negb andb length nth fst]; try reflexivity; exfalso;
    repeat match goal with
           | H : Qle_bool _ _ = true |- _ => apply Qle_bool_iff in H
           | H : Qle_bool ?a ?b = false |- _ =>
               assert (b < a)%Q
                 by (apply Qnot_le_lt; intros Hle; apply Qle_bool_iff in Hle;
                     congruence);
               clear H
           end; lra.
Qed.

(** ** Display helpers: azimuths, the day window and positions *)

Lemma py_round_near (x : Q) :
  (inject_Z (py_round x) - (1 # 2) <= x)%Q
  /\ (x <= inject_Z (py_round x) + (1 # 2))%Q.
Proof.
  unfold py_round.
  pose proof (Qfloor_le x) as Hlo. pose proof (Qlt_floor x) as Hhi.
  rewrite inject_Z_plus in Hhi. change (inject_Z 1) with 1%Q in Hhi.
  destruct (Qcompare_spec (x - inject_Z (Qfloor x)) (1 # 2)) as [E | E | E].
  - destruct (Z.even (Qfloor x)).
    + split; lra.
    + rewrite inject_Z_plus. change (inject_Z 1) with 1%Q. split; lra.
  - split; lra.
  - rewrite inject_Z_plus. change (inject_Z 1) with 1%Q. split; lra.
Qed.

Lemma zfill3_table :
  forallb (fun n => (digits_value (zfill 3 n) =? n)
                    && (String.length (zfill 3 n) =? 3)%nat)
    (seqZ 0 1000) = true.
Proof. vm_compute. reflexivity. Qed.

Lemma zfill3_spec (n : Z) :
  0 <= n < 1000 ->
  digits_value (zfill 3 n) = n /\ String.length (zfill 3 n) = 3%nat.
Proof.
  intros Hn. pose proof zfill3_table as H.
  rewrite forallb_forall in H.
  specialize (H n). rewrite andb_true_iff, Z.eqb_eq, Nat.eqb_eq in H.
  apply H. apply list_elem_of_In, elem_of_seqZ. lia.
Qed.

(** X16: for every azimuth, negative or beyond 360 degrees as well,
    [_format_az_deg] prints exactly three digits and the degree sign; the
    number they spell lies in 0..359 and differs from the azimuth by at
    most half a degree, up to whole turns.  An azimuth from 359.5 on is
    therefore printed as 000. *)
Theorem format_az_deg_three_digits :
  forall deg : Q,
    exists k turns : Z,
      _format_az_deg (Some deg) = (zfill 3 k +:+ "°")%string
      /\ 0 <= k < 360
      /\ String.length (zfill 3 k) = 3%nat
      /\ digits_value (zfill 3 k) = k
      /\ (Qabs (deg - inject_Z (k + 360 * turns)) <= 1 # 2)%Q.
Proof.
  intros deg. exists (py_round deg mod 360), (py_round deg / 360).
  pose proof (Z.mod_pos_bound (py_round deg) 360 ltac:(lia)) as Hk.
  destruct (zfill3_spec (py_round deg mod 360) ltac:(lia)) as [Hv Hl].
  split; [reflexivity|]. split; [exact Hk|]. split; [exact Hl|].
  split; [exact Hv|].
  replace (py_round deg mod 360 + 360 * (py_round deg / 360))
    with (py_round deg)
    by (rewrite Z.add_comm; apply Z.div_mod; lia).
  destruct (py_round_near deg) as [Hlo Hhi].
  apply Qabs_Qle_condition. split; lra.
Qed.

Example format_az_deg_wraps :
  _format_az_deg (Some 359.5%Q) = "000°"%string
  /\ _format_az_deg (Some (-0.4)%Q) = "000°"%string
  /\ _format_az_deg (Some 2.5%Q) = "002°"%string.
Proof. vm_compute. repeat split; reflexivity. Qed.

(** X17: the window of [_today_local] starts at 00:00:00 and ends at
    23:59:59.000000 of the date of [dt], 86399 seconds later; [dt] is never
    before its start, and it is after its end exactly when it falls into
    the last second of the day with a non-zero microsecond. *)
Theorem today_local_window :
  forall dt : datetime,
    0 <= hour dt < 24 -> 0 <= minute dt < 60 -> 0 <= second dt < 60 ->
    0 <= microsecond dt < 1000000 ->
    let start := fst (_today_local dt) in
    let stop := snd (_today_local dt) in
    toordinal start = toordinal dt
    /\ toordinal stop = toordinal dt
    /\ sub_micros stop start = 86399 * US_PER_SECOND
    /\ to_micros start <= to_micros dt
    /\ (to_micros stop < to_micros dt
        <-> hour dt = 23 /\ minute dt = 59 /\ second dt = 59
            /\ 0 < microsecond dt).
Proof.
  intros [y m d h mi s us]. cbn [hour minute second microsecond].
  intros Hh Hmi Hs Hus. cbv zeta.
  unfold _today_local, replace_time, sub_micros, to_micros, toordinal,
    US_PER_SECOND.
  cbn [fst snd year month day hour minute second microsecond].
  set (o := ymd2ord y m d).
  split; [reflexivity|]. split; [reflexivity|]. split; [lia|].
  split; [lia|]. split; [intros H | intros (-> & -> & -> & H)]; lia.
Qed.

Lemma today_local_window_witness :
  let dt := mk_datetime 2024 3 20 23 59 59 250000 in
  sub_micros (snd (_today_local dt)) (fst (_today_local dt))
  = 86399 * US_PER_SECOND
  /\ to_micros (snd (_today_local dt)) < to_micros dt.
Proof.
  intros dt.
  destruct (today_local_window dt ltac:(simpl; lia) ltac:(simpl; lia)
              ltac:(simpl; lia) ltac:(simpl; lia))
    as (_ & _ & Hlen & _ & Hlast).
  split; [exact Hlen|].
  apply Hlast. simpl. repeat split; lia.
Defined.

(** [round] gives the same result on equal rationals. *)
Lemma py_round_eq (x y : Q) : (x == y)%Q -> py_round x = py_round y.
Proof.
  intros H. unfold py_round.
  assert (E1 : Qfloor x = Qfloor y) by (apply Qfloor_comp; exact H).
  rewrite E1.
  assert (E2 : Qcompare (x - inject_Z (Qfloor y)) (1 # 2)
               = Qcompare (y - inject_Z (Qfloor y)) (1 # 2))
    by (apply Qcompare_comp; [rewrite H; reflexivity | reflexivity]).
  rewrite E2. reflexivity.
Qed.

Lemma py_round_up (x : Q) (z : Z) :
  Z.odd z = true ->
  (inject_Z z + (1 # 2) <= x)%Q -> (x < inject_Z z + 1)%Q ->
  py_round x = z + 1.
Proof.
  intros Hodd Hlo Hhi. unfold py_round.
  rewrite (Qfloor_unique x z) by lra.
  destruct (Qcompare_spec (x - inject_Z z) (1 # 2)) as [E | E | E].
  - rewrite <- Z.negb_odd, Hodd. reflexivity.
  - lra.
  - reflexivity.
Qed.

(** X18: the minutes are rounded after the degrees have been split off,
    and nothing is carried: whenever the minutes of a position are 59.9995
    or more, [dmm_format] prints them as 60.000 beside the unchanged
    degrees. *)
Theorem dmm_format_prints_sixty_minutes :
  forall (dd : Q) (is_lat : bool),
    (59.9995 <= (Qabs dd - inject_Z (py_trunc (Qabs dd))) * 60)%Q ->
    dmm_format dd is_lat
    = ((if is_lat then zfill 2 (py_trunc (Qabs dd))
        else zfill 3 (py_trunc (Qabs dd)))
       +:+ "°" +:+ "60.000" +:+ "'"
       +:+ (if is_lat then (if Qle_bool 0 dd then "N" else "S")
            else (if Qle_bool 0 dd then "E" else "W")))%string.
Proof.
  intros dd is_lat Hm. unfold dmm_format.
  set (deg := py_trunc (Qabs dd)) in *.
  set (minutes := ((Qabs dd - inject_Z deg) * 60)%Q) in *.
  assert (Hdeg : (Qabs dd < inject_Z deg + 1)%Q).
  { unfold deg, py_trunc.
    replace (Qle_bool 0 (Qabs dd)) with true
      by (symmetry; apply Qle_bool_iff, Qabs_nonneg).
    pose proof (Qlt_floor (Qabs dd)) as H.
    rewrite inject_Z_plus in H. exact H. }
  assert (Hlt : (minutes < 60)%Q) by (unfold minutes; lra).
  assert (Hfmt : format_06_3f minutes = "60.000"%string).
  { unfold format_06_3f.
    assert (Habs : (Qabs minutes == minutes)%Q) by (apply Qabs_pos; lra).
    rewrite (py_round_eq (Qabs minutes * 1000) (minutes * 1000))
      by (rewrite Habs; reflexivity).
    rewrite (py_round_up (minutes * 1000) 59999);
      [| reflexivity
       | change (inject_Z 59999) with 59999%Q; lra
       | change (inject_Z 59999) with 59999%Q; lra].
    replace (Qlt_bool minutes 0) with false
      by (symmetry; apply Qlt_bool_false; lra).
    vm_compute. reflexivity. }
  rewrite Hfmt. destruct is_lat; reflexivity.
Qed.

Lemma dmm_format_prints_sixty_minutes_witness :
  (59.9995 <= (Qabs 12.99999999 - inject_Z (py_trunc (Qabs 12.99999999))) * 60)%Q
  /\ dmm_format 12.99999999 true = "12°60.000'N"%string.
Proof.
  assert (H : (59.9995 <= (Qabs 12.99999999
                           - inject_Z (py_trunc (Qabs 12.99999999))) * 60)%Q)
    by (apply Qle_by_bool; vm_compute; reflexivity).
  split; [exact H|].
  exact (dmm_format_prints_sixty_minutes 12.99999999 true H).
Defined.

(** ** Floats: rounding keeps bounds *)

Lemma pow2_pos (e : Z) : (0 < 2 ^ e)%Q.
Proof. apply Qpower_0_lt. reflexivity. Qed.

Lemma pow2_split (a b : Z) : (2 ^ (a + b) == 2 ^ a * 2 ^ b)%Q.
Proof. apply Qpower_plus. discriminate. Qed.

Lemma pow2_inject (a : Z) : 0 <= a -> (inject_Z (2 ^ a) == 2 ^ a)%Q.
Proof. intros Ha. exact (Zpower_Qpower 2 a Ha). Qed.

(** [binade x] is the exponent of the power of two at or below [x]. *)
Lemma binade_spec (x : Q) :
  (0 < x)%Q -> (2 ^ binade x <= x)%Q /\ (x < 2 ^ (binade x + 1))%Q.
Proof.
  intros Hx. destruct x as [n d].
  assert (Hn : 0 < n) by (unfold Qlt in Hx; simpl in Hx; lia).
  unfold binade. cbn [Qnum Qden].
  destruct (Z.log2_spec n Hn) as [Hn1 Hn2].
  destruct (Z.log2_spec (Zpos d) eq_refl) as [Hd1 Hd2].
  pose proof (Z.log2_nonneg n) as Ha.
  pose proof (Z.log2_nonneg (Zpos d)) as Hb.
  set (a := Z.log2 n) in *. set (b := Z.log2 (Zpos d)) in *.
  assert (Qn1 : (2 ^ a <= inject_Z n)%Q)
    by (rewrite <- (pow2_inject a Ha), <- Zle_Qle; exact Hn1).
  assert (Qn2 : (inject_Z n < 2 ^ (a + 1))%Q)
    by (rewrite <- (pow2_inject (a + 1)) by lia; rewrite <- Zlt_Qlt;
        exact Hn2).
  assert (Qd1 : (2 ^ b <= inject_Z (Zpos d))%Q)
    by (rewrite <- (pow2_inject b Hb), <- Zle_Qle; exact Hd1).
  assert (Qd2 : (inject_Z (Zpos d) < 2 ^ (b + 1))%Q)
    by (rewrite <- (pow2_inject (b + 1)) by lia; rewrite <- Zlt_Qlt;
        exact Hd2).
  assert (HX : ((n # d) * inject_Z (Zpos d) == inject_Z n)%Q)
    by (rewrite (Qmake_Qdiv n d); field; discriminate).
  assert (HD : (0 < inject_Z (Zpos d))%Q) by reflexivity.
  pose proof (pow2_pos (a - b)) as P0.
  pose proof (pow2_pos (a - b - 1)) as P1.
  pose proof (pow2_pos b) as Pb.
  pose proof (pow2_pos (a - b + 1)) as P2.
  assert (S1 : (2 ^ (a + 1) == 2 ^ (a - b + 1) * 2 ^ b)%Q)
    by (rewrite <- pow2_split; replace (a - b + 1 + b) with (a + 1) by lia;
        reflexivity).
  assert (S2 : (2 ^ a == 2 ^ (a - b - 1) * 2 ^ (b + 1))%Q)
    by (rewrite <- pow2_split; replace (a - b - 1 + (b + 1)) with a by lia;
        reflexivity).
  assert (S3 : (2 ^ (a - b) == 2 ^ (a - b - 1) * 2)%Q)
    by (rewrite <- (pow2_split (a - b - 1) 1);
        replace (a - b - 1 + 1) with (a - b) by lia; reflexivity).
  destruct (Qle_bool (2 ^ (a - b)) (n # d)) eqn:E.
  - apply Qle_bool_iff in E. split; [exact E|].
    revert Qn2 Qd1 HX HD Pb P2 S1.
    generalize (2 ^ (a - b + 1))%Q (2 ^ (a + 1))%Q (2 ^ b)%Q
      (inject_Z (Zpos d)) (inject_Z n) (n # d).
    intros p q1 pb D N X Qn2 Qd1 HX HD Pb P2 S1.
    destruct (Qlt_le_dec X p) as [H | H]; [exact H | exfalso]. nra.
  - assert (E' : ((n # d) < 2 ^ (a - b))%Q).
    { apply Qnot_le_lt. intros H. apply Qle_bool_iff in H. congruence. }
    replace (a - b - 1 + 1) with (a - b) by lia.
    split; [|exact E'].
    revert Qn1 Qd2 HX HD P1 S2.
    generalize (2 ^ (a - b - 1))%Q (2 ^ a)%Q (2 ^ (b + 1))%Q
      (inject_Z (Zpos d)) (inject_Z n) (n # d).
    intros p q1 pb D N X Qn1 Qd2 HX HD P1 S2.
    destruct (Qlt_le_dec X p) as [H | H]; [exfalso; nra | exact H].
Qed.

Lemma binade_mono (x y : Q) :
  (0 < x)%Q -> (x <= y)%Q -> binade x <= binade y.
Proof.
  intros Hx Hxy.
  destruct (binade_spec x Hx) as [H1 _].
  destruct (binade_spec y) as [_ H2]; [lra|].
  assert (H : (2 ^ binade x < 2 ^ (binade y + 1))%Q) by lra.
  apply Qpower_lt_compat_l_inv in H; [lia | reflexivity].
Qed.

Lemma Qabs_positive (x : Q) : (0 < x)%Q -> Qabs x = x.
Proof.
  destruct x as [n d]. unfold Qlt. simpl. intros H.
  unfold Qabs. rewrite Z.abs_eq by lia. reflexivity.
Qed.

Lemma py_round_le (x : Q) (n : Z) : (x <= inject_Z n)%Q -> py_round x <= n.
Proof.
  intros H. unfold py_round.
  pose proof (Qfloor_le x) as Hf.
  assert (Hle : Qfloor x <= n) by (rewrite Zle_Qle; lra).
  destruct (Qcompare_spec (x - inject_Z (Qfloor x)) (1 # 2)) as [E | E | E].
  - assert (Hlt : Qfloor x < n) by (rewrite Zlt_Qlt; lra).
    destruct (Z.even (Qfloor x)); lia.
  - exact Hle.
  - assert (Hlt : Qfloor x < n) by (rewrite Zlt_Qlt; lra). lia.
Qed.

Lemma py_round_nonneg (x : Q) : (0 <= x)%Q -> 0 <= py_round x.
Proof.
  intros H. unfold py_round.
  assert (Hf : 0 <= Qfloor x)
    by (change 0 with (Qfloor (inject_Z 0)); apply Qfloor_resp_le; exact H).
  destruct (Qcompare (x - inject_Z (Qfloor x)) (1 # 2));
    [destruct (Z.even (Qfloor x))| |]; lia.
Qed.

(** Rounding does not leave the non-negative numbers. *)
Lemma binary64_nonneg (x : Q) : (0 <= x)%Q -> (0 <= binary64 x)%Q.
Proof.
  intros H. unfold binary64.
  destruct (Qeq_bool x 0); [lra|].
  set (e := Z.max (binade (Qabs x) - 52) (-1074)).
  pose proof (pow2_pos e) as He.
  assert (Hq : (0 <= x / 2 ^ e)%Q) by (apply Qle_shift_div_l; lra).
  apply py_round_nonneg in Hq. rewrite Zle_Qle in Hq.
  apply Qmult_le_0_compat; [exact Hq | lra].
Qed.

(** Rounding does not pass a float at or above the number: [N * 2^E] is a
    float when [E] is at least the exponent of its last place. *)
Lemma binary64_le (x : Q) (N E : Z) :
  (0 < x)%Q -> (x <= inject_Z N * 2 ^ E)%Q ->
  Z.max (binade (inject_Z N * 2 ^ E) - 52) (-1074) <= E ->
  (binary64 x <= inject_Z N * 2 ^ E)%Q.
Proof.
  intros Hx Hle HE. unfold binary64.
  destruct (Qeq_bool x 0) eqn:E0; [lra|].
  rewrite (Qabs_positive x Hx).
  pose proof (binade_mono x _ Hx Hle) as Hmono.
  set (e := Z.max (binade x - 52) (-1074)).
  assert (Hee : e <= E) by (unfold e; lia).
  pose proof (pow2_pos e) as He.
  assert (Hsplit : (2 ^ E == inject_Z (2 ^ (E - e)) * 2 ^ e)%Q).
  { rewrite (pow2_inject (E - e)) by lia. rewrite <- pow2_split.
    replace (E - e + e) with E by lia. reflexivity. }
  assert (Hq : (x / 2 ^ e <= inject_Z (N * 2 ^ (E - e)))%Q).
  { rewrite inject_Z_mult. apply Qle_shift_div_r; [exact He|].
    rewrite <- Qmult_assoc, <- Hsplit. exact Hle. }
  apply py_round_le in Hq. rewrite Zle_Qle, inject_Z_mult in Hq.
  rewrite Hsplit, Qmult_assoc.
  apply Qmult_le_compat_r; [exact Hq | lra].
Qed.

(** C's [fmod] stays strictly inside the modulus. *)
Lemma c_fmod_range (x m : Q) :
  (0 < m)%Q -> (- m < c_fmod x m)%Q /\ (c_fmod x m < m)%Q.
Proof.
  intros Hm. unfold c_fmod, py_trunc.
  assert (Hx : (x == x / m * m)%Q) by (field; lra).
  pose proof (Qfloor_le (x / m)) as F1. pose proof (Qlt_floor (x / m)) as F2.
  pose proof (Qle_ceiling (x / m)) as C1.
  pose proof (Qceiling_lt (x / m)) as C2.
  rewrite inject_Z_plus in F2.
  unfold Z.sub in C2. rewrite inject_Z_plus, inject_Z_opp in C2.
  change (inject_Z 1) with 1%Q in F2, C2.
  destruct (Qle_bool 0 (x / m)).
  - revert Hx F1 F2. generalize (inject_Z (Qfloor (x / m))) (x / m)%Q.
    intros t q Hx F1 F2. split; nra.
  - revert Hx C1 C2. generalize (inject_Z (Qceiling (x / m))) (x / m)%Q.
    intros t q Hx C1 C2. split; nra.
Qed.

(** [x % 360.0] lies between 0 and 360; rounding lets it reach 360. *)
Lemma float_mod_360_range (x : Q) :
  (0 <= float_mod x 360)%Q /\ (float_mod x 360 <= 360)%Q.
Proof.
  unfold float_mod. cbv zeta.
  destruct (c_fmod_range x 360) as [H1 H2]; [reflexivity|].
  destruct (Qeq_bool (c_fmod x 360) 0); [split; lra|].
  change (Qlt_bool 360 0) with false.
  unfold Qlt_bool.
  destruct (Qle_bool 0 (c_fmod x 360)) eqn:E; cbn [negb Bool.eqb].
  - apply Qle_bool_iff in E. split; lra.
  - assert (E' : (c_fmod x 360 < 0)%Q).
    { apply Qnot_le_lt. intros H. apply Qle_bool_iff in H. congruence. }
    unfold fadd. split; [apply binary64_nonneg; lra|].
    apply (binary64_le (c_fmod x 360 + 360) 360 0); [lra | | ].
    + change (inject_Z 360 * 2 ^ 0)%Q with 360%Q. lra.
    + vm_compute. discriminate.
Qed.

Lemma binary64_le_nonneg (x : Q) (N E : Z) :
  (0 <= x)%Q -> (x <= inject_Z N * 2 ^ E)%Q ->
  Z.max (binade (inject_Z N * 2 ^ E) - 52) (-1074) <= E ->
  (binary64 x <= inject_Z N * 2 ^ E)%Q.
Proof.
  intros Hx Hle HE.
  destruct (Qlt_le_dec 0 x) as [Hpos | Hzero].
  - apply binary64_le; assumption.
  - assert (Hz : (x == 0)%Q) by lra.
    unfold binary64. rewrite (Qeq_eq_bool _ _ Hz). lra.
Qed.

(** The ratio lies between 0 and 1, both included. *)
Lemma phase_ratio_range (sun_lon moon_lon : Q) :
  (0 <= phase_ratio_of sun_lon moon_lon)%Q
  /\ (phase_ratio_of sun_lon moon_lon <= 1)%Q.
Proof.
  unfold phase_ratio_of, fdiv.
  destruct (float_mod_360_range (fsub moon_lon sun_lon)) as [H0 H1].
  set (d := float_mod (fsub moon_lon sun_lon) 360) in *.
  assert (Hq0 : (0 <= d / 360)%Q) by (apply Qle_shift_div_l; lra).
  assert (Hq1 : (d / 360 <= 1)%Q) by (apply Qle_shift_div_r; lra).
  split; [apply binary64_nonneg; exact Hq0|].
  apply (binary64_le_nonneg (d / 360) 1 0); [exact Hq0 | exact Hq1 |].
  vm_compute. discriminate.
Qed.

(** The lit side and the trend arrow are read off the same ratio. *)
Lemma side_and_trend (r : Q) :
  (snd (phase_of r) = "右边亮"%string -> trend_of r = "↑"%string)
  /\ (snd (phase_of r) = "左边亮"%string -> trend_of r = "↓"%string).
Proof.
  unfold phase_of, trend_of.
  repeat match goal with
         | |- context [Qlt_bool r ?c] =>
             let E := fresh "E" in
             destruct (Qlt_bool r c) eqn:E;
             [apply Qlt_bool_iff in E | apply Qlt_bool_false in E]
         end;
    cbn [snd]; split; intros Hside; try discriminate Hside;
    repeat match goal with
           | |- context [Qlt_bool ?a ?b] =>
               let E := fresh "E" in
               destruct (Qlt_bool a b) eqn:E;
               [apply Qlt_bool_iff in E | apply Qlt_bool_false in E]
           end;
    try reflexivity; exfalso; lra.
Qed.

(** ** MoonPhaseCalculator: the fields stay in range *)

(** The float nearest to 29.530588. *)
Lemma synodic_month_float :
  binary64 29.530588 = (inject_Z 8312121569551978 * 2 ^ (-48))%Q.
Proof. vm_compute. reflexivity. Qed.

(** The fields of the result, read off the ratio. *)
Lemma moon_phase_of_sky_fields (lm : libm) (sky : moon_sky) :
  let r := phase_ratio_of (sun_elon sky) (moon_elon sky) in
  let p := moon_phase_of_sky lm sky in
  moon_age p = fmul r (binary64 29.530588)
  /\ phase_percentage p = fmul r 100
  /\ phase_name p = fst (fst (phase_of r))
  /\ brightness_side p = snd (phase_of r)
  /\ trend p = trend_of r.
Proof.
  unfold moon_phase_of_sky, phase_ratio_of. cbv zeta.
  destruct (phase_of _) as [[name emoji] side].
  repeat split; exact eq_refl.
Qed.

(** X19: in binary64 arithmetic, whatever the ephemeris and the math
    library answer, the fields of [calculate_moon_phase_de421] stay in
    range: the progress lies in [0, 100] percent and the age in
    [0, 29.530588] days, both ends included (rounding can reach the upper
    ends); a moon lit on the right is shown as waxing and a moon lit on the
    left as waning. *)
Theorem moon_phase_fields_in_range :
  forall (ephemeris_loaded : bool) (observe : datetime -> outcome moon_sky)
         (lm : libm) (dt_local : datetime),
    let p := calculate_moon_phase_de421 ephemeris_loaded observe lm dt_local in
    (0 <= moon_age p)%Q /\ (moon_age p <= binary64 29.530588)%Q
    /\ (0 <= phase_percentage p)%Q /\ (phase_percentage p <= 100)%Q
    /\ (brightness_side p = "右边亮"%string -> trend p = "↑"%string)
    /\ (brightness_side p = "左边亮"%string -> trend p = "↓"%string).
Proof.
  intros loaded observe lm dt_local. cbv zeta.
  assert (Hsyn : (0 <= binary64 29.530588)%Q)
    by (apply binary64_nonneg; lra).
  unfold calculate_moon_phase_de421.
  destruct (negb loaded).
  { cbn [moon_age phase_percentage brightness_side trend].
    repeat split; try lra; try assumption; intros H; discriminate H. }
  destruct (observe dt_local) as [sky|e].
  2: { cbn [moon_age phase_percentage brightness_side trend].
       repeat split; try lra; try assumption; intros H; discriminate H. }
  destruct (moon_phase_of_sky_fields lm sky) as (-> & -> & _ & -> & ->).
  destruct (phase_ratio_range (sun_elon sky) (moon_elon sky)) as [Hr0 Hr1].
  destruct (side_and_trend (phase_ratio_of (sun_elon sky) (moon_elon sky)))
    as [Hright Hleft].
  set (r := phase_ratio_of (sun_elon sky) (moon_elon sky)) in *.
  clearbody r. unfold fmul.
  split; [apply binary64_nonneg; nra|].
  split.
  { rewrite synodic_month_float at 2. apply binary64_le_nonneg.
    - nra.
    - rewrite <- synodic_month_float. nra.
    - vm_compute. discriminate. }
  split; [apply binary64_nonneg; nra|].
  split; [|split; assumption].
  apply (binary64_le_nonneg (r * 100) 100 0); [nra | |].
  - change (inject_Z 100 * 2 ^ 0)%Q with 100%Q. nra.
  - vm_compute. discriminate.
Qed.

(** ** RiseSetTransitFinder: the moon's transit *)

Section MoonTransitFacts.

Variable eph : Ephemeris.
Variable utc_offset : Z.
Variable moon_altaz : Q -> Q -> Q -> outcome (Q * Q).
Variables lat lon : Q.
Variable dt_utc : datetime.

Lemma moon_transit_fold_Raise (l : list (Z * Z)) (e : exn) :
  fold_left (moon_transit_step eph moon_altaz lat lon dt_utc) l (Raise e) = Raise e.
Proof. induction l as [|p l IH]; [reflexivity | exact IH]. Qed.

Lemma moon_transit_step_Ok (bt : option datetime) (ba : Q) (p : Z * Z) :
  moon_transit_step eph moon_altaz lat lon dt_utc (Ok (bt, ba)) p
  = match moon_probe eph moon_altaz lat lon dt_utc p with
    | Ok (check_time, alt) =>
        if Qlt_bool ba alt then Ok (Some check_time, alt) else Ok (bt, ba)
    | Raise e => Raise e
    end.
Proof.
  unfold moon_transit_step. cbn [mbind outcome_bind].
  destruct (moon_probe eph moon_altaz lat lon dt_utc p) as [[ct a]|e]; reflexivity.
Qed.

(** The state after the loop holds the first highest probe, if one rose
    above the starting altitude. *)
Lemma moon_transit_fold_max (l : list (Z * Z)) :
  forall (bt bt' : option datetime) (ba ba' : Q),
    fold_left (moon_transit_step eph moon_altaz lat lon dt_utc) l (Ok (bt, ba)) = Ok (bt', ba') ->
    (forall q, In q l -> exists ct a, moon_probe eph moon_altaz lat lon dt_utc q = Ok (ct, a) /\ (a <= ba')%Q)
    /\ (ba <= ba')%Q
    /\ ((bt' = bt /\ ba' = ba)
        \/ exists before p after ct,
             l = before ++ p :: after
             /\ moon_probe eph moon_altaz lat lon dt_utc p = Ok (ct, ba') /\ bt' = Some ct /\ (ba < ba')%Q
             /\ forall q, In q before ->
                  exists ct' a, moon_probe eph moon_altaz lat lon dt_utc q = Ok (ct', a) /\ (a < ba')%Q).
Proof.
  induction l as [|x l IH]; intros bt bt' ba ba' H.
  - cbn [fold_left] in H. injection H as <- <-.
    split; [intros q []|]. split; [lra|]. left. split; reflexivity.
  - cbn [fold_left] in H. rewrite moon_transit_step_Ok in H.
    destruct (moon_probe eph moon_altaz lat lon dt_utc x) as [[ct a]|e] eqn:Hx;
      [|rewrite moon_transit_fold_Raise in H; discriminate].
    destruct (Qlt_bool ba a) eqn:Hlt.
    + apply Qlt_bool_iff in Hlt.
      destruct (IH _ _ _ _ H) as (Hall & Hle & Hcase).
      split; [|split; [lra|]].
      * intros q [<- | Hq]; [exists ct, a; split; [exact Hx | exact Hle]|].
        apply Hall, Hq.
      * right. destruct Hcase as [[-> ->] | Hcase].
        -- exists [], x, l, ct. split; [reflexivity|].
           split; [exact Hx|]. split; [reflexivity|]. split; [exact Hlt|].
           intros q [].
        -- destruct Hcase as (before & p & after & ct' & -> & Hp & -> & Hgt & Hbefore).
           exists (x :: before), p, after, ct'. split; [reflexivity|].
           split; [exact Hp|]. split; [reflexivity|]. split; [lra|].
           intros q [<- | Hq]; [exists ct, a; split; [exact Hx | exact Hgt]|].
           apply Hbefore, Hq.
    + apply Qlt_bool_false in Hlt.
      destruct (IH _ _ _ _ H) as (Hall & Hle & Hcase).
      split; [|split; [exact Hle|]].
      * intros q [<- | Hq]; [exists ct, a; split; [exact Hx | lra]|].
        apply Hall, Hq.
      * destruct Hcase as [[-> ->] | Hcase]; [left; split; reflexivity|].
        right.
        destruct Hcase as (before & p & after & ct' & -> & Hp & -> & Hgt & Hbefore).
        exists (x :: before), p, after, ct'. split; [reflexivity|].
        split; [exact Hp|]. split; [reflexivity|]. split; [exact Hgt|].
        intros q [<- | Hq]; [exists ct, a; split; [exact Hx | lra]|].
        apply Hbefore, Hq.
Qed.

Lemma moon_transit_fold_fails (l : list (Z * Z)) (q : Z * Z) (e : exn) :
  In q l -> moon_probe eph moon_altaz lat lon dt_utc q = Raise e ->
  forall st, exists e', fold_left (moon_transit_step eph moon_altaz lat lon dt_utc) l st = Raise e'.
Proof.
  intros Hin Hq. induction l as [|x l IH]; [destruct Hin|].
  intros [[bt ba]|e0].
  - cbn [fold_left]. rewrite moon_transit_step_Ok.
    destruct Hin as [-> | Hin].
    + rewrite Hq. exists e. apply moon_transit_fold_Raise.
    + apply IH, Hin.
  - exists e0. apply moon_transit_fold_Raise.
Qed.

End MoonTransitFacts.

(** The probes only read the date of [dt_utc]. *)
Lemma moon_probe_date (eph : Ephemeris)
    (moon_altaz : Q -> Q -> Q -> outcome (Q * Q)) (lat lon : Q)
    (a b : datetime) (p : Z * Z) :
  year a = year b -> month a = month b -> day a = day b ->
  moon_probe eph moon_altaz lat lon a p = moon_probe eph moon_altaz lat lon b p.
Proof. intros Hy Hm Hd. unfold moon_probe. rewrite Hy, Hm, Hd. reflexivity. Qed.

(** X20: when [calculate_moon_transit_de421] reports an altitude, every one
    of the 720 probes (each even minute of the UTC date of the given
    instant) was evaluated, the altitude is that of one of them, is above
    -90 degrees and is the highest; of several probes with that altitude
    the earliest is reported, and the text is its local time. *)
Theorem moon_transit_is_first_highest_probe :
  forall (eph : Ephemeris) (utc_offset : Z)
         (moon_altaz : Q -> Q -> Q -> outcome (Q * Q))
         (lat lon : Q) (dt_local : datetime) (text : string) (alt : Q),
    calculate_moon_transit_de421 eph utc_offset moon_altaz lat lon dt_local
    = (text, Some alt) ->
    exists (dt_utc : datetime) (before after : list (Z * Z)) (p : Z * Z)
           (check_time local_time : datetime),
      local_to_utc utc_offset dt_local = Ok dt_utc
      /\ TRANSIT_PROBES = before ++ p :: after
      /\ moon_probe eph moon_altaz lat lon dt_utc p = Ok (check_time, alt)
      /\ (-90 < alt)%Q
      /\ (forall q, In q before ->
            exists ct a, moon_probe eph moon_altaz lat lon dt_utc q = Ok (ct, a)
                         /\ (a < alt)%Q)
      /\ (forall q, In q after ->
            exists ct a, moon_probe eph moon_altaz lat lon dt_utc q = Ok (ct, a)
                         /\ (a <= alt)%Q)
      /\ _to_local utc_offset check_time = Ok local_time
      /\ text = strftime_HM local_time.
Proof.
  intros eph utc_offset moon_altaz lat lon dt_local text alt H.
  unfold calculate_moon_transit_de421 in H.
  destruct (negb (ephemeris_loaded eph)); [discriminate|].
  destruct (local_to_utc utc_offset dt_local) as [dt_naive|] eqn:Hutc;
    [|discriminate].
  cbn [mbind outcome_bind] in H.
  set (dt_utc := mk_datetime (year dt_naive) (month dt_naive) (day dt_naive)
                   (hour dt_naive) (minute dt_naive) (second dt_naive) 0) in H.
  destruct (fold_left (moon_transit_step eph moon_altaz lat lon dt_utc)
              TRANSIT_PROBES (Ok (None, (-90)%Q))) as [[bt ba]|] eqn:Hfold;
    [|discriminate].
  cbn [mbind outcome_bind fst snd] in H.
  destruct bt as [best_time|]; [|discriminate].
  destruct (add_micros best_time (utc_offset * US_PER_SECOND))
    as [local_time|] eqn:Hlocal; [|discriminate].
  cbn [mbind outcome_bind] in H. injection H as <- <-.
  destruct (moon_transit_fold_max eph moon_altaz lat lon dt_utc _ _ _ _ _ Hfold)
    as (Hall & Hle & [[Hbt _] | Hcase]); [discriminate|].
  destruct Hcase as (before & p & after & ct & Hsplit & Hp & Hct & Hgt & Hbefore).
  injection Hct as ->.
  assert (Hdate : forall q,
            moon_probe eph moon_altaz lat lon dt_utc q
            = moon_probe eph moon_altaz lat lon dt_naive q)
    by (intros q; apply moon_probe_date; reflexivity).
  exists dt_naive, before, after, p, ct, local_time.
  split; [reflexivity|]. split; [exact Hsplit|].
  split; [rewrite <- Hdate; exact Hp|]. split; [exact Hgt|].
  split; [intros q Hq; rewrite <- Hdate; apply Hbefore, Hq|].
  split; [|split; [exact Hlocal | reflexivity]].
  intros q Hq. rewrite <- Hdate. apply Hall. rewrite Hsplit.
  apply in_or_app. right. right. exact Hq.
Qed.

Lemma moon_transit_is_first_highest_probe_witness :
  exists (dt_utc : datetime) (before after : list (Z * Z)) (p : Z * Z)
         (check_time local_time : datetime),
    local_to_utc 28800 (mk_datetime 2024 3 20 10 0 0 0) = Ok dt_utc
    /\ TRANSIT_PROBES = before ++ p :: after
    /\ moon_probe toy_ephemeris toy_moon_altaz 0 0 dt_utc p = Ok (check_time, 15%Q)
    /\ (-90 < 15)%Q
    /\ (forall q, In q before ->
          exists ct a, moon_probe toy_ephemeris toy_moon_altaz 0 0 dt_utc q
                       = Ok (ct, a) /\ (a < 15)%Q)
    /\ (forall q, In q after ->
          exists ct a, moon_probe toy_ephemeris toy_moon_altaz 0 0 dt_utc q
                       = Ok (ct, a) /\ (a <= 15)%Q)
    /\ _to_local 28800 check_time = Ok local_time
    /\ "23:00"%string = strftime_HM local_time.
Proof.
  apply (moon_transit_is_first_highest_probe toy_ephemeris 28800 toy_moon_altaz
           0 0 (mk_datetime 2024 3 20 10 0 0 0) "23:00" 15%Q).
  vm_compute. reflexivity.
Defined.

(** X21: with the ephemeris loaded, a single probe that cannot be
    evaluated makes [calculate_moon_transit_de421] report the error text
    and no altitude, whatever the other 719 probes give. *)
Theorem moon_transit_any_failure_is_error :
  forall (eph : Ephemeris) (utc_offset : Z)
         (moon_altaz : Q -> Q -> Q -> outcome (Q * Q))
         (lat lon : Q) (dt_local dt_utc : datetime) (q : Z * Z) (e : exn),
    ephemeris_loaded eph = true ->
    local_to_utc utc_offset dt_local = Ok dt_utc ->
    In q TRANSIT_PROBES ->
    moon_probe eph moon_altaz lat lon dt_utc q = Raise e ->
    calculate_moon_transit_de421 eph utc_offset moon_altaz lat lon dt_local
    = ("计算错误"%string, None).
Proof.
  intros eph utc_offset moon_altaz lat lon dt_local dt_naive q e
    Hloaded Hutc Hin Hq.
  unfold calculate_moon_transit_de421. rewrite Hloaded, Hutc.
  cbn [negb mbind outcome_bind].
  set (dt_utc := mk_datetime (year dt_naive) (month dt_naive) (day dt_naive)
                   (hour dt_naive) (minute dt_naive) (second dt_naive) 0).
  assert (Hq' : moon_probe eph moon_altaz lat lon dt_utc q = Raise e)
    by (rewrite <- Hq; apply moon_probe_date; reflexivity).
  destruct (moon_transit_fold_fails eph moon_altaz lat lon dt_utc
              TRANSIT_PROBES q e Hin Hq' (Ok (None, (-90)%Q))) as [e' ->].
  reflexivity.
Qed.

Lemma moon_transit_any_failure_is_error_witness :
  let dt_local := mk_datetime 2024 3 20 10 0 0 0 in
  let dt_utc := mk_datetime 2024 3 20 2 0 0 0 in
  ephemeris_loaded toy_ephemeris = true
  /\ local_to_utc 28800 dt_local = Ok dt_utc
  /\ In (23, 30) TRANSIT_PROBES
  /\ moon_probe toy_ephemeris patchy_moon_altaz 0 0 dt_utc (23, 30)
     = Raise OtherError
  /\ calculate_moon_transit_de421 toy_ephemeris 28800 patchy_moon_altaz 0 0
       dt_local
     = ("计算错误"%string, None).
Proof.
  intros dt_local dt_utc.
  assert (H1 : ephemeris_loaded toy_ephemeris = true) by reflexivity.
  assert (H2 : local_to_utc 28800 dt_local = Ok dt_utc)
    by (vm_compute; reflexivity).
  assert (H3 : In (23, 30) TRANSIT_PROBES).
  { apply list_elem_of_In. apply (bool_decide_unpack _). vm_compute. reflexivity. }
  assert (H4 : moon_probe toy_ephemeris patchy_moon_altaz 0 0 dt_utc (23, 30)
               = Raise OtherError) by (vm_compute; reflexivity).
  split; [exact H1|]. split; [exact H2|]. split; [exact H3|].
  split; [exact H4|].
  exact (moon_transit_any_failure_is_error toy_ephemeris 28800
           patchy_moon_altaz 0 0 dt_local dt_utc (23, 30) OtherError
           H1 H2 H3 H4).
Defined.

(** ** RiseSetTransitFinder: the moon's rise and set *)

Section MoonEventFacts.

Variable eph : Ephemeris.
Variable utc_offset : Z.
Variable moon_altaz : Q -> Q -> Q -> outcome (Q * Q).
Variable moon_risings_settings : Q -> Q -> Q -> Q -> outcome (list (Q * Z)).
Variables lat lon : Q.

Lemma moon_event_step_report (acc : moon_acc) (tev : Q * Z) :
  moon_event_step eph utc_offset moon_altaz lat lon (Ok acc) tev
  = r ← moon_event_report eph utc_offset moon_altaz lat lon tev;
    let '(text, ev_local, az_deg) := r in
    if snd tev =? 1 then
      match acc_moonrise_str acc with
      | None =>
          Ok (mk_moon_acc (Some text) (acc_moonset_str acc)
                (Some ev_local) (Some az_deg)
                (acc_moonset_dt acc) (acc_moonset_az acc))
      | Some _ => Ok acc
      end
    else
      match acc_moonset_str acc with
      | None =>
          Ok (mk_moon_acc (acc_moonrise_str acc) (Some text)
                (acc_moonrise_dt acc) (acc_moonrise_az acc)
                (Some ev_local) (Some az_deg))
      | Some _ => Ok acc
      end.
Proof.
  destruct tev as [t ev].
  unfold moon_event_step, moon_event_report, mbind, outcome_bind.
  cbv beta iota zeta delta [fst snd].
  destruct (moon_altaz lat lon t) as [[alt az]|]; [|exact eq_refl].
  destruct (utc_datetime eph t) as [dt|]; [|exact eq_refl].
  destruct (_to_local utc_offset dt) as [ev_local|]; exact eq_refl.
Qed.

Lemma moon_event_fold_reports (found : list (Q * Z))
    (rise set : option (string * datetime * Q)) :
  Forall (fun tev => exists r,
            moon_event_report eph utc_offset moon_altaz lat lon tev = Ok r)
    found ->
  fold_left (moon_event_step eph utc_offset moon_altaz lat lon) found
    (Ok (moon_acc_of rise set))
  = Ok (moon_acc_of
          (or_else rise
             (first_event true found
              ≫= moon_report_of eph utc_offset moon_altaz lat lon))
          (or_else set
             (first_event false found
              ≫= moon_report_of eph utc_offset moon_altaz lat lon))).
Proof.
  revert rise set. induction found as [|tev found IH]; intros rise set Hok.
  - simpl. destruct rise, set; reflexivity.
  - apply Forall_cons in Hok as [[[[text ev_local] az] Hr] Hok].
    cbn [fold_left]. rewrite moon_event_step_report, Hr.
    unfold first_event. cbn [List.find].
    fold (first_event true found). fold (first_event false found).
    assert (Hrep : moon_report_of eph utc_offset moon_altaz lat lon tev
                   = Some (text, ev_local, az))
      by (unfold moon_report_of; rewrite Hr; reflexivity).
    destruct (snd tev =? 1) eqn:Hev; cbn [Bool.eqb].
    + destruct rise as [r|].
      * cbn -[moon_report_of first_event fold_left].
        apply (IH (Some r) set Hok).
      * cbn -[moon_report_of first_event fold_left]. rewrite Hrep.
        apply (IH (Some (text, ev_local, az)) set Hok).
    + destruct set as [s|].
      * cbn -[moon_report_of first_event fold_left].
        apply (IH rise (Some s) Hok).
      * cbn -[moon_report_of first_event fold_left]. rewrite Hrep.
        apply (IH rise (Some (text, ev_local, az)) Hok).
Qed.

Lemma calculate_moon_events_found (dt_local : datetime) :
  calculate_moon_events_de421 eph utc_offset moon_altaz moon_risings_settings
    lat lon dt_local
  = if negb (ephemeris_loaded eph) then
      mk_moon_events "未加载" "未加载" "未加载" None None None None None
    else
      match (found ← moon_events_found eph utc_offset moon_risings_settings
                       lat lon dt_local;
             acc ← fold_left (moon_event_step eph utc_offset moon_altaz lat lon)
                     found (Ok (mk_moon_acc None None None None None None));
             let '(transit_time, transit_alt) :=
               calculate_moon_transit_de421 eph utc_offset moon_altaz
                 lat lon dt_local in
             Ok (mk_moon_events (default "不出"%string (acc_moonrise_str acc))
                   (default "不落"%string (acc_moonset_str acc))
                   transit_time transit_alt
                   (acc_moonrise_dt acc) (acc_moonrise_az acc)
                   (acc_moonset_dt acc) (acc_moonset_az acc))) with
      | Ok r => r
      | Raise _ =>
          mk_moon_events "计算错误" "计算错误" "计算错误" None None None None None
      end.
Proof.
  unfold calculate_moon_events_de421, moon_events_found, mbind, outcome_bind.
  destruct (negb (ephemeris_loaded eph)); [exact eq_refl|].
  destruct (_today_local dt_local) as [t0_local t1_local].
  destruct (local_to_utc utc_offset t0_local) as [a|]; [|exact eq_refl].
  destruct (local_to_utc utc_offset t1_local) as [b|]; [|exact eq_refl].
  destruct (ts_from_datetime eph a) as [t0|]; [|exact eq_refl].
  destruct (ts_from_datetime eph b) as [t1|]; [|exact eq_refl].
  destruct (moon_risings_settings lat lon t0 t1); exact eq_refl.
Qed.

(** X22: when the search succeeds and every event it returns can be
    evaluated, [calculate_moon_events_de421] reports the first rising and
    the first event that is not a rising, together with whatever
    [calculate_moon_transit_de421] gives, its error text included.  A
    missing rise or set is shown as "不出" or "不落": a day on which
    the search finds nothing is not an error, and unlike for the sun the
    altitude is not consulted. *)
Theorem moon_events_first_rise_and_set :
  forall (dt_local : datetime) (found : list (Q * Z)),
    ephemeris_loaded eph = true ->
    moon_events_found eph utc_offset moon_risings_settings lat lon dt_local
    = Ok found ->
    Forall (fun tev => exists r,
              moon_event_report eph utc_offset moon_altaz lat lon tev = Ok r)
      found ->
    calculate_moon_events_de421 eph utc_offset moon_altaz moon_risings_settings
      lat lon dt_local
    = moon_events_of
        (first_event true found
         ≫= moon_report_of eph utc_offset moon_altaz lat lon)
        (first_event false found
         ≫= moon_report_of eph utc_offset moon_altaz lat lon)
        (calculate_moon_transit_de421 eph utc_offset moon_altaz lat lon dt_local).
Proof.
  intros dt_local found Hloaded Hfound Hok.
  rewrite calculate_moon_events_found, Hloaded, Hfound.
  cbn [negb mbind outcome_bind].
  change (mk_moon_acc None None None None None None)
    with (moon_acc_of None None).
  rewrite (moon_event_fold_reports found None None Hok).
  cbn [or_else mbind outcome_bind].
  destruct (calculate_moon_transit_de421 eph utc_offset moon_altaz lat lon
              dt_local) as [tt ta].
  destruct (first_event true found ≫= _) as [[[? ?] ?]|];
    destruct (first_event false found ≫= _) as [[[? ?] ?]|]; reflexivity.
Qed.

End MoonEventFacts.

Lemma moon_events_first_rise_and_set_witness :
  let dt_local := mk_datetime 2024 3 20 10 0 0 0 in
  let t0 := (inject_Z (to_micros (mk_datetime 2024 3 20 0 0 0 0))
             / inject_Z US_PER_DAY)%Q in
  let found := [((t0 + 1 / 4)%Q, 0)] in
  ephemeris_loaded toy_ephemeris = true
  /\ moon_events_found toy_ephemeris 0 toy_moon_settings 0 0 dt_local = Ok found
  /\ Forall (fun tev => exists r,
               moon_event_report toy_ephemeris 0 toy_moon_altaz 0 0 tev = Ok r)
       found
  /\ calculate_moon_events_de421 toy_ephemeris 0 toy_moon_altaz
       toy_moon_settings 0 0 dt_local
     = moon_events_of
         (first_event true found ≫= moon_report_of toy_ephemeris 0 toy_moon_altaz 0 0)
         (first_event false found ≫= moon_report_of toy_ephemeris 0 toy_moon_altaz 0 0)
         (calculate_moon_transit_de421 toy_ephemeris 0 toy_moon_altaz 0 0 dt_local).
Proof.
  intros dt_local t0 found.
  assert (H1 : ephemeris_loaded toy_ephemeris = true) by reflexivity.
  assert (H2 : moon_events_found toy_ephemeris 0 toy_moon_settings 0 0 dt_local
               = Ok found) by (vm_compute; reflexivity).
  assert (H3 : Forall (fun tev => exists r,
                 moon_event_report toy_ephemeris 0 toy_moon_altaz 0 0 tev = Ok r)
                 found)
    by (repeat constructor; eexists; vm_compute; reflexivity).
  split; [exact H1|]. split; [exact H2|]. split; [exact H3|].
  exact (moon_events_first_rise_and_set toy_ephemeris 0 toy_moon_altaz
           toy_moon_settings 0 0 dt_local found H1 H2 H3).
Defined.

Example moon_events_without_rise_and_set :
  let r := calculate_moon_events_de421 toy_ephemeris 0 toy_moon_altaz
             toy_moon_nothing 0 0 (mk_datetime 2024 3 20 10 0 0 0) in
  moonrise_str r = "不出"%string /\ moonset_str r = "不落"%string
  /\ transit_time r = "15:00"%string /\ transit_alt r = Some 15%Q.
Proof. vm_compute. repeat split; reflexivity. Qed.
